(** * JSON visualisation app (main.py): a shallow embedding and its properties

    The program reads a JSON document from an uploaded file or from an HTTP
    API, and shows it in three views; the third view is the structural
    summary printed by [analyze_json_structure].

    Python values are modelled as follows.
    - [str] is a list of Unicode code points ([len] counts code points).
    - a JSON value is the tagged union [value]; Python's [None] is [JNull],
      so a function that "returns None" returns [JNull].
    - a [dict] is an association list in insertion order, which is the order
      Python iterates it in.
    - a [float] is carried as the text of its [repr]: the program observes a
      float only through [str], [json.dumps] and its type name.
    - the calls made on the [st] object, and the HTTP request, are recorded
      in a trace; what the widgets and the server answer is an input.

    Two things the interpreter supplies are parameters: the table behind
    [str.isprintable] ([UnicodeDB]), which [repr] consults for characters
    above ASCII, and the conversion [float(text)] ([FloatParser]).  The
    functions of the [json] and [requests] libraries the program calls are
    modelled from their behaviour in CPython 3 and requests 2. *)

From Stdlib Require Import List ZArith NArith Lia Bool String Ascii Arith.
From Stdlib Require DecimalN DecimalFacts DecimalPos.
Import ListNotations.

Set Warnings "-register-all".
Local Open Scope list_scope.

(** ** Python strings *)

Definition pychar := N.
Definition pystr := list pychar.

Definition bytes_of (s : string) : list N :=
  map N_of_ascii (list_ascii_of_string s).

(** An ASCII literal of the source. *)
Definition lit (s : string) : pystr := bytes_of s.

Definition len {A : Type} (l : list A) : nat := List.length l.

Definition is_cont (b : N) : bool := ((128 <=? b) && (b <=? 191))%N.
Definition low6 (b : N) : N := (b mod 64)%N.

(** [bytes.decode("utf-8")]: the strict decoder (no overlong form, no
    surrogate, nothing above U+10FFFF); [None] stands for UnicodeDecodeError. *)
Fixpoint utf8_decode (bs : list N) : option pystr :=
  match bs with
  | [] => Some []
  | b1 :: r1 =>
      if (b1 <? 128)%N then option_map (cons b1) (utf8_decode r1)
      else match r1 with
      | [] => None
      | b2 :: r2 =>
          if ((194 <=? b1) && (b1 <=? 223))%N then
            if is_cont b2
            then option_map (cons ((b1 mod 32) * 64 + low6 b2)%N) (utf8_decode r2)
            else None
          else match r2 with
          | [] => None
          | b3 :: r3 =>
              if ((224 <=? b1) && (b1 <=? 239))%N then
                if is_cont b2 && is_cont b3
                   && (negb (b1 =? 224) || (160 <=? b2))%N
                   && (negb (b1 =? 237) || (b2 <=? 159))%N
                then option_map
                       (cons ((b1 mod 16) * 4096 + low6 b2 * 64 + low6 b3)%N)
                       (utf8_decode r3)
                else None
              else match r3 with
              | [] => None
              | b4 :: r4 =>
                  if ((240 <=? b1) && (b1 <=? 244))%N then
                    if is_cont b2 && is_cont b3 && is_cont b4
                       && (negb (b1 =? 240) || (144 <=? b2))%N
                       && (negb (b1 =? 244) || (b2 <=? 143))%N
                    then option_map
                           (cons ((b1 mod 8) * 262144 + low6 b2 * 4096
                                  + low6 b3 * 64 + low6 b4)%N)
                           (utf8_decode r4)
                    else None
                  else None
              end
          end
      end
  end.

(** A literal of the source that holds non-ASCII text (the file is UTF-8). *)
Definition ulit (s : string) : pystr :=
  match utf8_decode (bytes_of s) with
  | Some t => t
  | None => []
  end.

Definition pystr_eqb (a b : pystr) : bool :=
  if list_eq_dec N.eq_dec a b then true else false.

(** Decimal digits of a natural number, as [str(int)] prints them. *)
Fixpoint uint_chars (d : Decimal.uint) : pystr :=
  match d with
  | Decimal.Nil => []
  | Decimal.D0 r => 48%N :: uint_chars r
  | Decimal.D1 r => 49%N :: uint_chars r
  | Decimal.D2 r => 50%N :: uint_chars r
  | Decimal.D3 r => 51%N :: uint_chars r
  | Decimal.D4 r => 52%N :: uint_chars r
  | Decimal.D5 r => 53%N :: uint_chars r
  | Decimal.D6 r => 54%N :: uint_chars r
  | Decimal.D7 r => 55%N :: uint_chars r
  | Decimal.D8 r => 56%N :: uint_chars r
  | Decimal.D9 r => 57%N :: uint_chars r
  end.

Definition str_N (n : N) : pystr := uint_chars (N.to_uint n).
Definition str_nat (n : nat) : pystr := str_N (N.of_nat n).

(** [str(n)] for an [int]. *)
Definition str_int (z : Z) : pystr :=
  match z with
  | Zneg p => 45%N :: str_N (Npos p)
  | _ => str_N (Z.to_N z)
  end.

Definition hex_digit (n : N) : pychar :=
  if (n <? 10)%N then (48 + n)%N else (87 + n)%N.

(** The last [k] lowercase hexadecimal digits of [n] ([%0kx]). *)
Fixpoint hex_fixed (k : nat) (n : N) : pystr :=
  match k with
  | O => []
  | S k' => hex_fixed k' (n / 16)%N ++ [hex_digit (n mod 16)%N]
  end.

(** ** JSON values, as [json.load] builds them *)

Inductive value : Type :=
  | JNull : value
  | JBool : bool -> value
  | JInt : Z -> value
  | JFloat : pystr -> value
  | JString : pystr -> value
  | JArray : list value -> value
  | JObject : list (pystr * value) -> value.

(** [type(v).__name__] *)
Definition type_name (v : value) : pystr :=
  match v with
  | JNull => lit "NoneType"
  | JBool _ => lit "bool"
  | JInt _ => lit "int"
  | JFloat _ => lit "float"
  | JString _ => lit "str"
  | JArray _ => lit "list"
  | JObject _ => lit "dict"
  end.

(** [isinstance(v, (dict, list))] *)
Definition isinstance_dict_list (v : value) : bool :=
  match v with
  | JArray _ | JObject _ => true
  | _ => false
  end.

(** [v is not None] *)
Definition is_not_None (v : value) : bool :=
  match v with
  | JNull => false
  | _ => true
  end.

(** [", ".join(parts)] and the like. *)
Fixpoint join (sep : pystr) (parts : list pystr) : pystr :=
  match parts with
  | [] => []
  | [p] => p
  | p :: rest => p ++ sep ++ join sep rest
  end.

(** ** [str] and [repr] *)

(** [str.isprintable] on a code point above ASCII is read from the Unicode
    database of the interpreter; the table is a parameter of the model. *)
Class UnicodeDB : Type := { isprintable : pychar -> bool }.

Section Repr.
Context {udb : UnicodeDB}.

(** One character of [repr(s)], [quote] being the quote chosen for [s]. *)
Definition repr_char (quote c : pychar) : pystr :=
  if ((c =? quote) || (c =? 92))%N then [92%N; c]
  else if (c =? 9)%N then lit "\t"
  else if (c =? 10)%N then lit "\n"
  else if (c =? 13)%N then lit "\r"
  else if ((c <? 32) || (c =? 127))%N then lit "\x" ++ hex_fixed 2 c
  else if (c <? 127)%N then [c]
  else if isprintable c then [c]
  else if (c <=? 255)%N then lit "\x" ++ hex_fixed 2 c
  else if (c <=? 65535)%N then lit "\u" ++ hex_fixed 4 c
  else lit "\U" ++ hex_fixed 8 c.

(** Double quotes are used only when the string has a single quote and no
    double quote. *)
Definition repr_quote (s : pystr) : pychar :=
  if existsb (N.eqb 39) s && negb (existsb (N.eqb 34) s) then 34%N else 39%N.

Definition repr_str (s : pystr) : pystr :=
  let q := repr_quote s in
  [q] ++ flat_map (repr_char q) s ++ [q].

(** [repr(v)] *)
Fixpoint py_repr (v : value) : pystr :=
  match v with
  | JNull => lit "None"
  | JBool true => lit "True"
  | JBool false => lit "False"
  | JInt z => str_int z
  | JFloat r => r
  | JString s => repr_str s
  | JArray l => lit "[" ++ join (lit ", ") (map py_repr l) ++ lit "]"
  | JObject l =>
      lit "{"
      ++ join (lit ", ")
           (map (fun kv : pystr * value =>
                   let (k, x) := kv in repr_str k ++ lit ": " ++ py_repr x) l)
      ++ lit "}"
  end.

(** [str(v)]: a string is itself, anything else prints as its [repr]. *)
Definition py_str (v : value) : pystr :=
  match v with
  | JString s => s
  | _ => py_repr v
  end.

End Repr.

(** ** [json.dumps(v, ensure_ascii=False, indent=2)]: the canonical text *)

(** The replacement of one character inside a JSON string literal. *)
Definition esc_char (c : pychar) : pystr :=
  if (c =? 34)%N then [92%N; 34%N]
  else if (c =? 92)%N then [92%N; 92%N]
  else if (c =? 10)%N then lit "\n"
  else if (c =? 13)%N then lit "\r"
  else if (c =? 9)%N then lit "\t"
  else if (c =? 8)%N then lit "\b"
  else if (c =? 12)%N then lit "\f"
  else if (c <? 32)%N then lit "\u" ++ hex_fixed 4 c
  else [c].

Definition encode_basestring (s : pystr) : pystr :=
  [34%N] ++ flat_map esc_char s ++ [34%N].

(** A float prints as its [repr], the three non-finite ones apart. *)
Definition floatstr (r : pystr) : pystr :=
  if pystr_eqb r (lit "nan") then lit "NaN"
  else if pystr_eqb r (lit "inf") then lit "Infinity"
  else if pystr_eqb r (lit "-inf") then lit "-Infinity"
  else r.

Definition newline_indent (level : nat) : pystr :=
  10%N :: repeat 32%N (2 * level).

Fixpoint dumps_at (level : nat) (v : value) : pystr :=
  match v with
  | JNull => lit "null"
  | JBool true => lit "true"
  | JBool false => lit "false"
  | JInt z => str_int z
  | JFloat r => floatstr r
  | JString s => encode_basestring s
  | JArray [] => lit "[]"
  | JArray l =>
      lit "[" ++ newline_indent (S level)
      ++ join (lit "," ++ newline_indent (S level)) (map (dumps_at (S level)) l)
      ++ newline_indent level ++ lit "]"
  | JObject [] => lit "{}"
  | JObject l =>
      lit "{" ++ newline_indent (S level)
      ++ join (lit "," ++ newline_indent (S level))
           (map (fun kv : pystr * value =>
                   let (k, x) := kv in
                   encode_basestring k ++ lit ": " ++ dumps_at (S level) x) l)
      ++ newline_indent level ++ lit "}"
  end.

Definition json_dumps (v : value) : pystr := dumps_at 0 v.

(** ** Effects and exceptions *)

(** What a run does to the outside: a call on [st] that shows something on
    the page, or the HTTP request.  The widgets that read from the user
    ([selectbox], [file_uploader], [text_input], [text_area], [button]) are
    the fields of [inputs] below; the layout containers ([expander],
    [columns], [tabs], [spinner]) show nothing of their own. *)
Inductive call : Type :=
  | st_title : pystr -> call
  | st_markdown : pystr -> call
  | st_sidebar_title : pystr -> call
  | st_header : pystr -> call
  | st_subheader : pystr -> call
  | st_metric : pystr -> pystr -> call
  | st_json : value -> call
  | st_code : pystr -> call
  | st_download_button : pystr -> pystr -> pystr -> call
  | st_write : pystr -> call
  | st_success : pystr -> call
  | st_warning : pystr -> call
  | st_error : pystr -> call
  | requests_get : pystr -> list (value * value) -> Z -> call.

Definition trace := list call.

(** The exception classes the program raises or catches. *)
Inductive exn_class : Type :=
  | JSONDecodeError
  | UnicodeDecodeError
  | TypeError
  | ValueError
  | HTTPError
  | ConnectionError
  | ReadTimeout
  | RequestsJSONDecodeError
  | OtherRequestException
  | OtherException.

(** An exception: its class and [str(e)]; the messages of the library
    exceptions are abridged. *)
Record exn : Type := Raise { exn_cls : exn_class; exn_msg : pystr }.

(** [isinstance(e, requests.exceptions.RequestException)] *)
Definition is_RequestException (e : exn) : bool :=
  match exn_cls e with
  | HTTPError | ConnectionError | ReadTimeout
  | RequestsJSONDecodeError | OtherRequestException => true
  | _ => false
  end.

(** [isinstance(e, json.JSONDecodeError)]; the error [response.json()]
    raises in requests 2.27 and later derives from it too. *)
Definition is_JSONDecodeError (e : exn) : bool :=
  match exn_cls e with
  | JSONDecodeError | RequestsJSONDecodeError => true
  | _ => false
  end.

(** A computation that adds to the trace and returns or raises. *)
Definition St (A : Type) : Type := trace -> (exn + A) * trace.

Definition ret {A : Type} (a : A) : St A := fun p => (inr a, p).

Definition bind {A B : Type} (m : St A) (f : A -> St B) : St B :=
  fun p =>
    match m p with
    | (inr a, p') => f a p'
    | (inl e, p') => (inl e, p')
    end.

Definition raise {A : Type} (e : exn) : St A := fun p => (inl e, p).

(** [try: m except ...: h e] with a handler for every exception it names;
    [h] answers [None] when no clause matches and the exception goes on. *)
Definition try_except {A : Type} (m : St A) (h : exn -> option (St A)) : St A :=
  fun p =>
    match m p with
    | (inr a, p') => (inr a, p')
    | (inl e, p') =>
        match h e with
        | Some k => k p'
        | None => (inl e, p')
        end
    end.

Definition show (c : call) : St unit := fun p => (inr tt, p ++ [c]).

Declare Scope st_scope.
Delimit Scope st_scope with st.
Notation "x <- m ;; k" := (bind m (fun x => k))
  (at level 100, m at next level, right associativity) : st_scope.
Notation "m ;; k" := (bind m (fun _ => k))
  (at level 100, right associativity) : st_scope.

Local Open Scope st_scope.

Section Loops.
Context {A : Type}.

(** [for x in l: body(x)] *)
Definition for_each (body : A -> St unit) : list A -> St unit :=
  fix loop (l : list A) : St unit :=
    match l with
    | [] => ret tt
    | x :: rest => body x ;; loop rest
    end.

(** [for i, x in enumerate(l): body(i, x)], counting from [i]. *)
Definition for_enumerate (body : nat -> A -> St unit) : nat -> list A -> St unit :=
  fix loop (i : nat) (l : list A) {struct l} : St unit :=
    match l with
    | [] => ret tt
    | x :: rest => body i x ;; loop (S i) rest
    end.

End Loops.

(** ** The structural summary *)

Section Summarizer.
Context {udb : UnicodeDB}.

(** [prefix if prefix else 'Root'] *)
Definition label (prefix : pystr) : pystr :=
  match prefix with
  | [] => lit "Root"
  | _ => prefix
  end.

(** [f"{prefix}.{key}" if prefix else key] *)
Definition child_path (prefix key : pystr) : pystr :=
  match prefix with
  | [] => key
  | _ => prefix ++ lit "." ++ key
  end.

(** [f"{prefix}[{i}]" if prefix else f"[{i}]"] *)
Definition item_path (prefix : pystr) (i : nat) : pystr :=
  match prefix with
  | [] => lit "[" ++ str_nat i ++ lit "]"
  | _ => prefix ++ lit "[" ++ str_nat i ++ lit "]"
  end.

(** [str(value)[:50] + "..." if len(str(value)) > 50 else str(value)] *)
Definition preview (value : value) : pystr :=
  if 50 <? len (py_str value)
  then firstn 50 (py_str value) ++ lit "..."
  else py_str value.

Definition dict_header (prefix : pystr) (n : nat) : pystr :=
  lit "**" ++ label prefix ++ ulit "** (辞書型 - " ++ str_nat n ++ lit " keys)".

Definition list_header (prefix : pystr) (n : nat) : pystr :=
  lit "**" ++ label prefix ++ ulit "** (配列型 - " ++ str_nat n ++ lit " items)".

Definition container_line (key value_type : pystr) : pystr :=
  ulit "  • `" ++ key ++ lit "`: " ++ value_type.

Definition scalar_line (key value_type preview : pystr) : pystr :=
  ulit "  • `" ++ key ++ lit "`: " ++ value_type ++ lit " = " ++ preview.

Definition element_type_line (first_item_type : pystr) : pystr :=
  ulit "  • 要素型: " ++ first_item_type.

Fixpoint analyze_json_structure (data : value) (prefix : pystr) {struct data}
  : St unit :=
  match data with
  | JObject items =>
      show (st_write (dict_header prefix (len items))) ;;
      for_each (fun item : pystr * value =>
        let (key, value) := item in
        let value_type := type_name value in
        if isinstance_dict_list value then
          show (st_write (container_line key value_type)) ;;
          if len (py_str value) <? 1000
          then analyze_json_structure value (child_path prefix key)
          else ret tt
        else
          show (st_write (scalar_line key value_type (preview value)))) items
  | JArray items =>
      show (st_write (list_header prefix (len items))) ;;
      match items with
      | [] => ret tt
      | first :: _ =>
          let first_item_type := type_name first in
          show (st_write (element_type_line first_item_type)) ;;
          if len items <=? 3 then
            for_enumerate (fun i item =>
              if isinstance_dict_list item && (len (py_str item) <? 500)
              then analyze_json_structure item (item_path prefix i)
              else ret tt) 0 items
          else ret tt
      end
  | _ => ret tt
  end.

End Summarizer.

(** ** [json.loads]: the decoder of the standard library

    The text is scanned from the left; a scanner returns the value read and
    the text that follows it.  The message of a JSONDecodeError is kept
    without its position suffix, and integers are read whatever their
    length.  Recursion on the nesting of the text is by [fuel];
    [json_loads] supplies enough of it (see [scan_once_fuel]). *)

Inductive scan (A : Type) : Type :=
  | Scanned : A -> pystr -> scan A
  | Invalid : pystr -> scan A
  | NoFuel : scan A.
Arguments Scanned {A} _ _.
Arguments Invalid {A} _.
Arguments NoFuel {A}.

Definition scan_map {A B : Type} (f : A -> B) (r : scan A) : scan B :=
  match r with
  | Scanned a rest => Scanned (f a) rest
  | Invalid m => Invalid m
  | NoFuel => NoFuel
  end.

Definition is_ws (c : pychar) : bool :=
  ((c =? 32) || (c =? 9) || (c =? 10) || (c =? 13))%N.

Fixpoint skip_ws (s : pystr) : pystr :=
  match s with
  | c :: r => if is_ws c then skip_ws r else s
  | [] => []
  end.

Definition is_digit (c : pychar) : bool := ((48 <=? c) && (c <=? 57))%N.

Definition hex_val (c : pychar) : option N :=
  if is_digit c then Some (c - 48)%N
  else if ((97 <=? c) && (c <=? 102))%N then Some (c - 87)%N
  else if ((65 <=? c) && (c <=? 70))%N then Some (c - 55)%N
  else None.

Definition hex4 (a b c d : pychar) : option N :=
  match hex_val a, hex_val b, hex_val c, hex_val d with
  | Some x, Some y, Some z, Some w => Some (((x * 16 + y) * 16 + z) * 16 + w)%N
  | _, _, _, _ => None
  end.

Definition is_high_surrogate (c : N) : bool := ((55296 <=? c) && (c <=? 56319))%N.
Definition is_low_surrogate (c : N) : bool := ((56320 <=? c) && (c <=? 57343))%N.
Definition join_surrogates (hi lo : N) : N :=
  (65536 + (hi - 55296) * 1024 + (lo - 56320))%N.

(** The character a one-letter escape stands for. *)
Definition unescape (e : pychar) : option pychar :=
  if (e =? 34)%N then Some 34%N
  else if (e =? 92)%N then Some 92%N
  else if (e =? 47)%N then Some 47%N
  else if (e =? 98)%N then Some 8%N
  else if (e =? 102)%N then Some 12%N
  else if (e =? 110)%N then Some 10%N
  else if (e =? 114)%N then Some 13%N
  else if (e =? 116)%N then Some 9%N
  else None.

(** [scanstring], strict, on the text after the opening quote. *)
Fixpoint scanstring (s : pystr) : scan pystr :=
  match s with
  | [] => Invalid (lit "Unterminated string starting at")
  | c :: r =>
      if (c =? 34)%N then Scanned [] r
      else if (c =? 92)%N then
        match r with
        | [] => Invalid (lit "Unterminated string starting at")
        | e :: r1 =>
            if (e =? 117)%N then
              match r1 with
              | h1 :: h2 :: h3 :: h4 :: ((_ :: _) as r2) =>
                  match hex4 h1 h2 h3 h4 with
                  | None => Invalid (lit "Invalid \uXXXX escape")
                  | Some n =>
                      match r2 with
                      | b :: u :: g1 :: g2 :: g3 :: g4 :: ((_ :: _) as r3) =>
                          if is_high_surrogate n && (b =? 92)%N && (u =? 117)%N then
                            match hex4 g1 g2 g3 g4 with
                            | None => Invalid (lit "Invalid \uXXXX escape")
                            | Some m =>
                                if is_low_surrogate m
                                then scan_map (cons (join_surrogates n m)) (scanstring r3)
                                else scan_map (cons n) (scanstring r2)
                            end
                          else scan_map (cons n) (scanstring r2)
                      | _ => scan_map (cons n) (scanstring r2)
                      end
                  end
              | _ => Invalid (lit "Invalid \uXXXX escape")
              end
            else
              match unescape e with
              | Some ch => scan_map (cons ch) (scanstring r1)
              | None => Invalid (lit "Invalid \escape")
              end
        end
      else if (c <=? 31)%N then Invalid (lit "Invalid control character at")
      else scan_map (cons c) (scanstring r)
  end.

(** The longest run of decimal digits at the head of the text. *)
Fixpoint span_digits (s : pystr) : pystr * pystr :=
  match s with
  | c :: r =>
      if is_digit c then let (ds, rest) := span_digits r in (c :: ds, rest)
      else ([], s)
  | [] => ([], [])
  end.

Fixpoint chars_uint (ds : pystr) : Decimal.uint :=
  match ds with
  | [] => Decimal.Nil
  | c :: r =>
      let t := chars_uint r in
      match (c - 48)%N with
      | 0%N => Decimal.D0 t
      | 1%N => Decimal.D1 t
      | 2%N => Decimal.D2 t
      | 3%N => Decimal.D3 t
      | 4%N => Decimal.D4 t
      | 5%N => Decimal.D5 t
      | 6%N => Decimal.D6 t
      | 7%N => Decimal.D7 t
      | 8%N => Decimal.D8 t
      | _ => Decimal.D9 t
      end
  end.

(** [int(text)] for a text the number pattern matched without fraction or
    exponent: an optional minus sign and decimal digits. *)
Definition int_of_text (s : pystr) : Z :=
  match s with
  | c :: ds =>
      if (c =? 45)%N then Z.opp (Z.of_N (N.of_uint (chars_uint ds)))
      else Z.of_N (N.of_uint (chars_uint s))
  | [] => 0%Z
  end.

(** The integer part of the number pattern: [0|[1-9][0-9]*]. *)
Definition match_int_part (s : pystr) : option (pystr * pystr) :=
  match s with
  | c :: r =>
      if (c =? 48)%N then Some ([c], r)
      else if is_digit c then let (ds, rest) := span_digits r in Some (c :: ds, rest)
      else None
  | [] => None
  end.

(** The optional fraction: a dot and at least one digit. *)
Definition match_frac (s : pystr) : pystr * pystr :=
  match s with
  | c :: ((d :: _) as r) =>
      if (c =? 46)%N && is_digit d
      then let (ds, rest) := span_digits r in (c :: ds, rest)
      else ([], s)
  | _ => ([], s)
  end.

(** The optional exponent: [e] or [E], an optional sign, at least one digit. *)
Definition match_exp (s : pystr) : pystr * pystr :=
  match s with
  | e :: r =>
      if ((e =? 101) || (e =? 69))%N then
        let (sign, r1) :=
          match r with
          | c :: r' => if ((c =? 43) || (c =? 45))%N then ([c], r') else ([], r)
          | [] => ([], r)
          end in
        let (ds, rest) := span_digits r1 in
        match ds with
        | [] => ([], s)
        | _ => (e :: sign ++ ds, rest)
        end
      else ([], s)
  | [] => ([], s)
  end.

(** [s.startswith(p)], with the text after [p]. *)
Fixpoint strip_prefix (p s : pystr) : option pystr :=
  match p with
  | [] => Some s
  | a :: p' =>
      match s with
      | c :: r => if (c =? a)%N then strip_prefix p' r else None
      | [] => None
      end
  end.

Definition starts_with (c : pychar) (s : pystr) : option pystr :=
  match s with
  | x :: r => if (x =? c)%N then Some r else None
  | [] => None
  end.

(** The optional minus sign. *)
Definition split_sign (s : pystr) : pystr * pystr :=
  match s with
  | c :: r => if (c =? 45)%N then ([c], r) else ([], s)
  | [] => ([], s)
  end.

(** The number pattern at the head of the text: the text matched, whether
    it has a fraction or an exponent (so reads as a float), and the rest. *)
Definition number_span (s : pystr) : option (pystr * bool * pystr) :=
  let (sign, s1) := split_sign s in
  match match_int_part s1 with
  | None => None
  | Some (ip, r1) =>
      let (frac, r2) := match_frac r1 in
      let (exp, r3) := match_exp r2 in
      match frac, exp with
      | [], [] => Some (sign ++ ip, false, r3)
      | _, _ => Some (sign ++ ip ++ frac ++ exp, true, r3)
      end
  end.

(** [float(text)] on a number literal, the result carried as its [repr];
    [json.JSONDecoder] takes it as [parse_float]. *)
Class FloatParser : Type := { parse_float : pystr -> pystr }.

(** [d[key] = v] on a dict in insertion order. *)
Fixpoint dict_setitem (d : list (pystr * value)) (key : pystr) (v : value)
  : list (pystr * value) :=
  match d with
  | [] => [(key, v)]
  | (k, x) :: rest =>
      if pystr_eqb k key then (k, v) :: rest
      else (k, x) :: dict_setitem rest key v
  end.

Section Decoder.
Context {fp : FloatParser}.

Definition match_number (s : pystr) : option (value * pystr) :=
  match number_span s with
  | None => None
  | Some (text, is_float, rest) =>
      Some (if is_float then JFloat (parse_float text) else JInt (int_of_text text),
            rest)
  end.

(** A value that is neither a string, an object nor an array. *)
Definition scan_atom (s : pystr) : scan value :=
  match strip_prefix (lit "null") s with
  | Some r => Scanned JNull r
  | None =>
  match strip_prefix (lit "true") s with
  | Some r => Scanned (JBool true) r
  | None =>
  match strip_prefix (lit "false") s with
  | Some r => Scanned (JBool false) r
  | None =>
  match strip_prefix (lit "NaN") s with
  | Some r => Scanned (JFloat (lit "nan")) r
  | None =>
  match strip_prefix (lit "Infinity") s with
  | Some r => Scanned (JFloat (lit "inf")) r
  | None =>
  match strip_prefix (lit "-Infinity") s with
  | Some r => Scanned (JFloat (lit "-inf")) r
  | None =>
  match match_number s with
  | Some (v, r) => Scanned v r
  | None => Invalid (lit "Expecting value")
  end end end end end end end.

Fixpoint scan_once (fuel : nat) (s : pystr) {struct fuel} : scan value :=
  match fuel with
  | O => NoFuel
  | S f =>
      match s with
      | [] => scan_atom s
      | c :: r =>
          if (c =? 34)%N then scan_map JString (scanstring r)
          else if (c =? 123)%N then
            match starts_with 125%N (skip_ws r) with
            | Some r' => Scanned (JObject []) r'
            | None => parse_members f (skip_ws r) []
            end
          else if (c =? 91)%N then
            match starts_with 93%N (skip_ws r) with
            | Some r' => Scanned (JArray []) r'
            | None => parse_elements f (skip_ws r) []
            end
          else scan_atom s
      end
  end

with parse_members (fuel : nat) (s : pystr) (acc : list (pystr * value))
  {struct fuel} : scan value :=
  match fuel with
  | O => NoFuel
  | S f =>
      match starts_with 34%N s with
      | None => Invalid (lit "Expecting property name enclosed in double quotes")
      | Some r =>
          match scanstring r with
          | Scanned key r1 =>
              match starts_with 58%N (skip_ws r1) with
              | None => Invalid (lit "Expecting ':' delimiter")
              | Some r2 =>
                  match scan_once f (skip_ws r2) with
                  | Scanned v r3 =>
                      let acc' := dict_setitem acc key v in
                      match starts_with 125%N (skip_ws r3) with
                      | Some r4 => Scanned (JObject acc') r4
                      | None =>
                          match starts_with 44%N (skip_ws r3) with
                          | Some r4 => parse_members f (skip_ws r4) acc'
                          | None => Invalid (lit "Expecting ',' delimiter")
                          end
                      end
                  | Invalid m => Invalid m
                  | NoFuel => NoFuel
                  end
              end
          | Invalid m => Invalid m
          | NoFuel => NoFuel
          end
      end
  end

with parse_elements (fuel : nat) (s : pystr) (acc : list value)
  {struct fuel} : scan value :=
  match fuel with
  | O => NoFuel
  | S f =>
      match scan_once f s with
      | Scanned v r1 =>
          match starts_with 93%N (skip_ws r1) with
          | Some r2 => Scanned (JArray (acc ++ [v])) r2
          | None =>
              match starts_with 44%N (skip_ws r1) with
              | Some r2 => parse_elements f (skip_ws r2) (acc ++ [v])
              | None => Invalid (lit "Expecting ',' delimiter")
              end
          end
      | Invalid m => Invalid m
      | NoFuel => NoFuel
      end
  end.

(** [json.loads(s)] for a [str]: leading blanks, one value, trailing
    blanks, and nothing else.  The fuel given is enough for any text, so the
    last case does not arise ([json_loads_error]). *)
Definition json_loads (s : pystr) : exn + value :=
  match starts_with 65279%N s with
  | Some _ =>
      inl (Raise JSONDecodeError (lit "Unexpected UTF-8 BOM (decode using utf-8-sig)"))
  | None =>
      match scan_once (2 * len s + 2) (skip_ws s) with
      | Scanned v rest =>
          match skip_ws rest with
          | [] => inr v
          | _ => inl (Raise JSONDecodeError (lit "Extra data"))
          end
      | Invalid m => inl (Raise JSONDecodeError m)
      | NoFuel => inl (Raise OtherException (lit "RecursionError"))
      end
  end.

End Decoder.

(** ** [dict.update] on the request headers *)

(** The integer a float equals, when it equals one; the float is given by
    its [repr] ([123.0], [1e+16], [1.5e+20], ...). *)
Definition float_as_int (r : pystr) : option Z :=
  let (neg, s1) :=
    match r with
    | c :: t => if (c =? 45)%N then (true, t) else (false, r)
    | [] => (false, r)
    end in
  match match_int_part s1 with
  | None => None
  | Some (ip, r1) =>
      let (frac, r2) := match_frac r1 in
      let (exp, r3) := match_exp r2 in
      match r3 with
      | _ :: _ => None
      | [] =>
          let m := Z.of_N (N.of_uint (chars_uint (ip ++ tl frac))) in
          let e := (int_of_text (match tl exp with
                                 | c :: t => if (c =? 43)%N then t else tl exp
                                 | [] => lit "0"
                                 end)
                    - Z.of_nat (len (tl frac)))%Z in
          let signed (z : Z) := if neg then Z.opp z else z in
          if (0 <=? e)%Z then Some (signed (m * 10 ^ e)%Z)
          else if (m mod 10 ^ (- e) =? 0)%Z then Some (signed (m / 10 ^ (- e))%Z)
          else None
      end
  end.

(** The integer a number equals ([True == 1], [2.0 == 2]). *)
Definition as_int (v : value) : option Z :=
  match v with
  | JBool true => Some 1%Z
  | JBool false => Some 0%Z
  | JInt z => Some z
  | JFloat r => float_as_int r
  | _ => None
  end.

(** Equality of two keys of a dict.  The values are those [json.loads]
    built: two floats that are not integers are equal when their [repr] is
    the same (for NaN: the decoder returns one shared object). *)
Definition key_eqb (a b : value) : bool :=
  match a, b with
  | JString x, JString y => pystr_eqb x y
  | JNull, JNull => true
  | JString _, _ | _, JString _ | JNull, _ | _, JNull => false
  | _, _ =>
      match as_int a, as_int b with
      | Some x, Some y => (x =? y)%Z
      | None, None =>
          match a, b with
          | JFloat x, JFloat y => pystr_eqb x y
          | _, _ => false
          end
      | _, _ => false
      end
  end.

Definition headers := list (value * value).

(** [d[key] = v] *)
Fixpoint headers_setitem (d : headers) (key v : value) : headers :=
  match d with
  | [] => [(key, v)]
  | (k, x) :: rest =>
      if key_eqb k key then (k, v) :: rest
      else (k, x) :: headers_setitem rest key v
  end.

(** The items of an iterable, [None] when the value cannot be iterated. *)
Definition as_sequence (v : value) : option (list value) :=
  match v with
  | JArray l => Some l
  | JString s => Some (map (fun c => JString [c]) s)
  | JObject l => Some (map (fun kv => JString (fst kv)) l)
  | _ => None
  end.

(** [d.update(other)] when [other] has no [keys]: every item of [other]
    must be a sequence of a hashable key and a value. *)
Fixpoint update_from_pairs (d : headers) (items : list value) : exn + headers :=
  match items with
  | [] => inr d
  | item :: rest =>
      match as_sequence item with
      | None =>
          inl (Raise TypeError
                 (lit "cannot convert dictionary update sequence element to a sequence"))
      | Some [k; v] =>
          if isinstance_dict_list k
          then inl (Raise TypeError (lit "unhashable type"))
          else update_from_pairs (headers_setitem d k v) rest
      | Some _ =>
          inl (Raise ValueError
                 (lit "dictionary update sequence element has the wrong length; 2 is required"))
      end
  end.

(** [d.update(other)] *)
Definition dict_update (d : headers) (other : value) : exn + headers :=
  match other with
  | JObject l =>
      inr (fold_left (fun acc kv => headers_setitem acc (JString (fst kv)) (snd kv)) l d)
  | _ =>
      match as_sequence other with
      | Some items => update_from_pairs d items
      | None => inl (Raise TypeError (lit "object is not iterable"))
      end
  end.

(** ** The application *)

Record UploadedFile : Type := { file_name : pystr; getvalue : list N }.

(** The response of the server as the program reads it; [response_json] is
    what [response.json()] does: the value decoded from the body, or the
    exception raised. *)
Record Response : Type := {
  status_code : Z;
  reason : pystr;
  url : pystr;
  response_json : exn + value
}.

(** What a run reads: the state of the widgets and the answer of
    [requests.get] to a request. *)
Record inputs : Type := {
  input_method : pystr;
  uploaded_file : option UploadedFile;
  api_url : pystr;
  api_key : pystr;
  auth_header : pystr;
  custom_headers : pystr;
  button : bool;
  http : pystr -> headers -> Z -> exn + Response
}.

(** The truth value of a [str]. *)
Definition truthy (s : pystr) : bool :=
  match s with
  | [] => false
  | _ => true
  end.

Definition lift {A : Type} (r : exn + A) : St A :=
  match r with
  | inl e => raise e
  | inr a => ret a
  end.

(** [response.raise_for_status()] of requests: HTTPError for a status from
    400 to 599. *)
Definition raise_for_status (r : Response) : St unit :=
  if ((400 <=? status_code r) && (status_code r <? 500))%Z then
    raise (Raise HTTPError
             (str_int (status_code r) ++ lit " Client Error: " ++ reason r
              ++ lit " for url: " ++ url r))
  else if ((500 <=? status_code r) && (status_code r <? 600))%Z then
    raise (Raise HTTPError
             (str_int (status_code r) ++ lit " Server Error: " ++ reason r
              ++ lit " for url: " ++ url r))
  else ret tt.

Section App.
Context {udb : UnicodeDB} {fp : FloatParser}.

Definition display_json_data (json_data : value) : St unit :=
  show (st_header (ulit "📊 JSONデータの可視化")) ;;
  let data_type := type_name json_data in
  show (st_metric (ulit "データ型") data_type) ;;
  (match json_data with
   | JArray l => show (st_metric (ulit "要素数") (str_nat (len l)))
   | JObject l => show (st_metric (ulit "要素数") (str_nat (len l)))
   | _ => ret tt
   end) ;;
  show (st_subheader (ulit "インタラクティブなJSON表示")) ;;
  show (st_json json_data) ;;
  show (st_subheader (ulit "生JSONデータ")) ;;
  let json_str := json_dumps json_data in
  show (st_code json_str) ;;
  show (st_download_button json_str (lit "data.json") (lit "application/json")) ;;
  show (st_subheader (ulit "データ構造の分析")) ;;
  analyze_json_structure json_data [].

(** In the model of a [try] statement whose body may [return], the body
    answers [Some v] when it returns [v], and [None] when control goes on to
    the statement after the [try]. *)
Definition handle_file_upload (inp : inputs) : St value :=
  show (st_header (ulit "📁 JSONファイルをアップロード")) ;;
  match uploaded_file inp with
  | Some f =>
      returned <-
        try_except
          (text <- match utf8_decode (getvalue f) with
                   | Some t => ret t
                   | None => raise (Raise UnicodeDecodeError
                                      (lit "'utf-8' codec can't decode bytes"))
                   end ;;
           json_data <- lift (json_loads text) ;;
           show (st_success (ulit "✅ ファイル '" ++ file_name f
                             ++ ulit "' を正常に読み込みました")) ;;
           ret (Some json_data))
          (fun e =>
             if is_JSONDecodeError e then
               Some (show (st_error (ulit "❌ JSON形式が正しくありません: " ++ exn_msg e)) ;;
                     ret None)
             else
               Some (show (st_error (ulit "❌ ファイルの読み込みに失敗しました: "
                                     ++ exn_msg e)) ;;
                     ret None)) ;;
      match returned with
      | Some json_data => ret json_data
      | None => ret JNull
      end
  | None => ret JNull
  end.

(** The headers built in the expander: the credential, then the custom ones. *)
Definition build_headers (inp : inputs) : St headers :=
  let headers0 : headers := [] in
  let headers1 :=
    if truthy (api_key inp) then
      if pystr_eqb (auth_header inp) (lit "Authorization: Bearer") then
        headers_setitem headers0 (JString (lit "Authorization"))
          (JString (lit "Bearer " ++ api_key inp))
      else if pystr_eqb (auth_header inp) (lit "Authorization: API-Key") then
        headers_setitem headers0 (JString (lit "Authorization"))
          (JString (lit "API-Key " ++ api_key inp))
      else headers_setitem headers0 (JString (lit "X-API-Key")) (JString (api_key inp))
    else headers0 in
  if truthy (custom_headers inp) then
    try_except
      (custom_headers_dict <- lift (json_loads (custom_headers inp)) ;;
       lift (dict_update headers1 custom_headers_dict))
      (fun e =>
         if is_JSONDecodeError e then
           Some (show (st_warning (ulit "カスタムヘッダーのJSON形式が正しくありません")) ;;
                 ret headers1)
         else None)
  else ret headers1.

Definition handle_api_request (inp : inputs) : St value :=
  show (st_header (ulit "🌐 API連携でJSONデータを取得")) ;;
  headers <- build_headers inp ;;
  if button inp then
    if truthy (api_url inp) then
      returned <-
        try_except
          (show (requests_get (api_url inp) headers 30) ;;
           response <- lift (http inp (api_url inp) headers 30%Z) ;;
           raise_for_status response ;;
           json_data <- lift (response_json response) ;;
           show (st_success (ulit "✅ APIからデータを正常に取得しました (ステータス: "
                             ++ str_int (status_code response) ++ lit ")")) ;;
           ret (Some json_data))
          (fun e =>
             if is_RequestException e then
               Some (show (st_error (ulit "❌ APIリクエストに失敗しました: " ++ exn_msg e)) ;;
                     ret None)
             else if is_JSONDecodeError e then
               Some (show (st_error (ulit "❌ レスポンスがJSON形式ではありません")) ;;
                     ret None)
             else
               Some (show (st_error (ulit "❌ 予期しないエラーが発生しました: " ++ exn_msg e)) ;;
                     ret None)) ;;
      match returned with
      | Some json_data => ret json_data
      | None => ret JNull
      end
    else ret JNull
  else ret JNull.

Definition main (inp : inputs) : St unit :=
  show (st_title (ulit "📄 JSON可視化アプリ")) ;;
  show (st_markdown (ulit "JSONファイルやAPI から取得したデータをインタラクティブに表示します")) ;;
  show (st_sidebar_title (ulit "データ入力方法")) ;;
  json_data <-
    (if pystr_eqb (input_method inp) (ulit "JSONファイルをアップロード")
     then handle_file_upload inp
     else handle_api_request inp) ;;
  if is_not_None json_data then display_json_data json_data else ret tt.

End App.

(** ** Notions the statements use *)

(** The calls a summary of [data] under [prefix] adds to the trace. *)
Definition summary {udb : UnicodeDB} (data : value) (prefix : pystr) : trace :=
  snd (analyze_json_structure data prefix []).

(** A computation that returns normally and whose calls do not depend on
    the trace it starts from. *)
Definition framed (m : St unit) : Prop :=
  forall t : trace, m t = (inr tt, t ++ snd (m [])).

(** [enumerate(l)] *)
Definition enumerate {A : Type} (l : list A) : list (nat * A) :=
  combine (seq 0 (len l)) l.

(** The number of nodes of a value. *)
Fixpoint value_size (v : value) : nat :=
  match v with
  | JArray l => S (list_sum (map value_size l))
  | JObject l => S (list_sum (map (fun kv : pystr * value => value_size (snd kv)) l))
  | _ => 1
  end.

(** The length of the canonical text form, which the specification takes
    for the guard of the recursion. *)
Definition canonical_len (v : value) : nat := len (json_dumps v).

(** Induction on values, with the hypothesis for every element of an array
    and every value of an object. *)
Section ValueInduction.
Variable P : value -> Prop.
Hypothesis HNull : P JNull.
Hypothesis HBool : forall b, P (JBool b).
Hypothesis HInt : forall z, P (JInt z).
Hypothesis HFloat : forall r, P (JFloat r).
Hypothesis HString : forall s, P (JString s).
Hypothesis HArray : forall l, Forall P l -> P (JArray l).
Hypothesis HObject : forall l, Forall (fun kv => P (snd kv)) l -> P (JObject l).

Fixpoint value_nested_ind (v : value) : P v :=
  match v with
  | JNull => HNull
  | JBool b => HBool b
  | JInt z => HInt z
  | JFloat r => HFloat r
  | JString s => HString s
  | JArray l =>
      HArray l
        ((fix all (l : list value) : Forall P l :=
            match l with
            | [] => Forall_nil P
            | x :: r => Forall_cons x (value_nested_ind x) (all r)
            end) l)
  | JObject l =>
      HObject l
        ((fix all (l : list (pystr * value)) : Forall (fun kv => P (snd kv)) l :=
            match l with
            | [] => Forall_nil _
            | kv :: r =>
                Forall_cons (P := fun kv => P (snd kv)) kv
                  (value_nested_ind (snd kv)) (all r)
            end) l)
  end.

End ValueInduction.

(** The bodies of the two loops of [analyze_json_structure], named for the
    statements ([analyze_object] and [analyze_array] are by unfolding). *)
Definition object_item {udb : UnicodeDB} (prefix : pystr) (item : pystr * value)
  : St unit :=
  let (key, value) := item in
  let value_type := type_name value in
  if isinstance_dict_list value then
    show (st_write (container_line key value_type)) ;;
    if len (py_str value) <? 1000
    then analyze_json_structure value (child_path prefix key)
    else ret tt
  else
    show (st_write (scalar_line key value_type (preview value))).

Definition array_item {udb : UnicodeDB} (prefix : pystr) (i : nat) (item : value)
  : St unit :=
  if isinstance_dict_list item && (len (py_str item) <? 500)
  then analyze_json_structure item (item_path prefix i)
  else ret tt.


(** The calls [main] makes before it reads the data. *)
Definition main_preamble : trace :=
  [st_title (ulit "📄 JSON可視化アプリ");
   st_markdown (ulit "JSONファイルやAPI から取得したデータをインタラクティブに表示します");
   st_sidebar_title (ulit "データ入力方法")].

(** The kinds of failure of the specification, and the kind the handlers
    of [handle_api_request] give an exception: the [except] clauses are
    tried in the order of the source. *)
Inductive failure : Type := NetworkError | ParseError | UnexpectedError.

Definition classify (e : exn) : failure :=
  if is_RequestException e then NetworkError
  else if is_JSONDecodeError e then ParseError
  else UnexpectedError.

(** The message shown for a failure of each kind. *)
Definition failure_line (e : exn) : call :=
  match classify e with
  | NetworkError => st_error (ulit "❌ APIリクエストに失敗しました: " ++ exn_msg e)
  | ParseError => st_error (ulit "❌ レスポンスがJSON形式ではありません")
  | UnexpectedError => st_error (ulit "❌ 予期しないエラーが発生しました: " ++ exn_msg e)
  end.

(** The status test of [raise_for_status], and the test the specification
    words as "non-2xx". *)
Definition is_http_error (status : Z) : bool := ((400 <=? status) && (status <? 600))%Z.
Definition is_2xx (status : Z) : bool := ((200 <=? status) && (status <? 300))%Z.

(** What may follow a value in a text that [json.dumps] wrote: nothing, a
    comma or a newline. *)
Definition after_value (rest : pystr) : bool :=
  match rest with
  | [] => true
  | c :: _ => ((c =? 44) || (c =? 10))%N
  end.

(** The [repr] of a float that is not finite. *)
Definition nonfinite (r : pystr) : bool :=
  pystr_eqb r (lit "nan") || pystr_eqb r (lit "inf") || pystr_eqb r (lit "-inf").

(** A text the number pattern matches whole, with a fraction or an
    exponent. *)
Definition float_literal (r : pystr) : bool :=
  match number_span r with
  | Some (_, true, []) => true
  | _ => false
  end.

(** A float whose [repr] reads back as the same float: [float(repr(x)) == x]. *)
Definition float_ok {fp : FloatParser} (r : pystr) : bool :=
  nonfinite r || (float_literal r && pystr_eqb (parse_float r) r).

(** The values [json.loads] can build: the keys of an object are distinct,
    and every float reads back from its [repr]. *)
Inductive well_formed {fp : FloatParser} : value -> Prop :=
  | wf_null : well_formed JNull
  | wf_bool : forall b, well_formed (JBool b)
  | wf_int : forall z, well_formed (JInt z)
  | wf_float : forall r, float_ok r = true -> well_formed (JFloat r)
  | wf_string : forall s, well_formed (JString s)
  | wf_array : forall l, Forall well_formed l -> well_formed (JArray l)
  | wf_object : forall l,
      NoDup (map fst l) -> Forall (fun kv => well_formed (snd kv)) l ->
      well_formed (JObject l).

(** A character a value can start with in a text [json.dumps] wrote: not a
    blank, not a closing bracket, a comma or a colon, not a byte order mark. *)
Definition starts_value (c : pychar) : bool :=
  negb (is_ws c) && negb (c =? 93)%N && negb (c =? 125)%N && negb (c =? 44)%N
  && negb (c =? 58)%N && negb (c =? 65279)%N.

(** What may follow the digits of a number: nothing, or a character that
    is not a digit. *)
Definition no_digit_ahead (s : pystr) : bool :=
  match s with
  | [] => true
  | c :: _ => negb (is_digit c)
  end.

(** What may follow the fraction: nothing, or the letter of an exponent. *)
Definition exponent_ahead (s : pystr) : bool :=
  match s with
  | [] => true
  | c :: _ => ((c =? 101) || (c =? 69))%N
  end.

(** A float parser for the concrete runs: a float is identified with the
    literal that denotes it, so [repr(float(text))] is [text] itself. *)
Definition literal_floats : FloatParser := {| parse_float := fun text => text |}.

(** What the round trip says of one value: it is read back from its text at
    any depth of indentation, before a comma, a newline or the end. *)
Definition reads_back {fp : FloatParser} (v : value) : Prop :=
  well_formed v ->
  forall (level : nat) (rest : pystr),
    after_value rest = true ->
    exists f, scan_once f (dumps_at level v ++ rest) = Scanned v rest.

(** ** Notions of the further properties *)
(** The kinds of call the statements tell apart. *)
Definition is_st_write (c : call) : bool :=
  match c with
  | st_write _ => true
  | _ => false
  end.

Definition is_request (c : call) : bool :=
  match c with
  | requests_get _ _ _ => true
  | _ => false
  end.

Definition is_download (c : call) : bool :=
  match c with
  | st_download_button _ _ _ => true
  | _ => false
  end.

Definition is_code (c : call) : bool :=
  match c with
  | st_code _ => true
  | _ => false
  end.

(** The headers [handle_api_request] holds before it reads the custom ones:
    the credential, when an API key is given (lines 67 to 85). *)
Definition credential_headers (inp : inputs) : headers :=
  let headers0 : headers := [] in
  if truthy (api_key inp) then
    if pystr_eqb (auth_header inp) (lit "Authorization: Bearer") then
      headers_setitem headers0 (JString (lit "Authorization"))
        (JString (lit "Bearer " ++ api_key inp))
    else if pystr_eqb (auth_header inp) (lit "Authorization: API-Key") then
      headers_setitem headers0 (JString (lit "Authorization"))
        (JString (lit "API-Key " ++ api_key inp))
    else headers_setitem headers0 (JString (lit "X-API-Key")) (JString (api_key inp))
  else headers0.

(** The warning for custom headers that are not JSON. *)
Definition headers_warning : call :=
  st_warning (ulit "カスタムヘッダーのJSON形式が正しくありません").

(** What the [try] statement of [handle_api_request] returns and shows
    after the request, with the headers [hs]: the three handlers turn every
    exception into [None] and one line. *)
Definition fetch_outcome (inp : inputs) (hs : headers) : value * call :=
  match http inp (api_url inp) hs 30%Z with
  | inl e => (JNull, failure_line e)
  | inr response =>
      match fst (raise_for_status response []) with
      | inl e => (JNull, failure_line e)
      | inr _ =>
          match response_json response with
          | inl e => (JNull, failure_line e)
          | inr v =>
              (v, st_success (ulit "✅ APIからデータを正常に取得しました (ステータス: "
                              ++ str_int (status_code response) ++ lit ")"))
          end
      end
  end.

(** The calls of [display_json_data] before the summary. *)
Definition display_head (json_data : value) : trace :=
  [st_header (ulit "📊 JSONデータの可視化");
   st_metric (ulit "データ型") (type_name json_data)]
  ++ match json_data with
     | JArray l => [st_metric (ulit "要素数") (str_nat (len l))]
     | JObject l => [st_metric (ulit "要素数") (str_nat (len l))]
     | _ => []
     end
  ++ [st_subheader (ulit "インタラクティブなJSON表示");
      st_json json_data;
      st_subheader (ulit "生JSONデータ");
      st_code (json_dumps json_data);
      st_download_button (json_dumps json_data) (lit "data.json") (lit "application/json");
      st_subheader (ulit "データ構造の分析")].

(** The two headers of the loaders and the success line of the upload. *)
Definition upload_header : call := st_header (ulit "📁 JSONファイルをアップロード").
Definition api_header : call := st_header (ulit "🌐 API連携でJSONデータを取得").
Definition upload_success (f : UploadedFile) : call :=
  st_success (ulit "✅ ファイル '" ++ file_name f ++ ulit "' を正常に読み込みました").

(** The state of the widgets for the concrete runs: a file uploaded, and a
    request set up in the API form. *)
Definition upload_inputs (name : pystr) (bytes : list N) : inputs :=
  {| input_method := ulit "JSONファイルをアップロード";
     uploaded_file := Some {| file_name := name; getvalue := bytes |};
     api_url := []; api_key := []; auth_header := [];
     custom_headers := []; button := false;
     http := fun _ _ _ => inl (Raise ConnectionError []) |}.

Definition api_inputs (address key auth custom : pystr) (pressed : bool)
  (get : pystr -> headers -> Z -> exn + Response) : inputs :=
  {| input_method := ulit "API連携で取得";
     uploaded_file := None;
     api_url := address; api_key := key; auth_header := auth;
     custom_headers := custom; button := pressed;
     http := get |}.

(** [d.get(key)]: the value the dict holds for a key. *)
Fixpoint headers_get (d : headers) (key : value) : option value :=
  match d with
  | [] => None
  | (k, x) :: rest => if key_eqb k key then Some x else headers_get rest key
  end.

(** [headers.update(items)] for the items of a JSON object, as
    [dict_update] does it. *)
Definition merge_items (items : list (pystr * value)) (d : headers) : headers :=
  fold_left (fun acc kv => headers_setitem acc (JString (fst kv)) (snd kv)) items d.

(** A string literal of a JSON text: the characters between two double
    quotes (for texts with no character to escape). *)
Definition quoted (s : pystr) : pystr := [34%N] ++ s ++ [34%N].

(** What a line of the summary under the path [prefix] can be: the header
    of a dict or of a list at a path that extends [prefix], the line of a
    key, or the line for the type of the elements. *)
Definition summary_line (prefix : pystr) (c : call) : Prop :=
  (exists (p : pystr) (n : nat),
      (c = st_write (dict_header p n) \/ c = st_write (list_header p n))
      /\ exists suffix, p = prefix ++ suffix)
  \/ (exists key value_type, c = st_write (container_line key value_type))
  \/ (exists key value_type shown, c = st_write (scalar_line key value_type shown))
  \/ (exists first_item_type, c = st_write (element_type_line first_item_type)).




(** ** Valid JSON

    Modelled from the spec: "valid JSON" is the grammar of RFC 8259, a value
    between optional blanks, where a value is an object, an array, a string,
    a number or one of [true], [false], [null].  The recogniser follows the
    scanner of [json.loads] step by step, without the three words [NaN],
    [Infinity] and [-Infinity], which are not JSON. *)






(** [r] is what is left of [s] after some of it was read. *)
Definition suffix (r s : pystr) : Prop := exists pre : pystr, s = pre ++ r.

(** [response.json()] of requests (2.27 and later) on a response whose body
    is the text [body]: [json.loads] of the text; a JSONDecodeError is
    raised again as the JSONDecodeError of requests, which is a
    RequestException as well. *)
Definition requests_json {fp : FloatParser} (body : pystr) : exn + value :=
  match json_loads body with
  | inr v => inr v
  | inl e => inl (Raise RequestsJSONDecodeError (exn_msg e))
  end.

(** * Properties *)

(** ** The summary is framed *)

Lemma framed_ret : framed (ret tt).
Proof. intros t. unfold ret. simpl. now rewrite app_nil_r. Qed.

Lemma framed_show (c : call) : framed (show c).
Proof. intros t. reflexivity. Qed.

Lemma framed_bind (m k : St unit) :
  framed m -> framed k -> framed (m ;; k).
Proof.
  intros Hm Hk t. unfold bind.
  rewrite (Hm t), (Hm []). simpl.
  rewrite (Hk (t ++ snd (m []))), (Hk (snd (m []))).
  simpl. now rewrite app_assoc.
Qed.

Lemma calls_bind (m k : St unit) :
  framed m -> snd ((m ;; k) []) = snd (k (snd (m []))).
Proof.
  intros Hm. unfold bind. rewrite (Hm []). reflexivity.
Qed.

Lemma calls_seq (m k : St unit) :
  framed m -> framed k -> snd ((m ;; k) []) = snd (m []) ++ snd (k []).
Proof.
  intros Hm Hk. rewrite calls_bind by assumption. now rewrite (Hk (snd (m []))).
Qed.

Lemma framed_if (b : bool) (m k : St unit) :
  framed m -> framed k -> framed (if b then m else k).
Proof. now destruct b. Qed.

Lemma for_each_framed {A : Type} (body : A -> St unit) (l : list A) :
  Forall (fun x => framed (body x)) l -> framed (for_each body l).
Proof.
  induction 1 as [|x r Hx _ IH]; simpl.
  - apply framed_ret.
  - now apply framed_bind.
Qed.

Lemma for_each_calls {A : Type} (body : A -> St unit) (l : list A) :
  Forall (fun x => framed (body x)) l ->
  snd (for_each body l []) = flat_map (fun x => snd (body x [])) l.
Proof.
  induction 1 as [|x r Hx Hr IH]; simpl; [reflexivity|].
  rewrite calls_seq; auto using for_each_framed. now rewrite IH.
Qed.

Lemma for_enumerate_framed {A : Type} (body : nat -> A -> St unit) (l : list A) :
  Forall (fun x => forall i, framed (body i x)) l ->
  forall i, framed (for_enumerate body i l).
Proof.
  induction 1 as [|x r Hx _ IH]; intros i; simpl.
  - apply framed_ret.
  - apply framed_bind; auto.
Qed.

Lemma for_enumerate_calls {A : Type} (body : nat -> A -> St unit) (l : list A) :
  Forall (fun x => forall i, framed (body i x)) l ->
  forall i,
    snd (for_enumerate body i l [])
    = flat_map (fun ix : nat * A => snd (body (fst ix) (snd ix) []))
        (combine (seq i (len l)) l).
Proof.
  induction 1 as [|x r Hx Hr IH]; intros i; simpl; [reflexivity|].
  rewrite calls_seq; auto using for_enumerate_framed. now rewrite IH.
Qed.

Section SummaryProperties.
Context {udb : UnicodeDB}.

Lemma analyze_framed (data : value) :
  forall prefix, framed (analyze_json_structure data prefix).
Proof.
  induction data as [| | | | |l IH|l IH] using value_nested_ind; intros prefix;
    try apply framed_ret.
  - cbn [analyze_json_structure]. apply framed_bind; [apply framed_show|].
    destruct l as [|first rest]; [apply framed_ret|].
    apply framed_bind; [apply framed_show|].
    apply framed_if; [|apply framed_ret].
    apply for_enumerate_framed.
    eapply Forall_impl; [|exact IH]. intros x Hx i.
    apply framed_if; [apply Hx | apply framed_ret].
  - cbn [analyze_json_structure]. apply framed_bind; [apply framed_show|].
    apply for_each_framed.
    eapply Forall_impl; [|exact IH]. intros [k x] Hx. simpl in Hx.
    apply framed_if; [|apply framed_show].
    apply framed_bind; [apply framed_show|].
    apply framed_if; [apply Hx | apply framed_ret].
Qed.

Lemma analyze_object (items : list (pystr * value)) (prefix : pystr) :
  analyze_json_structure (JObject items) prefix
  = (show (st_write (dict_header prefix (len items))) ;;
     for_each (object_item prefix) items).
Proof. reflexivity. Qed.

Lemma analyze_array (first : value) (rest : list value) (prefix : pystr) :
  analyze_json_structure (JArray (first :: rest)) prefix
  = (show (st_write (list_header prefix (len (first :: rest)))) ;;
     show (st_write (element_type_line (type_name first))) ;;
     if len (first :: rest) <=? 3
     then for_enumerate (array_item prefix) 0 (first :: rest)
     else ret tt).
Proof. reflexivity. Qed.

Lemma object_item_framed (prefix : pystr) (item : pystr * value) :
  framed (object_item prefix item).
Proof.
  destruct item as [k x]. unfold object_item.
  apply framed_if; [|apply framed_show].
  apply framed_bind; [apply framed_show|].
  apply framed_if; [apply analyze_framed | apply framed_ret].
Qed.

Lemma array_item_framed (prefix : pystr) (i : nat) (item : value) :
  framed (array_item prefix i item).
Proof.
  unfold array_item. apply framed_if; [apply analyze_framed | apply framed_ret].
Qed.

(** The calls for one item of an object. *)
Lemma object_item_calls (prefix key : pystr) (x : value) :
  snd (object_item prefix (key, x) [])
  = if isinstance_dict_list x
    then st_write (container_line key (type_name x))
         :: (if len (py_str x) <? 1000 then summary x (child_path prefix key) else [])
    else [st_write (scalar_line key (type_name x) (preview x))].
Proof.
  unfold object_item. destruct (isinstance_dict_list x); [|reflexivity].
  rewrite calls_bind by apply framed_show. simpl.
  destruct (len (py_str x) <? 1000).
  - rewrite (analyze_framed x). reflexivity.
  - reflexivity.
Qed.

Lemma summary_object (items : list (pystr * value)) (prefix : pystr) :
  summary (JObject items) prefix
  = st_write (dict_header prefix (len items))
    :: flat_map (fun item => snd (object_item prefix item [])) items.
Proof.
  unfold summary. rewrite analyze_object.
  rewrite calls_seq.
  - rewrite for_each_calls; [reflexivity|].
    apply Forall_forall. intros x _. apply object_item_framed.
  - apply framed_show.
  - apply for_each_framed, Forall_forall. intros x _. apply object_item_framed.
Qed.

Lemma summary_array (first : value) (rest : list value) (prefix : pystr) :
  summary (JArray (first :: rest)) prefix
  = st_write (list_header prefix (len (first :: rest)))
    :: st_write (element_type_line (type_name first))
    :: (if len (first :: rest) <=? 3
        then flat_map (fun ix : nat * value => snd (array_item prefix (fst ix) (snd ix) []))
               (enumerate (first :: rest))
        else []).
Proof.
  assert (Hall : Forall (fun x => forall i, framed (array_item prefix i x)) (first :: rest)).
  { apply Forall_forall. intros x _ i. apply array_item_framed. }
  unfold summary. rewrite analyze_array.
  rewrite calls_seq; [|apply framed_show|].
  - rewrite calls_seq; [|apply framed_show|].
    + destruct (len (first :: rest) <=? 3); [|reflexivity].
      rewrite for_enumerate_calls by exact Hall. reflexivity.
    + apply framed_if; [now apply for_enumerate_framed | apply framed_ret].
  - apply framed_bind; [apply framed_show|].
    apply framed_if; [now apply for_enumerate_framed | apply framed_ret].
Qed.

Lemma summary_array_nil (prefix : pystr) :
  summary (JArray []) prefix = [st_write (list_header prefix 0)].
Proof. reflexivity. Qed.

Lemma summary_scalar (x : value) (prefix : pystr) :
  isinstance_dict_list x = false -> summary x prefix = [].
Proof. destruct x; try discriminate; reflexivity. Qed.

Lemma array_item_calls (prefix : pystr) (i : nat) (x : value) :
  snd (array_item prefix i x [])
  = if isinstance_dict_list x && (len (py_str x) <? 500)
    then summary x (item_path prefix i) else [].
Proof.
  unfold array_item.
  now destruct (isinstance_dict_list x && (len (py_str x) <? 500)).
Qed.


Lemma object_items_calls (items : list (pystr * value)) (prefix : pystr) :
  tl (summary (JObject items) prefix)
  = flat_map (fun item => snd (object_item prefix item [])) items.
Proof. now rewrite summary_object. Qed.

End SummaryProperties.

(** ** The guards of the recursion *)

Section SummarizerClaims.
Context {udb : UnicodeDB}.


(** C2 (as amended): the summary of a non-empty array is its header, which
    shows the path ([Root] when it is empty) and the number of elements, the
    type of its first element and, when it has at most 3 elements, the
    summary of every element that is a dict or a list with
    [len(str(element)) < 500], under the path extended by [[i]]
    ([prefix[i]], or [[i]] alone at the root); nothing else.  So five
    integers give the count 5 and the type alone, and two objects whose
    [str] form is shorter than 500 are both summarised, as [[0]] and [[1]]. *)
Theorem array_element_recursion_guard :
  forall (prefix : pystr) (first : value) (rest : list value),
    summary (JArray (first :: rest)) prefix
    = st_write (list_header prefix (len (first :: rest)))
      :: st_write (element_type_line (type_name first))
      :: (if len (first :: rest) <=? 3
          then flat_map
                 (fun ix : nat * value =>
                    if isinstance_dict_list (snd ix) && (len (py_str (snd ix)) <? 500)
                    then summary (snd ix) (item_path prefix (fst ix))
                    else [])
                 (enumerate (first :: rest))
          else [])
    /\ (forall a b c d e : Z,
          summary (JArray [JInt a; JInt b; JInt c; JInt d; JInt e]) prefix
          = [st_write (list_header prefix 5); st_write (element_type_line (lit "int"))])
    /\ (forall o1 o2 : list (pystr * value),
          len (py_str (JObject o1)) < 500 ->
          len (py_str (JObject o2)) < 500 ->
          summary (JArray [JObject o1; JObject o2]) []
          = st_write (list_header [] 2)
            :: st_write (element_type_line (lit "dict"))
            :: summary (JObject o1) (lit "[0]") ++ summary (JObject o2) (lit "[1]"))
    /\ (forall i : nat, item_path [] i = lit "[" ++ str_nat i ++ lit "]")
    /\ (forall i : nat,
          prefix <> [] -> item_path prefix i = prefix ++ lit "[" ++ str_nat i ++ lit "]")
    /\ (forall n : nat,
          list_header [] n = ulit "**Root** (配列型 - " ++ str_nat n ++ lit " items)")
    /\ (forall n : nat,
          prefix <> [] ->
          list_header prefix n
          = lit "**" ++ prefix ++ ulit "** (配列型 - " ++ str_nat n ++ lit " items)")
    /\ (forall first_item_type : pystr,
          element_type_line first_item_type = ulit "  • 要素型: " ++ first_item_type)
    /\ (forall a b c d e : Z,
          summary (JArray [JInt a; JInt b; JInt c; JInt d; JInt e]) []
          = [st_write (ulit "**Root** (配列型 - 5 items)");
             st_write (ulit "  • 要素型: int")])
    /\ summary (JArray [JObject []; JArray []]) []
       = [st_write (ulit "**Root** (配列型 - 2 items)");
          st_write (ulit "  • 要素型: dict");
          st_write (ulit "**[0]** (辞書型 - 0 keys)");
          st_write (ulit "**[1]** (配列型 - 0 items)")]
    /\ summary (JArray [JInt 7; JArray [JArray []]; JObject []]) (lit "data.rows")
       = [st_write (ulit "**data.rows** (配列型 - 3 items)");
          st_write (ulit "  • 要素型: int");
          st_write (ulit "**data.rows[1]** (配列型 - 1 items)");
          st_write (ulit "  • 要素型: list");
          st_write (ulit "**data.rows[1][0]** (配列型 - 0 items)");
          st_write (ulit "**data.rows[2]** (辞書型 - 0 keys)")].
Proof.
  intros prefix first rest.
  split; [|split; [|split; [|split; [|split; [|split; [|split; [|split; [|split;
    [|split]]]]]]]]].
  - rewrite summary_array. do 2 f_equal.
    destruct (len (first :: rest) <=? 3); [|reflexivity].
    apply flat_map_ext. intros [i x]. apply array_item_calls.
  - intros a b c d e. now rewrite summary_array.
  - intros o1 o2 H1 H2. rewrite summary_array.
    unfold enumerate. change (len [JObject o1; JObject o2]) with 2.
    cbn [Nat.leb seq combine flat_map fst snd].
    rewrite !array_item_calls.
    cbn [isinstance_dict_list andb].
    apply Nat.ltb_lt in H1, H2. unfold len in H1, H2 |- *. rewrite H1, H2.
    now rewrite app_nil_r.
  - reflexivity.
  - intros i Hp. destruct prefix; [contradiction | reflexivity].
  - reflexivity.
  - intros n Hp. destruct prefix; [contradiction | reflexivity].
  - reflexivity.
  - intros a b c d e. now rewrite summary_array.
  - vm_compute. reflexivity.
  - vm_compute. reflexivity.
Qed.

(** C3: the line of a child that is neither a dict nor a list is
    [  • `key`: type = preview], where the preview is the child's [str] form
    when it has at most 50 characters, and otherwise its first 50
    characters followed by [...]; the 52 letters of the example are cut
    after the 50th, and a string of 40 characters is shown whole. *)
Theorem scalar_preview_truncation :
  forall (prefix : pystr) (pre : list (pystr * value)) (key : pystr)
         (x : value) (post : list (pystr * value)),
    isinstance_dict_list x = false ->
    summary (JObject (pre ++ (key, x) :: post)) prefix
    = st_write (dict_header prefix (len (pre ++ (key, x) :: post)))
      :: tl (summary (JObject pre) prefix)
      ++ st_write (scalar_line key (type_name x) (preview x))
      :: tl (summary (JObject post) prefix)
    /\ (len (py_str x) <= 50 -> preview x = py_str x)
    /\ (50 < len (py_str x) -> preview x = firstn 50 (py_str x) ++ lit "...")
    /\ preview (JString (lit "abcdefghijklmnopqrstuvwxyzabcdefghijklmnopqrstuvwxyz"))
       = lit "abcdefghijklmnopqrstuvwxyzabcdefghijklmnopqrstuvwx..."
    /\ (forall s : pystr, len s = 40 -> preview (JString s) = s)
    /\ scalar_line key (type_name x) (preview x)
       = ulit "  • `" ++ key ++ lit "`: " ++ type_name x ++ lit " = "
         ++ (if 50 <? len (py_str x)
             then firstn 50 (py_str x) ++ lit "..." else py_str x)
    /\ summary
         (JObject [(lit "s",
                    JString (lit "abcdefghijklmnopqrstuvwxyzabcdefghijklmnopqrstuvwxyz"));
                   (lit "n", JInt 7); (lit "none", JNull)]) []
       = [st_write (ulit "**Root** (辞書型 - 3 keys)");
          st_write
            (ulit "  • `s`: str = abcdefghijklmnopqrstuvwxyzabcdefghijklmnopqrstuvwx...");
          st_write (ulit "  • `n`: int = 7");
          st_write (ulit "  • `none`: NoneType = None")]
    /\ (forall s : pystr,
          len s = 40 ->
          summary (JObject [(key, JString s)]) []
          = [st_write (ulit "**Root** (辞書型 - 1 keys)");
             st_write (ulit "  • `" ++ key ++ lit "`: str = " ++ s)]).
Proof.
  intros prefix pre key x post Hx.
  split; [|split; [|split; [|split; [|split; [|split; [|split]]]]]].
  - rewrite summary_object, !object_items_calls, flat_map_app.
    cbn [flat_map]. rewrite object_item_calls, Hx. reflexivity.
  - intros H. unfold preview.
    destruct (Nat.ltb_spec 50 (len (py_str x))); [lia | reflexivity].
  - intros H. unfold preview.
    destruct (Nat.ltb_spec 50 (len (py_str x))); [reflexivity | lia].
  - vm_compute. reflexivity.
  - intros s H. unfold preview. simpl py_str. now rewrite H.
  - reflexivity.
  - vm_compute. reflexivity.
  - intros s H. rewrite summary_object. cbn [flat_map].
    rewrite object_item_calls. cbn [isinstance_dict_list type_name].
    assert (Hp : preview (JString s) = s)
      by (unfold preview; cbn [py_str]; now rewrite H).
    rewrite Hp. cbn [app].
    apply f_equal2; [vm_compute; reflexivity|].
    unfold scalar_line. do 4 f_equal.
Qed.

End SummarizerClaims.


(** C2, the claim as stated, fails: the canonical text of a list of 100
    ones has 502 characters, its [str] form has 300, and the summary of an
    array that holds only this list goes into it, as [[0]]. *)
Lemma array_guard_is_not_canonical_length :
  (canonical_len (JArray (repeat (JInt 1) 100)) <? 500) = false
  /\ (forall udb : UnicodeDB,
        summary (JArray [JArray (repeat (JInt 1) 100)]) []
        = [st_write (list_header [] 1);
           st_write (element_type_line (lit "list"));
           st_write (list_header (lit "[0]") 100);
           st_write (element_type_line (lit "int"))]).
Proof.
  split; [vm_compute; reflexivity|]. intros udb. vm_compute. reflexivity.
Qed.


Lemma array_element_recursion_guard_witness :
  (5 <=? 3) = false
  /\ (forall udb : UnicodeDB,
        len (py_str (JObject [(lit "id", JInt 1)])) < 500
        /\ len (py_str (JObject [(lit "id", JInt 2); (lit "tags", JArray [])])) < 500
        /\ summary (JArray [JObject [(lit "id", JInt 1)];
                            JObject [(lit "id", JInt 2); (lit "tags", JArray [])]]) []
           = st_write (list_header [] 2)
             :: st_write (element_type_line (lit "dict"))
             :: summary (JObject [(lit "id", JInt 1)]) (lit "[0]")
             ++ summary (JObject [(lit "id", JInt 2); (lit "tags", JArray [])])
                  (lit "[1]")).
Proof.
  split; [reflexivity|]. intros udb.
  assert (H1 : len (py_str (JObject [(lit "id", JInt 1)])) < 500)
    by (apply Nat.ltb_lt; vm_compute; reflexivity).
  assert (H2 : len (py_str (JObject [(lit "id", JInt 2); (lit "tags", JArray [])])) < 500)
    by (apply Nat.ltb_lt; vm_compute; reflexivity).
  split; [exact H1|]. split; [exact H2|].
  exact (proj1 (proj2 (proj2 (@array_element_recursion_guard udb [] JNull []))) _ _ H1 H2).
Defined.

Lemma scalar_preview_truncation_witness :
  isinstance_dict_list (JString (lit "abcdefghijklmnopqrstuvwxyzabcdefghijklmnopqrstuvwxyz")) = false
  /\ (forall udb : UnicodeDB,
        summary (JObject ([] ++ (lit "s", JString (lit "abcdefghijklmnopqrstuvwxyzabcdefghijklmnopqrstuvwxyz")) :: [])) []
        = [st_write (dict_header [] 1);
           st_write (scalar_line (lit "s") (lit "str")
                       (lit "abcdefghijklmnopqrstuvwxyzabcdefghijklmnopqrstuvwx..."))]).
Proof.
  split; [reflexivity|]. intros udb.
  exact (proj1 (@scalar_preview_truncation udb [] [] (lit "s")
                  (JString (lit "abcdefghijklmnopqrstuvwxyzabcdefghijklmnopqrstuvwxyz"))
                  [] eq_refl)).
Defined.

(** ** Termination, size of the output, determinism *)

Lemma flat_map_length_le {A B : Type} (f : A -> list B) (g : A -> nat) (l : list A) :
  Forall (fun x => len (f x) <= g x) l ->
  len (flat_map f l) <= list_sum (map g l).
Proof.
  unfold len. induction 1 as [|x r Hx _ IH]; simpl; [lia|].
  rewrite length_app. lia.
Qed.

Lemma flat_map_enumerate_length_le {A B : Type}
  (f : nat * A -> list B) (g : A -> nat) (l : list A) :
  Forall (fun x => forall i, len (f (i, x)) <= g x) l ->
  forall i n, len (flat_map f (combine (seq i n) l)) <= list_sum (map g l).
Proof.
  unfold len. induction 1 as [|x r Hx _ IH]; intros i n.
  - destruct n; simpl; lia.
  - destruct n as [|n]; simpl; [lia|].
    rewrite length_app. specialize (Hx i). specialize (IH (S i) n). lia.
Qed.

Lemma value_size_pos (v : value) : 1 <= value_size v.
Proof. destruct v; simpl; lia. Qed.

Lemma list_sum_cons (a : nat) (l : list nat) : list_sum (a :: l) = a + list_sum l.
Proof. reflexivity. Qed.

Lemma list_sum_map_le {A : Type} (f g : A -> nat) (l : list A) :
  (forall x, f x <= g x) -> list_sum (map f l) <= list_sum (map g l).
Proof.
  intros H. induction l as [|x r IH]; cbn [map]; [lia|].
  rewrite !list_sum_cons. specialize (H x). lia.
Qed.

Lemma list_sum_map_double {A : Type} (f : A -> nat) (l : list A) :
  list_sum (map (fun x => 2 * f x) l) = 2 * list_sum (map f l).
Proof.
  induction l as [|x r IH]; cbn [map]; [reflexivity|]. rewrite !list_sum_cons. lia.
Qed.

Section SummarizerTotal.
Context {udb : UnicodeDB}.

(** The header apart, a summary has at most two lines per node. *)
Lemma summary_length (data : value) :
  forall prefix, len (summary data prefix) + 1 <= 2 * value_size data.
Proof.
  induction data as [| | | | |l IH|l IH] using value_nested_ind; intros prefix.
  1-5: (rewrite summary_scalar by reflexivity; simpl; lia).
  - destruct l as [|first rest];
      [rewrite summary_array_nil; change (1 + 1 <= 2 * 1); lia|].
    rewrite summary_array.
    assert (Hsum :
      len (flat_map
             (fun ix : nat * value => snd (array_item prefix (fst ix) (snd ix) []))
             (enumerate (first :: rest)))
      <= list_sum (map (fun x => 2 * value_size x - 1) (first :: rest))).
    { apply flat_map_enumerate_length_le.
      eapply Forall_impl; [|exact IH]. intros x Hx i.
      cbn [fst snd]. rewrite array_item_calls.
      destruct (isinstance_dict_list x && (len (py_str x) <? 500)).
      - specialize (Hx (item_path prefix i)). lia.
      - pose proof (value_size_pos x). simpl. lia. }
    assert (Hle :
      list_sum (map (fun x => 2 * value_size x - 1) (first :: rest)) + 1
      <= 2 * list_sum (map value_size (first :: rest))).
    { cbn [map]. rewrite !list_sum_cons. pose proof (value_size_pos first).
      pose proof (list_sum_map_le (fun x => 2 * value_size x - 1)
                    (fun x => 2 * value_size x) rest) as Hr.
      rewrite list_sum_map_double in Hr.
      assert (forall x : value, 2 * value_size x - 1 <= 2 * value_size x) as Hx
        by (intros; lia).
      specialize (Hr Hx). lia. }
    cbn [value_size].
    destruct (len (first :: rest) <=? 3); unfold len in *;
      cbn [Datatypes.length]; lia.
  - rewrite summary_object.
    assert (Hsum :
      len (flat_map (fun item => snd (object_item prefix item [])) l)
      <= list_sum (map (fun kv : pystr * value => 2 * value_size (snd kv)) l)).
    { apply flat_map_length_le.
      eapply Forall_impl; [|exact IH]. intros [k x] Hx. cbn [snd] in *.
      rewrite object_item_calls. pose proof (value_size_pos x).
      destruct (isinstance_dict_list x); [|simpl; lia].
      destruct (len (py_str x) <? 1000).
      - specialize (Hx (child_path prefix k)). unfold len in *.
        cbn [Datatypes.length]. lia.
      - simpl. lia. }
    rewrite (list_sum_map_double (fun kv : pystr * value => value_size (snd kv))) in Hsum.
    cbn [value_size]. unfold len in *. cbn [Datatypes.length]. lia.
Qed.

(** C4: on every value and every path the summary returns normally, and
    the number of calls it adds to the trace is at most twice the number of
    nodes of the value. *)
Theorem summary_terminates_bounded :
  forall (data : value) (prefix : pystr) (t : trace),
    analyze_json_structure data prefix t = (inr tt, t ++ summary data prefix)
    /\ len (summary data prefix) <= 2 * value_size data.
Proof.
  intros data prefix t. split.
  - unfold summary. exact (analyze_framed data prefix t).
  - pose proof (summary_length data prefix). lia.
Qed.

End SummarizerTotal.

(** ** Determinism: what the summary depends on *)




Section TwoTables.
Variables udb1 udb2 : UnicodeDB.





End TwoTables.




(** ** The decoder: what it consumes, and its fuel *)

Lemma skip_ws_length (s : pystr) : len (skip_ws s) <= len s.
Proof.
  unfold len. induction s as [|c r IH]; simpl; [lia|].
  destruct (is_ws c); simpl; lia.
Qed.

Lemma starts_with_length (c : pychar) (s r : pystr) :
  starts_with c s = Some r -> len s = S (len r).
Proof.
  destruct s as [|x t]; simpl; [discriminate|].
  destruct (x =? c)%N; [|discriminate]. now intros [= ->].
Qed.

Lemma strip_prefix_length (p s r : pystr) :
  strip_prefix p s = Some r -> len s = len p + len r.
Proof.
  unfold len. revert s. induction p as [|a p IH]; intros s; simpl.
  - now intros [= ->].
  - destruct s as [|c t]; [discriminate|].
    destruct (c =? a)%N; [|discriminate]. intros H. apply IH in H. simpl. lia.
Qed.

Lemma span_digits_length (s ds r : pystr) :
  span_digits s = (ds, r) -> len s = len ds + len r.
Proof.
  unfold len. revert ds r. induction s as [|c t IH]; intros ds r; simpl.
  - now intros [= <- <-].
  - destruct (is_digit c).
    + destruct (span_digits t) as [ds' r'] eqn:E. intros [= <- <-].
      specialize (IH _ _ eq_refl). simpl. lia.
    + now intros [= <- <-].
Qed.

Ltac scan_step H :=
  match type of H with
  | Scanned _ _ = Scanned _ _ => injection H as ? ?; subst
  | Invalid _ = Scanned _ _ => discriminate H
  | NoFuel = Scanned _ _ => discriminate H
  | scan_map _ ?x = Scanned _ _ =>
      let E := fresh "E" in
      destruct x eqn:E; cbn [scan_map] in H; [injection H as ? ?; subst | discriminate H | discriminate H]
  | context [if ?b then _ else _] => let E := fresh "E" in destruct b eqn:E
  | context [match ?x with _ => _ end] => let E := fresh "E" in destruct x eqn:E
  end.

Lemma scanstring_length (n : nat) :
  forall s a r, len s <= n -> scanstring s = Scanned a r -> len r < len s.
Proof.
  unfold len. induction n as [|n IH]; intros s a r Hn H.
  - destruct s; [discriminate|simpl in Hn; lia].
  - destruct s as [|c s1]; [discriminate|].
    cbn [scanstring] in H. cbn [Datatypes.length] in *.
    repeat (scan_step H; cbn [Datatypes.length] in * );
    match goal with
    | E : scanstring ?x = Scanned _ _ |- _ => apply IH in E; cbn [Datatypes.length] in *; lia
    | _ => lia
    end.
Qed.

Lemma scan_map_fuel {A B : Type} (f : A -> B) (x : scan A) :
  x <> NoFuel -> scan_map f x <> NoFuel.
Proof. destruct x; simpl; congruence. Qed.

Lemma scanstring_fuel_aux (n : nat) :
  forall s, len s <= n -> scanstring s <> NoFuel.
Proof.
  unfold len. induction n as [|n IH]; intros s Hn.
  - destruct s; [discriminate|simpl in Hn; lia].
  - destruct s as [|c s1]; [discriminate|].
    cbn [scanstring]. cbn [Datatypes.length] in *.
    repeat match goal with
           | |- scan_map _ _ <> NoFuel =>
               apply scan_map_fuel, IH; cbn [Datatypes.length] in *; lia
           | |- Scanned _ _ <> NoFuel => discriminate
           | |- Invalid _ <> NoFuel => discriminate
           | |- context [if ?b then _ else _] => destruct b
           | |- context [match ?x with _ => _ end] =>
               destruct x; cbn [Datatypes.length] in *
           end.
Qed.

Lemma scanstring_fuel (s : pystr) : scanstring s <> NoFuel.
Proof. exact (scanstring_fuel_aux _ s (le_n _)). Qed.

Lemma match_int_part_length (s ip r : pystr) :
  match_int_part s = Some (ip, r) -> len s = len ip + len r /\ 1 <= len ip.
Proof.
  unfold len, match_int_part. destruct s as [|c t]; [discriminate|].
  destruct (c =? 48)%N.
  - intros [= <- <-]. simpl. lia.
  - destruct (is_digit c); [|discriminate].
    destruct (span_digits t) as [ds r'] eqn:E. intros [= <- <-].
    apply span_digits_length in E. unfold len in E. simpl. lia.
Qed.

Lemma match_frac_length (s f r : pystr) :
  match_frac s = (f, r) -> len s = len f + len r.
Proof.
  unfold len, match_frac. destruct s as [|c [|d t]]; try (now intros [= <- <-]).
  destruct ((c =? 46)%N && is_digit d); [|now intros [= <- <-]].
  destruct (span_digits (d :: t)) as [ds r'] eqn:E. intros [= <- <-].
  apply span_digits_length in E. unfold len in E. simpl in *. lia.
Qed.

Lemma match_exp_length (s e r : pystr) :
  match_exp s = (e, r) -> len s = len e + len r.
Proof.
  unfold len, match_exp. destruct s as [|c t]; [now intros [= <- <-]|].
  destruct ((c =? 101) || (c =? 69))%N; [|now intros [= <- <-]].
  destruct (match t with
            | [] => ([], t)
            | c0 :: r' => if ((c0 =? 43) || (c0 =? 45))%N then ([c0], r') else ([], t)
            end) as [sign r1] eqn:Es.
  destruct (span_digits r1) as [ds rest] eqn:E.
  apply span_digits_length in E. unfold len in E.
  assert (Hs : Datatypes.length t = Datatypes.length sign + Datatypes.length r1).
  { destruct t as [|c0 r']; [now injection Es as <- <-|].
    destruct ((c0 =? 43) || (c0 =? 45))%N; injection Es as <- <-; simpl; lia. }
  destruct ds; intros [= <- <-]; simpl in *; [lia|].
  rewrite length_app. simpl. lia.
Qed.

Lemma number_span_length (s text r : pystr) (b : bool) :
  number_span s = Some (text, b, r) -> len r < len s.
Proof.
  unfold number_span.
  destruct (split_sign s) as [sign s1] eqn:Es.
  assert (Hs : len s1 <= len s).
  { unfold len. unfold split_sign in Es. destruct s as [|c r0]; [now injection Es as <- <-|].
    destruct (c =? 45)%N; injection Es as <- <-; simpl; lia. }
  destruct (match_int_part s1) as [[ip r1]|] eqn:Ei; [|discriminate].
  destruct (match_frac r1) as [frac r2] eqn:Ef.
  destruct (match_exp r2) as [exp r3] eqn:Ee.
  apply match_int_part_length in Ei. apply match_frac_length in Ef.
  apply match_exp_length in Ee.
  intros H. assert (r = r3) as -> by (destruct frac, exp; now injection H).
  lia.
Qed.

Section DecoderFacts.
Context {fp : FloatParser}.

Lemma match_number_length (s : pystr) (v : value) (r : pystr) :
  match_number s = Some (v, r) -> len r < len s.
Proof.
  unfold match_number.
  destruct (number_span s) as [[[text b] rest]|] eqn:E; [|discriminate].
  intros [= _ <-]. now apply number_span_length in E.
Qed.

Lemma scan_atom_length (s : pystr) (v : value) (r : pystr) :
  scan_atom s = Scanned v r -> len r < len s.
Proof.
  unfold scan_atom. intros H.
  repeat match type of H with
         | context [match strip_prefix ?p s with _ => _ end] =>
             let E := fresh "E" in
             destruct (strip_prefix p s) eqn:E;
             [apply strip_prefix_length in E; injection H as ? ?; subst;
              unfold len in *; simpl in E; lia|]
         end.
  destruct (match_number s) as [[v' r']|] eqn:En; [|discriminate].
  injection H as <- <-. eapply match_number_length; eauto.
Qed.

Lemma scan_family_length (fuel : nat) :
  (forall s v r, scan_once fuel s = Scanned v r -> len r < len s)
  /\ (forall s acc v r, parse_members fuel s acc = Scanned v r -> len r < len s)
  /\ (forall s acc v r, parse_elements fuel s acc = Scanned v r -> len r < len s).
Proof.
  induction fuel as [|f (IHo & IHm & IHe)]; [repeat split; discriminate|].
  split; [|split].
  - intros s v r H. cbn [scan_once] in H.
    destruct s as [|c t]; [now apply scan_atom_length in H|].
    destruct (c =? 34)%N.
    { destruct (scanstring t) eqn:E; cbn [scan_map] in H; try discriminate.
      injection H as <- <-. apply (scanstring_length _ _ _ _ (le_n _)) in E.
      unfold len in *. simpl. lia. }
    pose proof (skip_ws_length t) as Hw.
    destruct (c =? 123)%N.
    { destruct (starts_with 125%N (skip_ws t)) eqn:E.
      - injection H as <- <-. apply starts_with_length in E.
        unfold len in *. simpl. lia.
      - apply IHm in H. unfold len in *. simpl. lia. }
    destruct (c =? 91)%N.
    { destruct (starts_with 93%N (skip_ws t)) eqn:E.
      - injection H as <- <-. apply starts_with_length in E.
        unfold len in *. simpl. lia.
      - apply IHe in H. unfold len in *. simpl. lia. }
    now apply scan_atom_length in H.
  - intros s acc v r H. cbn [parse_members] in H.
    destruct (starts_with 34%N s) as [r0|] eqn:E0; [|discriminate].
    destruct (scanstring r0) as [key r1| |] eqn:E1; try discriminate.
    destruct (starts_with 58%N (skip_ws r1)) as [r2|] eqn:E2; [|discriminate].
    destruct (scan_once f (skip_ws r2)) as [x r3| |] eqn:E3; try discriminate.
    apply starts_with_length in E0, E2.
    apply (scanstring_length _ _ _ _ (le_n _)) in E1. apply IHo in E3.
    pose proof (skip_ws_length r1). pose proof (skip_ws_length r2).
    pose proof (skip_ws_length r3).
    destruct (starts_with 125%N (skip_ws r3)) as [r4|] eqn:E4.
    { injection H as <- <-. apply starts_with_length in E4. lia. }
    destruct (starts_with 44%N (skip_ws r3)) as [r4|] eqn:E5; [|discriminate].
    apply starts_with_length in E5. apply IHm in H.
    pose proof (skip_ws_length r4). lia.
  - intros s acc v r H. cbn [parse_elements] in H.
    destruct (scan_once f s) as [x r1| |] eqn:E1; try discriminate.
    apply IHo in E1. pose proof (skip_ws_length r1).
    destruct (starts_with 93%N (skip_ws r1)) as [r2|] eqn:E2.
    { injection H as <- <-. apply starts_with_length in E2. lia. }
    destruct (starts_with 44%N (skip_ws r1)) as [r2|] eqn:E3; [|discriminate].
    apply starts_with_length in E3. apply IHe in H.
    pose proof (skip_ws_length r2). lia.
Qed.

Lemma scan_once_fuel (fuel : nat) :
  (forall s, 2 * len s + 1 <= fuel -> scan_once fuel s <> NoFuel)
  /\ (forall s acc, 2 * len s + 2 <= fuel -> parse_members fuel s acc <> NoFuel)
  /\ (forall s acc, 2 * len s + 2 <= fuel -> parse_elements fuel s acc <> NoFuel).
Proof.
  induction fuel as [|f (IHo & IHm & IHe)]; [repeat split; intros; lia|].
  split; [|split].
  - intros s Hf. cbn [scan_once].
    assert (Ha : scan_atom s <> NoFuel).
    { unfold scan_atom.
      repeat match goal with
             | |- context [match strip_prefix ?p s with _ => _ end] =>
                 destruct (strip_prefix p s); [discriminate|]
             end.
      destruct (match_number s) as [[? ?]|]; discriminate. }
    destruct s as [|c t]; [exact Ha|].
    destruct (c =? 34)%N; [apply scan_map_fuel, scanstring_fuel|].
    pose proof (skip_ws_length t) as Hw. unfold len in *. simpl in Hf.
    destruct (c =? 123)%N.
    { destruct (starts_with 125%N (skip_ws t)); [discriminate|].
      apply IHm. unfold len. lia. }
    destruct (c =? 91)%N.
    { destruct (starts_with 93%N (skip_ws t)); [discriminate|].
      apply IHe. unfold len. lia. }
    exact Ha.
  - intros s acc Hf. cbn [parse_members].
    destruct (starts_with 34%N s) as [r0|] eqn:E0; [|discriminate].
    destruct (scanstring r0) as [key r1| |] eqn:E1;
      [|discriminate|now apply scanstring_fuel in E1].
    destruct (starts_with 58%N (skip_ws r1)) as [r2|] eqn:E2; [|discriminate].
    apply starts_with_length in E0, E2.
    apply (scanstring_length _ _ _ _ (le_n _)) in E1.
    pose proof (skip_ws_length r1). pose proof (skip_ws_length r2).
    destruct (scan_once f (skip_ws r2)) as [x r3| |] eqn:E3; try discriminate.
    + apply (proj1 (scan_family_length f)) in E3. pose proof (skip_ws_length r3).
      destruct (starts_with 125%N (skip_ws r3)) as [r4|] eqn:E4; [discriminate|].
      destruct (starts_with 44%N (skip_ws r3)) as [r4|] eqn:E5; [|discriminate].
      apply starts_with_length in E5. pose proof (skip_ws_length r4).
      apply IHm. lia.
    + exfalso. revert E3. apply IHo. lia.
  - intros s acc Hf. cbn [parse_elements].
    destruct (scan_once f s) as [x r1| |] eqn:E1; try discriminate.
    + apply (proj1 (scan_family_length f)) in E1. pose proof (skip_ws_length r1).
      destruct (starts_with 93%N (skip_ws r1)) as [r2|] eqn:E2; [discriminate|].
      destruct (starts_with 44%N (skip_ws r1)) as [r2|] eqn:E3; [|discriminate].
      apply starts_with_length in E3. pose proof (skip_ws_length r2).
      apply IHe. lia.
    + exfalso. revert E1. apply IHo. lia.
Qed.

(** Whatever [json.loads] raises is a JSONDecodeError. *)
Lemma json_loads_error (s : pystr) (e : exn) :
  json_loads s = inl e -> exn_cls e = JSONDecodeError.
Proof.
  unfold json_loads.
  destruct (starts_with 65279%N s); [now intros [= <-]|].
  destruct (scan_once (2 * len s + 2) (skip_ws s)) as [v rest|m|] eqn:E.
  - destruct (skip_ws rest); [discriminate | now intros [= <-]].
  - now intros [= <-].
  - exfalso. revert E. apply scan_once_fuel.
    pose proof (skip_ws_length s). lia.
Qed.

End DecoderFacts.

(** ** Loading a document *)

Section AppClaims.
Context {udb : UnicodeDB} {fp : FloatParser}.

Lemma lift_inr {A : Type} (a : A) (t : trace) : lift (inr a) t = (inr a, t).
Proof. reflexivity. Qed.

Lemma lift_inl {A : Type} (e : exn) (t : trace) : @lift A (inl e) t = (inl e, t).
Proof. reflexivity. Qed.

(** The run of [handle_file_upload] on a file whose bytes decode to [text]. *)
Lemma handle_file_upload_decoded (inp : inputs) (f : UploadedFile) (text : pystr)
  (t : trace) :
  uploaded_file inp = Some f ->
  utf8_decode (getvalue f) = Some text ->
  handle_file_upload inp t
  = match json_loads text with
    | inr v =>
        (inr v,
         t ++ [st_header (ulit "📁 JSONファイルをアップロード");
               st_success (ulit "✅ ファイル '" ++ file_name f
                           ++ ulit "' を正常に読み込みました")])
    | inl e =>
        (inr JNull,
         t ++ [st_header (ulit "📁 JSONファイルをアップロード");
               st_error (ulit "❌ JSON形式が正しくありません: " ++ exn_msg e)])
    end.
Proof.
  intros Hf Hd. unfold handle_file_upload. rewrite Hf.
  unfold bind at 1. unfold show at 1. cbn beta iota.
  unfold bind at 1, try_except. rewrite Hd.
  unfold bind at 1. unfold ret at 1.
  unfold bind at 1.
  destruct (json_loads text) as [e|v] eqn:E.
  - rewrite lift_inl. apply json_loads_error in E.
    unfold is_JSONDecodeError. rewrite E.
    unfold bind, show, ret. now rewrite <- app_assoc.
  - rewrite lift_inr. unfold bind, show, ret. now rewrite <- app_assoc.
Qed.

Lemma pystr_eqb_refl (s : pystr) : pystr_eqb s s = true.
Proof. unfold pystr_eqb. now destruct (list_eq_dec N.eq_dec s s). Qed.


(** [main] on the upload path, when the loader returns [None]. *)
Lemma main_upload_none (inp : inputs) (t t' : trace) :
  input_method inp = ulit "JSONファイルをアップロード" ->
  handle_file_upload inp (t ++ main_preamble) = (inr JNull, t') ->
  main inp t = (inr tt, t').
Proof.
  intros Hm Hu. unfold main. rewrite Hm, pystr_eqb_refl.
  unfold bind at 1. unfold show at 1. cbn beta iota.
  unfold bind at 1. unfold show at 1. cbn beta iota.
  unfold bind at 1. unfold show at 1. cbn beta iota.
  unfold bind at 1.
  replace (((t ++ [st_title (ulit "📄 JSON可視化アプリ")]) ++
            [st_markdown (ulit "JSONファイルやAPI から取得したデータをインタラクティブに表示します")]) ++
           [st_sidebar_title (ulit "データ入力方法")])
    with (t ++ main_preamble)
    by (unfold main_preamble; now rewrite <- !app_assoc).
  rewrite Hu. reflexivity.
Qed.

(** C10: when the text of the uploaded file is the document [null] (more
    generally, when [json.load] returns [None]), the load succeeds with the
    null value, [handle_file_upload] returns it after the success message,
    and [main] skips [display_json_data]: nothing is shown after the success
    message, and the summary is not run.  The run differs from a run with no
    file uploaded by the success message alone. *)
Theorem top_level_null_is_not_displayed :
  forall (inp : inputs) (f : UploadedFile) (text : pystr),
    input_method inp = ulit "JSONファイルをアップロード" ->
    uploaded_file inp = Some f ->
    utf8_decode (getvalue f) = Some text ->
    json_loads text = inr JNull ->
    json_loads (lit "null") = inr JNull
    /\ (forall t : trace,
          handle_file_upload inp t
          = (inr JNull,
             t ++ [st_header (ulit "📁 JSONファイルをアップロード");
                   st_success (ulit "✅ ファイル '" ++ file_name f
                               ++ ulit "' を正常に読み込みました")]))
    /\ (forall t : trace,
          main inp t
          = (inr tt,
             t ++ main_preamble
               ++ [st_header (ulit "📁 JSONファイルをアップロード");
                   st_success (ulit "✅ ファイル '" ++ file_name f
                               ++ ulit "' を正常に読み込みました")]))
    /\ (forall (inp0 : inputs) (t : trace),
          input_method inp0 = ulit "JSONファイルをアップロード" ->
          uploaded_file inp0 = None ->
          main inp0 t
          = (inr tt,
             t ++ main_preamble ++ [st_header (ulit "📁 JSONファイルをアップロード")])).
Proof.
  intros inp f text Hm Hf Hd Hnull.
  assert (Hu : forall t, handle_file_upload inp t
                         = (inr JNull,
                            t ++ [st_header (ulit "📁 JSONファイルをアップロード");
                                  st_success (ulit "✅ ファイル '" ++ file_name f
                                              ++ ulit "' を正常に読み込みました")])).
  { intros t. rewrite (handle_file_upload_decoded inp f text t Hf Hd). now rewrite Hnull. }
  split; [vm_compute; reflexivity|]. split; [exact Hu|]. split.
  - intros t. apply main_upload_none; [exact Hm|]. rewrite Hu. now rewrite <- app_assoc.
  - intros inp0 t Hm0 Hn0. apply main_upload_none; [exact Hm0|].
    unfold handle_file_upload. rewrite Hn0. unfold bind, show, ret.
    now rewrite <- app_assoc.
Qed.

End AppClaims.

(** ** The API path *)

Lemma raise_for_status_ok (r : Response) (t : trace) :
  is_http_error (status_code r) = false -> raise_for_status r t = (inr tt, t).
Proof.
  unfold is_http_error, raise_for_status. intros H.
  destruct (400 <=? status_code r)%Z eqn:E4; simpl in H.
  - destruct (status_code r <? 500)%Z eqn:E5.
    + apply Z.ltb_lt in E5. apply Z.ltb_ge in H. lia.
    + simpl. destruct (500 <=? status_code r)%Z; simpl; [rewrite H|]; reflexivity.
  - simpl. destruct (500 <=? status_code r)%Z eqn:E5; [|reflexivity].
    apply Z.leb_le in E5. apply Z.leb_gt in E4. lia.
Qed.

Lemma raise_for_status_error (r : Response) (t : trace) :
  is_http_error (status_code r) = true ->
  exists msg, raise_for_status r t = (inl (Raise HTTPError msg), t).
Proof.
  unfold is_http_error, raise_for_status. intros H.
  apply andb_prop in H as [H4 H6]. rewrite H4. simpl.
  destruct (status_code r <? 500)%Z eqn:E5; [eexists; reflexivity|].
  apply Z.ltb_ge in E5. apply Z.leb_le in E5. rewrite E5, H6. simpl.
  eexists; reflexivity.
Qed.

Section ApiClaims.
Context {fp : FloatParser}.

(** The run of the fetch once the headers are built and the button is
    pressed on a non-empty URL: one GET with the timeout 30, then one line,
    by the first handler that matches. *)
Lemma api_fetch_table :
  forall (inp : inputs) (hs : headers) (t t1 : trace),
    button inp = true ->
    truthy (api_url inp) = true ->
    build_headers inp (t ++ [st_header (ulit "🌐 API連携でJSONデータを取得")])
    = (inr hs, t1) ->
    handle_api_request inp t
    = match http inp (api_url inp) hs 30%Z with
      | inl e => (inr JNull, t1 ++ [requests_get (api_url inp) hs 30; failure_line e])
      | inr response =>
          if is_http_error (status_code response) then
            (inr JNull,
             t1 ++ [requests_get (api_url inp) hs 30;
                    st_error (ulit "❌ APIリクエストに失敗しました: "
                              ++ str_int (status_code response)
                              ++ (if (status_code response <? 500)%Z
                                  then lit " Client Error: " else lit " Server Error: ")
                              ++ reason response ++ lit " for url: " ++ url response)])
          else
            match response_json response with
            | inr v =>
                (inr v,
                 t1 ++ [requests_get (api_url inp) hs 30;
                        st_success (ulit "✅ APIからデータを正常に取得しました (ステータス: "
                                    ++ str_int (status_code response) ++ lit ")")])
            | inl e =>
                (inr JNull, t1 ++ [requests_get (api_url inp) hs 30; failure_line e])
            end
      end
    /\ (forall e : exn, is_RequestException e = true -> classify e = NetworkError)
    /\ (forall e : exn,
          is_RequestException e = false -> is_JSONDecodeError e = true ->
          classify e = ParseError).
Proof.
  intros inp hs t t1 Hb Hu Hh. split; [|split].
  - unfold handle_api_request. unfold bind at 1. unfold show at 1. cbn beta iota.
    unfold bind at 1. rewrite Hh, Hb, Hu.
    unfold bind at 1. unfold try_except.
    unfold bind at 1. unfold show at 1. cbn beta iota.
    unfold bind at 1.
    assert (Hline : forall e (t0 : trace),
      match
        (if is_RequestException e
         then Some (show (st_error (ulit "❌ APIリクエストに失敗しました: " ++ exn_msg e)) ;;
                    ret None)
         else if is_JSONDecodeError e
              then Some (show (st_error (ulit "❌ レスポンスがJSON形式ではありません")) ;;
                         ret None)
              else Some (show (st_error (ulit "❌ 予期しないエラーが発生しました: "
                                         ++ exn_msg e)) ;;
                         ret (@None value)))
      with
      | Some k => k t0
      | None => (inl e, t0)
      end = (inr None, t0 ++ [failure_line e])).
    { intros e t0. unfold failure_line, classify.
      destruct (is_RequestException e); [reflexivity|].
      destruct (is_JSONDecodeError e); reflexivity. }
    destruct (http inp (api_url inp) hs 30%Z) as [e|response].
    + rewrite lift_inl, Hline. unfold ret. now rewrite <- app_assoc.
    + rewrite lift_inr. unfold bind at 1.
      destruct (is_http_error (status_code response)) eqn:Es.
      * unfold raise_for_status. unfold is_http_error in Es.
        apply andb_prop in Es as [E4 E6].
        destruct (status_code response <? 500)%Z eqn:E5; rewrite E4; cbn [andb].
        -- unfold raise at 1. rewrite Hline. unfold ret.
           unfold failure_line, classify. cbn. now rewrite <- app_assoc.
        -- apply Z.ltb_ge in E5. apply Z.leb_le in E5. rewrite E5, E6. cbn [andb].
           unfold raise at 1. rewrite Hline. unfold ret.
           unfold failure_line, classify. cbn. now rewrite <- app_assoc.
      * rewrite raise_for_status_ok by exact Es.
        unfold bind at 1.
        destruct (response_json response) as [e|v].
        -- rewrite lift_inl, Hline. unfold ret. now rewrite <- app_assoc.
        -- rewrite lift_inr. unfold bind, show, ret. now rewrite <- !app_assoc.
  - intros e He. unfold classify. now rewrite He.
  - intros e He Hj. unfold classify. now rewrite He, Hj.
Qed.

End ApiClaims.

(** ** Round trip: strings *)

Lemma hex_fixed_control (c : N) :
  (c < 32)%N ->
  exists a b, hex_fixed 4 c = [48; 48; a; b]%N /\ hex4 48%N 48%N a b = Some c.
Proof.
  intros Hc.
  assert (H : In c (map N.of_nat (seq 0 32))).
  { replace c with (N.of_nat (N.to_nat c)) by apply N2Nat.id.
    apply in_map, in_seq. lia. }
  cbn [seq map] in H.
  repeat (destruct H as [<-|H]; [eexists _, _; split; vm_compute; reflexivity|]).
  destruct H.
Qed.

(** After an escape that is not a high surrogate the scan goes on. *)
Lemma surrogate_skip (n : N) (r2 : pystr) :
  is_high_surrogate n = false ->
  match r2 with
  | b :: u :: g1 :: g2 :: g3 :: g4 :: ((_ :: _) as r3) =>
      if is_high_surrogate n && (b =? 92)%N && (u =? 117)%N then
        match hex4 g1 g2 g3 g4 with
        | None => Invalid (lit "Invalid \uXXXX escape")
        | Some m =>
            if is_low_surrogate m
            then scan_map (cons (join_surrogates n m)) (scanstring r3)
            else scan_map (cons n) (scanstring r2)
        end
      else scan_map (cons n) (scanstring r2)
  | _ => scan_map (cons n) (scanstring r2)
  end = scan_map (cons n) (scanstring r2).
Proof.
  intros H. rewrite H.
  destruct r2 as [|b [|u [|g1 [|g2 [|g3 [|g4 [|x r3]]]]]]]; reflexivity.
Qed.

Lemma scanstring_unicode_escape (h1 h2 h3 h4 x : pychar) (r : pystr) :
  scanstring (92%N :: 117%N :: h1 :: h2 :: h3 :: h4 :: x :: r)
  = match hex4 h1 h2 h3 h4 with
    | None => Invalid (lit "Invalid \uXXXX escape")
    | Some n =>
        match x :: r with
        | b :: u :: g1 :: g2 :: g3 :: g4 :: ((_ :: _) as r3) =>
            if is_high_surrogate n && (b =? 92)%N && (u =? 117)%N then
              match hex4 g1 g2 g3 g4 with
              | None => Invalid (lit "Invalid \uXXXX escape")
              | Some m =>
                  if is_low_surrogate m
                  then scan_map (cons (join_surrogates n m)) (scanstring r3)
                  else scan_map (cons n) (scanstring (x :: r))
              end
            else scan_map (cons n) (scanstring (x :: r))
        | _ => scan_map (cons n) (scanstring (x :: r))
        end
    end.
Proof. reflexivity. Qed.

Lemma scanstring_esc_char (c : pychar) (rest : pystr) :
  rest <> [] ->
  scanstring (esc_char c ++ rest) = scan_map (cons c) (scanstring rest).
Proof.
  intros Hrest. unfold esc_char.
  destruct (c =? 34)%N eqn:E34; [apply N.eqb_eq in E34; subst; reflexivity|].
  destruct (c =? 92)%N eqn:E92; [apply N.eqb_eq in E92; subst; reflexivity|].
  destruct (c =? 10)%N eqn:E10; [apply N.eqb_eq in E10; subst; reflexivity|].
  destruct (c =? 13)%N eqn:E13; [apply N.eqb_eq in E13; subst; reflexivity|].
  destruct (c =? 9)%N eqn:E9; [apply N.eqb_eq in E9; subst; reflexivity|].
  destruct (c =? 8)%N eqn:E8; [apply N.eqb_eq in E8; subst; reflexivity|].
  destruct (c =? 12)%N eqn:E12; [apply N.eqb_eq in E12; subst; reflexivity|].
  destruct (c <? 32)%N eqn:E32.
  - apply N.ltb_lt in E32.
    destruct (hex_fixed_control c E32) as (a & b & Hh & Hv).
    rewrite Hh. destruct rest as [|x rest']; [contradiction|].
    change ((lit "\u" ++ [48; 48; a; b]%N) ++ x :: rest')
      with (92%N :: 117%N :: 48%N :: 48%N :: a :: b :: x :: rest').
    rewrite scanstring_unicode_escape, Hv.
    apply (surrogate_skip c (x :: rest')). unfold is_high_surrogate.
    apply andb_false_intro1. apply N.leb_gt. lia.
  - cbn [app]. cbn [scanstring]. rewrite E34, E92.
    apply N.ltb_ge in E32.
    replace (c <=? 31)%N with false by (symmetry; apply N.leb_gt; lia).
    reflexivity.
Qed.

Lemma scanstring_escaped (s rest : pystr) :
  scanstring (flat_map esc_char s ++ 34%N :: rest) = Scanned s rest.
Proof.
  induction s as [|c s IH]; [reflexivity|].
  cbn [flat_map]. rewrite <- app_assoc.
  rewrite scanstring_esc_char.
  - now rewrite IH.
  - destruct (flat_map esc_char s); discriminate.
Qed.

(** ** Round trip: numbers *)

Lemma after_value_span_digits (rest : pystr) :
  after_value rest = true -> span_digits rest = ([], rest).
Proof.
  destruct rest as [|c t]; [reflexivity|]. cbn [after_value span_digits]. intros H.
  replace (is_digit c) with false; [reflexivity|].
  unfold is_digit. apply orb_prop in H as [H|H]; apply N.eqb_eq in H; subst; reflexivity.
Qed.

Lemma after_value_match_frac (rest : pystr) :
  after_value rest = true -> match_frac rest = ([], rest).
Proof.
  destruct rest as [|c [|d t]]; try reflexivity. cbn [after_value match_frac]. intros H.
  replace (c =? 46)%N with false; [reflexivity|].
  apply orb_prop in H as [H|H]; apply N.eqb_eq in H; subst; reflexivity.
Qed.

Lemma after_value_match_exp (rest : pystr) :
  after_value rest = true -> match_exp rest = ([], rest).
Proof.
  destruct rest as [|c t]; [reflexivity|]. cbn [after_value match_exp]. intros H.
  replace ((c =? 101) || (c =? 69))%N with false; [reflexivity|].
  apply orb_prop in H as [H|H]; apply N.eqb_eq in H; subst; reflexivity.
Qed.

Lemma after_value_not_sign (c : pychar) (t : pystr) :
  after_value (c :: t) = true -> ((c =? 43) || (c =? 45))%N = false.
Proof.
  cbn [after_value]. intros H.
  apply orb_prop in H as [H|H]; apply N.eqb_eq in H; subst; reflexivity.
Qed.

(** A scan that stopped before the end of [s] stops at the same place when
    text is added after [s]; a scan that reached the end of [s] stops there
    when the text added cannot continue a number. *)
Lemma span_digits_app (s ds r rest : pystr) :
  span_digits s = (ds, r) -> after_value rest = true ->
  span_digits (s ++ rest) = (ds, r ++ rest).
Proof.
  revert ds r. induction s as [|c t IH]; intros ds r H Hrest.
  - injection H as <- <-. now apply after_value_span_digits.
  - cbn [span_digits app] in *. destruct (is_digit c).
    + destruct (span_digits t) as [ds' r'] eqn:E. injection H as <- <-.
      now rewrite (IH _ _ eq_refl Hrest).
    + now injection H as <- <-.
Qed.

Lemma match_int_part_app (s ip r rest : pystr) :
  match_int_part s = Some (ip, r) -> after_value rest = true ->
  match_int_part (s ++ rest) = Some (ip, r ++ rest).
Proof.
  destruct s as [|c t]; [discriminate|]. cbn [match_int_part app].
  destruct (c =? 48)%N; [now intros [= <- <-]|].
  destruct (is_digit c); [|discriminate].
  destruct (span_digits t) as [ds r'] eqn:E. intros [= <- <-] Hrest.
  now rewrite (span_digits_app _ _ _ _ E Hrest).
Qed.

Lemma match_frac_app (s f r rest : pystr) :
  match_frac s = (f, r) -> after_value rest = true ->
  match_frac (s ++ rest) = (f, r ++ rest).
Proof.
  intros H Hrest. destruct s as [|c [|d t]].
  - injection H as <- <-. now apply after_value_match_frac.
  - injection H as <- <-. cbn [app match_frac].
    destruct rest as [|x rest']; [reflexivity|].
    replace (is_digit x) with false; [now rewrite andb_false_r|].
    pose proof (after_value_span_digits _ Hrest) as Hs. cbn [span_digits] in Hs.
    destruct (is_digit x); [|reflexivity].
    destruct (span_digits rest'); discriminate.
  - cbn [app match_frac] in *. destruct ((c =? 46)%N && is_digit d).
    + destruct (span_digits (d :: t)) as [ds r'] eqn:E. injection H as <- <-.
      change (d :: t ++ rest) with ((d :: t) ++ rest).
      now rewrite (span_digits_app _ _ _ _ E Hrest).
    + now injection H as <- <-.
Qed.

Lemma match_exp_app (s e r rest : pystr) :
  match_exp s = (e, r) -> after_value rest = true ->
  match_exp (s ++ rest) = (e, r ++ rest).
Proof.
  intros H Hrest. destruct s as [|c t].
  - injection H as <- <-. now apply after_value_match_exp.
  - cbn [app match_exp] in *. destruct ((c =? 101) || (c =? 69))%N.
    2: now injection H as <- <-.
    destruct t as [|x t'].
    + cbn [span_digits] in H. injection H as <- <-. cbn [app].
      destruct rest as [|y rest']; [reflexivity|].
      rewrite (after_value_not_sign _ _ Hrest), (after_value_span_digits _ Hrest).
      reflexivity.
    + cbn [app]. destruct ((x =? 43) || (x =? 45))%N.
      * destruct (span_digits t') as [ds r'] eqn:E.
        rewrite (span_digits_app _ _ _ _ E Hrest).
        destruct ds; now injection H as <- <-.
      * destruct (span_digits (x :: t')) as [ds r'] eqn:E.
        change (x :: t' ++ rest) with ((x :: t') ++ rest).
        rewrite (span_digits_app _ _ _ _ E Hrest).
        destruct ds; now injection H as <- <-.
Qed.

Lemma number_span_app (s text r rest : pystr) (b : bool) :
  number_span s = Some (text, b, r) -> after_value rest = true ->
  number_span (s ++ rest) = Some (text, b, r ++ rest).
Proof.
  unfold number_span. intros H Hrest.
  destruct (split_sign s) as [sign s1] eqn:Es.
  destruct (match_int_part s1) as [[ip r1]|] eqn:Ei; [|discriminate].
  assert (Es' : split_sign (s ++ rest) = (sign, s1 ++ rest)).
  { unfold split_sign in *. destruct s as [|c r0].
    - injection Es as <- <-. discriminate.
    - cbn [app]. destruct (c =? 45)%N; now injection Es as <- <-. }
  rewrite Es', (match_int_part_app _ _ _ _ Ei Hrest).
  destruct (match_frac r1) as [frac r2] eqn:Ef.
  rewrite (match_frac_app _ _ _ _ Ef Hrest).
  destruct (match_exp r2) as [exp r3] eqn:Ee.
  rewrite (match_exp_app _ _ _ _ Ee Hrest).
  destruct frac, exp; now injection H as <- <- <-.
Qed.

(** The text matched and the rest make up the text scanned. *)
Lemma span_digits_text (s ds r : pystr) : span_digits s = (ds, r) -> s = ds ++ r.
Proof.
  revert ds r. induction s as [|c t IH]; intros ds r; cbn [span_digits].
  - now intros [= <- <-].
  - destruct (is_digit c); [|now intros [= <- <-]].
    destruct (span_digits t) as [ds' r'] eqn:E. intros [= <- <-].
    now rewrite (IH _ _ eq_refl).
Qed.

Lemma number_span_text (s text r : pystr) (b : bool) :
  number_span s = Some (text, b, r) -> s = text ++ r.
Proof.
  unfold number_span.
  destruct (split_sign s) as [sign s1] eqn:Es.
  assert (Hs : s = sign ++ s1).
  { unfold split_sign in Es. destruct s as [|c r0]; [now injection Es as <- <-|].
    destruct (c =? 45)%N; now injection Es as <- <-. }
  destruct (match_int_part s1) as [[ip r1]|] eqn:Ei; [|discriminate].
  assert (Hi : s1 = ip ++ r1).
  { unfold match_int_part in Ei. destruct s1 as [|c t]; [discriminate|].
    destruct (c =? 48)%N; [now injection Ei as <- <-|].
    destruct (is_digit c); [|discriminate].
    destruct (span_digits t) as [ds r'] eqn:E. injection Ei as <- <-.
    now rewrite (span_digits_text _ _ _ E). }
  destruct (match_frac r1) as [frac r2] eqn:Ef.
  assert (Hf : r1 = frac ++ r2).
  { unfold match_frac in Ef. destruct r1 as [|c [|d t]]; try (now injection Ef as <- <-).
    destruct ((c =? 46)%N && is_digit d); [|now injection Ef as <- <-].
    destruct (span_digits (d :: t)) as [ds r'] eqn:E. injection Ef as <- <-.
    now rewrite (span_digits_text _ _ _ E). }
  destruct (match_exp r2) as [exp r3] eqn:Ee.
  assert (He : r2 = exp ++ r3).
  { unfold match_exp in Ee. destruct r2 as [|c t]; [now injection Ee as <- <-|].
    destruct ((c =? 101) || (c =? 69))%N; [|now injection Ee as <- <-].
    destruct t as [|x t'].
    - cbn [span_digits] in Ee. now injection Ee as <- <-.
    - destruct ((x =? 43) || (x =? 45))%N.
      + destruct (span_digits t') as [ds r'] eqn:E.
        apply span_digits_text in E. destruct ds; injection Ee as <- <-; subst; reflexivity.
      + destruct (span_digits (x :: t')) as [ds r'] eqn:E.
        apply span_digits_text in E. destruct ds; injection Ee as <- <-.
        * reflexivity.
        * cbn [app]. now rewrite E. }
  intros H. subst s s1 r1 r2.
  destruct frac, exp; injection H as <- <- <-;
    cbn [app]; rewrite <- ?app_assoc; cbn [app]; rewrite <- ?app_assoc; reflexivity.
Qed.

Lemma chars_uint_uint_chars (d : Decimal.uint) : chars_uint (uint_chars d) = d.
Proof. induction d; cbn [uint_chars chars_uint]; rewrite ?IHd; reflexivity. Qed.

Lemma span_digits_uint_chars (d : Decimal.uint) :
  span_digits (uint_chars d) = (uint_chars d, []).
Proof. induction d; cbn [uint_chars span_digits]; rewrite ?IHd; reflexivity. Qed.

(** [str(n)] has no leading zero: it is [0], or it starts with a digit
    from 1 to 9. *)
Lemma to_uint_head (n : N) :
  N.to_uint n = Decimal.D0 Decimal.Nil
  \/ exists c t, uint_chars (N.to_uint n) = c :: t
                 /\ is_digit c = true /\ (c =? 48)%N = false.
Proof.
  pose proof (DecimalN.Unsigned.to_of (N.to_uint n)) as Hn.
  rewrite DecimalN.Unsigned.of_to in Hn.
  destruct (N.to_uint n) as [|d|d|d|d|d|d|d|d|d|d] eqn:E;
    try (right; eexists _, _; split; [reflexivity|split; reflexivity]).
  - symmetry in Hn. now apply DecimalFacts.unorm_nonnil in Hn.
  - left. rewrite DecimalFacts.unorm_D0 in Hn. unfold Decimal.unorm in Hn.
    destruct (Decimal.nzhead d) eqn:Ez; try (now apply DecimalFacts.nzhead_nonzero in Ez).
    all: try (injection Hn as <-; reflexivity).
    all: discriminate Hn.
Qed.

Lemma match_int_part_str_N (n : N) :
  match_int_part (str_N n) = Some (str_N n, [])
  /\ exists c t, str_N n = c :: t /\ is_digit c = true.
Proof.
  unfold str_N. destruct (to_uint_head n) as [H|(c & t & H & Hd & Hz)].
  - rewrite H. split; [reflexivity|]. eexists _, _. split; reflexivity.
  - split; [|eauto].
    pose proof (span_digits_uint_chars (N.to_uint n)) as Hs. rewrite H in *.
    cbn [match_int_part span_digits] in *. rewrite Hz, Hd in *.
    destruct (span_digits t) as [ds r]. now injection Hs as -> ->.
Qed.

Lemma number_span_str_int (z : Z) :
  number_span (str_int z) = Some (str_int z, false, []).
Proof.
  assert (Hpos : forall n, number_span (str_N n) = Some (str_N n, false, [])).
  { intros n. destruct (match_int_part_str_N n) as (Hi & c & t & Hc & Hd).
    unfold number_span, split_sign. rewrite Hc in *.
    replace (c =? 45)%N with false.
    - rewrite Hi. reflexivity.
    - symmetry. apply N.eqb_neq. unfold is_digit in Hd.
      apply andb_prop in Hd as [H1 H2]. apply N.leb_le in H1, H2. lia. }
  destruct z as [|p|p]; try apply Hpos.
  cbn [str_int]. destruct (match_int_part_str_N (Npos p)) as (Hi & _).
  unfold number_span.
  change (split_sign (45%N :: str_N (N.pos p))) with ([45%N], str_N (N.pos p)).
  cbn beta iota. rewrite Hi. reflexivity.
Qed.

Lemma int_of_text_str_int (z : Z) : int_of_text (str_int z) = z.
Proof.
  assert (Hpos : forall n, int_of_text (str_N n) = Z.of_N n).
  { intros n. destruct (match_int_part_str_N n) as (_ & c & t & Hc & Hd).
    unfold int_of_text. rewrite Hc.
    replace (c =? 45)%N with false.
    - rewrite <- Hc. unfold str_N.
      now rewrite chars_uint_uint_chars, DecimalN.Unsigned.of_to.
    - symmetry. apply N.eqb_neq. unfold is_digit in Hd.
      apply andb_prop in Hd as [H1 H2]. apply N.leb_le in H1, H2. lia. }
  destruct z as [|p|p].
  - reflexivity.
  - apply (Hpos (Npos p)).
  - cbn [str_int int_of_text]. change (45 =? 45)%N with true. unfold str_N.
    now rewrite chars_uint_uint_chars, DecimalN.Unsigned.of_to.
Qed.

(** A text the number pattern matches starts with a digit, or with a minus
    sign and a digit. *)
Lemma number_span_head (s : pystr) (x : pystr * bool * pystr) :
  number_span s = Some x ->
  exists c t, s = c :: t
    /\ (is_digit c = true
        \/ (c = 45%N /\ exists d t', t = d :: t' /\ is_digit d = true)).
Proof.
  assert (Hi : forall s1 y, match_int_part s1 = Some y ->
                            exists d t', s1 = d :: t' /\ is_digit d = true).
  { intros s1 y H. destruct s1 as [|d t']; [discriminate|].
    exists d, t'. split; [reflexivity|]. cbn [match_int_part] in H.
    destruct (d =? 48)%N eqn:E; [apply N.eqb_eq in E; now subst|].
    now destruct (is_digit d). }
  unfold number_span, split_sign. destruct s as [|c t]; [discriminate|].
  destruct (c =? 45)%N eqn:E.
  - apply N.eqb_eq in E. subst c.
    destruct (match_int_part t) as [y|] eqn:Em; [|discriminate]. intros _.
    exists 45%N, t. split; [reflexivity|]. right. split; [reflexivity|]. eauto.
  - destruct (match_int_part (c :: t)) as [y|] eqn:Em; [|discriminate]. intros _.
    destruct (Hi _ _ Em) as (d & t' & [= <- <-] & Hd). eauto.
Qed.

Lemma is_digit_range (c : pychar) : is_digit c = true -> (48 <= c <= 57)%N.
Proof.
  unfold is_digit. intros H. apply andb_prop in H as [H1 H2].
  apply N.leb_le in H1, H2. lia.
Qed.

Lemma number_span_no_constant (s : pystr) (x : pystr * bool * pystr) :
  number_span s = Some x ->
  strip_prefix (lit "null") s = None /\ strip_prefix (lit "true") s = None
  /\ strip_prefix (lit "false") s = None /\ strip_prefix (lit "NaN") s = None
  /\ strip_prefix (lit "Infinity") s = None /\ strip_prefix (lit "-Infinity") s = None.
Proof.
  intros H.
  change (lit "null") with [110; 117; 108; 108]%N.
  change (lit "true") with [116; 114; 117; 101]%N.
  change (lit "false") with [102; 97; 108; 115; 101]%N.
  change (lit "NaN") with [78; 97; 78]%N.
  change (lit "Infinity") with [73; 110; 102; 105; 110; 105; 116; 121]%N.
  change (lit "-Infinity") with [45; 73; 110; 102; 105; 110; 105; 116; 121]%N.
  assert (Hn : forall a p c t, (c <> a)%N -> strip_prefix (a :: p) (c :: t) = None).
  { intros a p c t Ha. cbn [strip_prefix]. apply N.eqb_neq in Ha. now rewrite Ha. }
  destruct (number_span_head _ _ H) as (c & t & -> & [Hd|(-> & d & t' & -> & Hd)]);
    apply is_digit_range in Hd.
  - repeat split; apply Hn; lia.
  - repeat split; try (apply Hn; lia).
    cbn [strip_prefix]. replace (d =? 73)%N with false; [reflexivity|].
    symmetry. apply N.eqb_neq. lia.
Qed.

Section NumberRoundTrip.
Context {fp : FloatParser}.

(** A number literal is scanned whole when what follows cannot continue it. *)
Lemma scan_atom_number (r rest : pystr) (b : bool) :
  number_span r = Some (r, b, []) -> after_value rest = true ->
  scan_atom (r ++ rest)
  = Scanned (if b then JFloat (parse_float r) else JInt (int_of_text r)) rest.
Proof.
  intros H Hrest. pose proof (number_span_app _ _ _ _ _ H Hrest) as Happ.
  destruct (number_span_no_constant _ _ Happ) as (H1 & H2 & H3 & H4 & H5 & H6).
  unfold scan_atom, match_number. now rewrite H1, H2, H3, H4, H5, H6, Happ.
Qed.

End NumberRoundTrip.

(** ** Round trip: fuel *)

Section Fuel.
Context {fp : FloatParser}.

Lemma scan_once_S (f : nat) (s : pystr) :
  scan_once (S f) s
  = match s with
    | [] => scan_atom s
    | c :: r =>
        if (c =? 34)%N then scan_map JString (scanstring r)
        else if (c =? 123)%N then
          match starts_with 125%N (skip_ws r) with
          | Some r' => Scanned (JObject []) r'
          | None => parse_members f (skip_ws r) []
          end
        else if (c =? 91)%N then
          match starts_with 93%N (skip_ws r) with
          | Some r' => Scanned (JArray []) r'
          | None => parse_elements f (skip_ws r) []
          end
        else scan_atom s
    end.
Proof. reflexivity. Qed.

Lemma parse_members_S (f : nat) (s : pystr) (acc : list (pystr * value)) :
  parse_members (S f) s acc
  = match starts_with 34%N s with
    | None => Invalid (lit "Expecting property name enclosed in double quotes")
    | Some r =>
        match scanstring r with
        | Scanned key r1 =>
            match starts_with 58%N (skip_ws r1) with
            | None => Invalid (lit "Expecting ':' delimiter")
            | Some r2 =>
                match scan_once f (skip_ws r2) with
                | Scanned v r3 =>
                    match starts_with 125%N (skip_ws r3) with
                    | Some r4 => Scanned (JObject (dict_setitem acc key v)) r4
                    | None =>
                        match starts_with 44%N (skip_ws r3) with
                        | Some r4 =>
                            parse_members f (skip_ws r4) (dict_setitem acc key v)
                        | None => Invalid (lit "Expecting ',' delimiter")
                        end
                    end
                | Invalid m => Invalid m
                | NoFuel => NoFuel
                end
            end
        | Invalid m => Invalid m
        | NoFuel => NoFuel
        end
    end.
Proof. reflexivity. Qed.

Lemma parse_elements_S (f : nat) (s : pystr) (acc : list value) :
  parse_elements (S f) s acc
  = match scan_once f s with
    | Scanned v r1 =>
        match starts_with 93%N (skip_ws r1) with
        | Some r2 => Scanned (JArray (acc ++ [v])) r2
        | None =>
            match starts_with 44%N (skip_ws r1) with
            | Some r2 => parse_elements f (skip_ws r2) (acc ++ [v])
            | None => Invalid (lit "Expecting ',' delimiter")
            end
        end
    | Invalid m => Invalid m
    | NoFuel => NoFuel
    end.
Proof. reflexivity. Qed.

(** A scan that did not run out of fuel gives the same result with more. *)
Lemma scan_fuel_step (f : nat) :
  (forall s res, scan_once f s = res -> res <> NoFuel -> scan_once (S f) s = res)
  /\ (forall s acc res, parse_members f s acc = res -> res <> NoFuel ->
                        parse_members (S f) s acc = res)
  /\ (forall s acc res, parse_elements f s acc = res -> res <> NoFuel ->
                        parse_elements (S f) s acc = res).
Proof.
  induction f as [|f (IHo & IHm & IHe)].
  - repeat split; intros; subst; now cbn in *.
  - split; [|split].
    + intros s res H Hne. rewrite scan_once_S in H |- *.
      destruct s as [|c r]; [exact H|].
      destruct (c =? 34)%N; [exact H|].
      destruct (c =? 123)%N.
      { destruct (starts_with 125%N (skip_ws r)); [exact H | now apply IHm]. }
      destruct (c =? 91)%N; [|exact H].
      destruct (starts_with 93%N (skip_ws r)); [exact H | now apply IHe].
    + intros s acc res H Hne.
      rewrite parse_members_S in H. rewrite (parse_members_S (S f)).
      destruct (starts_with 34%N s) as [r0|]; [|exact H].
      destruct (scanstring r0) as [key r1| |]; try exact H.
      destruct (starts_with 58%N (skip_ws r1)) as [r2|]; [|exact H].
      destruct (scan_once f (skip_ws r2)) as [x r3| |] eqn:E3.
      * rewrite (IHo _ _ E3) by discriminate.
        destruct (starts_with 125%N (skip_ws r3)); [exact H|].
        destruct (starts_with 44%N (skip_ws r3)); [now apply IHm | exact H].
      * rewrite (IHo _ _ E3) by discriminate. exact H.
      * now subst res.
    + intros s acc res H Hne.
      rewrite parse_elements_S in H. rewrite (parse_elements_S (S f)).
      destruct (scan_once f s) as [x r1| |] eqn:E1.
      * rewrite (IHo _ _ E1) by discriminate.
        destruct (starts_with 93%N (skip_ws r1)); [exact H|].
        destruct (starts_with 44%N (skip_ws r1)); [now apply IHe | exact H].
      * rewrite (IHo _ _ E1) by discriminate. exact H.
      * now subst res.
Qed.

Lemma scan_once_mono (f f' : nat) (s : pystr) (res : scan value) :
  scan_once f s = res -> res <> NoFuel -> f <= f' -> scan_once f' s = res.
Proof.
  intros H Hne Hle. induction Hle as [|f' _ IH]; [exact H|].
  now apply (proj1 (scan_fuel_step f')).
Qed.

Lemma parse_members_mono (f f' : nat) (s : pystr) acc (res : scan value) :
  parse_members f s acc = res -> res <> NoFuel -> f <= f' ->
  parse_members f' s acc = res.
Proof.
  intros H Hne Hle. induction Hle as [|f' _ IH]; [exact H|].
  now apply (proj1 (proj2 (scan_fuel_step f'))).
Qed.

Lemma parse_elements_mono (f f' : nat) (s : pystr) acc (res : scan value) :
  parse_elements f s acc = res -> res <> NoFuel -> f <= f' ->
  parse_elements f' s acc = res.
Proof.
  intros H Hne Hle. induction Hle as [|f' _ IH]; [exact H|].
  now apply (proj2 (proj2 (scan_fuel_step f'))).
Qed.

End Fuel.

(** ** Round trip: values *)

Lemma pystr_eqb_eq (a b : pystr) : pystr_eqb a b = true -> a = b.
Proof. unfold pystr_eqb. now destruct (list_eq_dec N.eq_dec a b). Qed.

Lemma skip_ws_newline_indent (level : nat) (s : pystr) :
  skip_ws (newline_indent level ++ s) = skip_ws s.
Proof.
  unfold newline_indent. cbn [app skip_ws]. change (is_ws 10%N) with true. cbn iota.
  induction (2 * level) as [|n IH]; [reflexivity|].
  cbn [repeat app skip_ws]. change (is_ws 32%N) with true. exact IH.
Qed.

Lemma skip_ws_head (c : pychar) (t : pystr) :
  is_ws c = false -> skip_ws (c :: t) = c :: t.
Proof. intros H. cbn [skip_ws]. now rewrite H. Qed.

Lemma starts_value_facts (c : pychar) :
  starts_value c = true ->
  is_ws c = false /\ (c =? 93)%N = false /\ (c =? 125)%N = false
  /\ (c =? 65279)%N = false.
Proof.
  unfold starts_value. intros H.
  repeat (apply andb_prop in H as [H ?]).
  repeat match goal with H : negb _ = true |- _ => apply negb_true_iff in H end.
  auto.
Qed.

Lemma starts_value_digit (c : pychar) : is_digit c = true -> starts_value c = true.
Proof.
  intros H. apply is_digit_range in H. unfold starts_value, is_ws.
  repeat match goal with
         | |- context [(c =? ?k)%N] =>
             replace (c =? k)%N with false by (symmetry; apply N.eqb_neq; lia)
         end.
  reflexivity.
Qed.

Lemma join_cons2 (sep p q : pystr) (l : list pystr) :
  join sep (p :: q :: l) = p ++ sep ++ join sep (q :: l).
Proof. reflexivity. Qed.

Lemma dict_setitem_fresh (acc : list (pystr * value)) (k : pystr) (x : value) :
  ~ In k (map fst acc) -> dict_setitem acc k x = acc ++ [(k, x)].
Proof.
  induction acc as [|[k' x'] acc IH]; intros Hk; [reflexivity|].
  cbn [dict_setitem app]. cbn [map fst In] in Hk.
  unfold pystr_eqb. destruct (list_eq_dec N.eq_dec k' k) as [->|_].
  - exfalso. apply Hk. now left.
  - rewrite IH; [reflexivity|]. intros Hin. apply Hk. now right.
Qed.

Section RoundTrip.
Context {fp : FloatParser}.

(** The text of a value starts with a character of a value. *)
Lemma dumps_head (v : value) (level : nat) :
  well_formed v ->
  exists c t, dumps_at level v = c :: t /\ starts_value c = true.
Proof.
  intros Hwf. destruct v as [|[|]|z|r|s|l|l];
    try (eexists _, _; split; reflexivity).
  - cbn [dumps_at].
    destruct (number_span_head _ _ (number_span_str_int z))
      as (c & t & Hc & [Hd|(-> & _)]); rewrite Hc; eexists _, _; split; try reflexivity.
    now apply starts_value_digit.
  - inversion Hwf as [| | |r' Hr| | |]; subst. cbn [dumps_at]. unfold floatstr.
    unfold float_ok, nonfinite in Hr.
    destruct (pystr_eqb r (lit "nan")); [eexists _, _; split; reflexivity|].
    destruct (pystr_eqb r (lit "inf")); [eexists _, _; split; reflexivity|].
    destruct (pystr_eqb r (lit "-inf")); [eexists _, _; split; reflexivity|].
    cbn [orb] in Hr. apply andb_prop in Hr as [Hl _]. unfold float_literal in Hl.
    destruct (number_span r) as [[[text b] rest]|] eqn:E; [|discriminate].
    destruct (number_span_head _ _ E) as (c & t & -> & [Hd|(-> & _)]);
      eexists _, _; split; try reflexivity.
    now apply starts_value_digit.
  - destruct l; eexists _, _; split; reflexivity.
  - destruct l; eexists _, _; split; reflexivity.
Qed.

Lemma skip_ws_dumps (v : value) (level : nat) (rest : pystr) :
  well_formed v -> skip_ws (dumps_at level v ++ rest) = dumps_at level v ++ rest.
Proof.
  intros Hwf. destruct (dumps_head v level Hwf) as (c & t & -> & Hc).
  apply skip_ws_head. now apply starts_value_facts in Hc.
Qed.

(** The scalars. *)
Lemma scan_once_number (r rest : pystr) (b : bool) :
  number_span r = Some (r, b, []) -> after_value rest = true ->
  scan_once 1 (r ++ rest)
  = Scanned (if b then JFloat (parse_float r) else JInt (int_of_text r)) rest.
Proof.
  intros H Hrest. rewrite scan_once_S, <- (scan_atom_number r rest b H Hrest).
  destruct (number_span_head _ _ H) as (c & t & -> & Hc). cbn [app].
  assert (Hr : (c =? 34)%N = false /\ (c =? 123)%N = false /\ (c =? 91)%N = false).
  { destruct Hc as [Hd|(-> & _)]; [|repeat split; reflexivity].
    apply is_digit_range in Hd. repeat split; apply N.eqb_neq; lia. }
  destruct Hr as (-> & -> & ->). reflexivity.
Qed.

Lemma scan_once_float (r rest : pystr) :
  float_ok r = true -> after_value rest = true ->
  scan_once 1 (floatstr r ++ rest) = Scanned (JFloat r) rest.
Proof.
  intros Hr Hrest. unfold floatstr. unfold float_ok, nonfinite in Hr.
  destruct (pystr_eqb r (lit "nan")) eqn:E1;
    [apply pystr_eqb_eq in E1; subst; reflexivity|].
  destruct (pystr_eqb r (lit "inf")) eqn:E2;
    [apply pystr_eqb_eq in E2; subst; reflexivity|].
  destruct (pystr_eqb r (lit "-inf")) eqn:E3;
    [apply pystr_eqb_eq in E3; subst; reflexivity|].
  cbn [orb] in Hr. apply andb_prop in Hr as [Hl Hp]. apply pystr_eqb_eq in Hp.
  unfold float_literal in Hl.
  destruct (number_span r) as [[[text b] rest']|] eqn:E; [|discriminate].
  destruct b; [|discriminate]. destruct rest'; [|discriminate].
  pose proof (number_span_text _ _ _ _ E) as Ht. rewrite app_nil_r in Ht. subst text.
  rewrite (scan_once_number r rest true E Hrest). now rewrite Hp.
Qed.

Lemma scan_once_string (s rest : pystr) :
  scan_once 1 (encode_basestring s ++ rest) = Scanned (JString s) rest.
Proof.
  unfold encode_basestring. rewrite <- !app_assoc. cbn [app].
  rewrite scan_once_S. change (34 =? 34)%N with true. cbn iota.
  now rewrite scanstring_escaped.
Qed.

Lemma parse_elements_join (level : nat) (rest : pystr) (l : list value) :
  l <> [] -> Forall reads_back l -> Forall well_formed l ->
  forall acc,
  exists f,
    parse_elements f
      (join (44%N :: newline_indent (S level)) (map (dumps_at (S level)) l)
       ++ newline_indent level ++ 93%N :: rest) acc
    = Scanned (JArray (acc ++ l)) rest.
Proof.
  induction l as [|x l IH]; [contradiction|]. intros _ Hrb Hwf acc.
  inversion Hrb as [|? ? Hx Hl]; subst. inversion Hwf as [|? ? Wx Wl]; subst.
  destruct l as [|y l'].
  - cbn [map join].
    destruct (Hx Wx (S level) (newline_indent level ++ 93%N :: rest) eq_refl) as [f Hf].
    exists (S f). rewrite parse_elements_S, Hf, skip_ws_newline_indent.
    rewrite skip_ws_head by reflexivity. reflexivity.
  - cbn [map]. rewrite join_cons2. rewrite <- !app_assoc.
    set (tail := join _ (_ :: _) ++ _) in *.
    destruct (Hx Wx (S level) ((44%N :: newline_indent (S level)) ++ tail) eq_refl)
      as [f1 Hf1].
    destruct (IH ltac:(discriminate) Hl Wl (acc ++ [x])) as [f2 Hf2].
    cbn [map] in Hf2. fold tail in Hf2.
    exists (S (Nat.max f1 f2)). rewrite parse_elements_S.
    unfold pystr, pychar in *.
    rewrite (scan_once_mono f1 (Nat.max f1 f2) _ _ Hf1) by (discriminate || lia).
    cbn [app]. rewrite skip_ws_head by reflexivity.
    cbn [starts_with]. change (44 =? 93)%N with false. change (44 =? 44)%N with true.
    cbn iota. rewrite skip_ws_newline_indent.
    assert (Hs : skip_ws tail = tail).
    { unfold tail. inversion Wl as [|? ? Wy _]; subst.
      destruct l' as [|z l'']; cbn [map].
      - cbn [join]. now apply skip_ws_dumps.
      - rewrite join_cons2, <- app_assoc. now apply skip_ws_dumps. }
    rewrite Hs.
    rewrite (parse_elements_mono f2 (Nat.max f1 f2) _ _ _ Hf2) by (discriminate || lia).
    now rewrite <- app_assoc.
Qed.

Lemma member_text (k d : pystr) :
  encode_basestring k ++ lit ": " ++ d
  = 34%N :: flat_map esc_char k ++ 34%N :: 58%N :: 32%N :: d.
Proof. unfold encode_basestring. rewrite <- !app_assoc. reflexivity. Qed.

Lemma parse_members_join (level : nat) (rest : pystr) (l : list (pystr * value)) :
  l <> [] ->
  Forall (fun kv => reads_back (snd kv)) l ->
  Forall (fun kv => well_formed (snd kv)) l ->
  forall acc,
  NoDup (map fst (acc ++ l)) ->
  exists f,
    parse_members f
      (join (44%N :: newline_indent (S level))
         (map (fun kv : pystr * value =>
                 let (k, x) := kv in
                 encode_basestring k ++ lit ": " ++ dumps_at (S level) x) l)
       ++ newline_indent level ++ 125%N :: rest) acc
    = Scanned (JObject (acc ++ l)) rest.
Proof.
  induction l as [|[k x] l IH]; [contradiction|]. intros _ Hrb Hwf acc Hnd.
  inversion Hrb as [|? ? Hx Hl]; subst. inversion Hwf as [|? ? Wx Wl]; subst.
  cbn [snd] in Hx, Wx.
  assert (Hk : dict_setitem acc k x = acc ++ [(k, x)]).
  { apply dict_setitem_fresh. rewrite map_app in Hnd. cbn [map fst] in Hnd.
    apply NoDup_remove_2 in Hnd. intros Hin. apply Hnd, in_or_app. now left. }
  destruct l as [|[k' y] l'].
  - cbn [map join]. rewrite member_text. cbn [app]. rewrite <- app_assoc. cbn [app].
    destruct (Hx Wx (S level) (newline_indent level ++ 125%N :: rest) eq_refl) as [f Hf].
    exists (S f). rewrite parse_members_S.
    cbn [starts_with]. change (34 =? 34)%N with true. cbn iota.
    rewrite scanstring_escaped. rewrite skip_ws_head by reflexivity.
    cbn [starts_with]. change (58 =? 58)%N with true. cbn iota.
    cbn [skip_ws]. change (is_ws 32%N) with true. cbn iota.
    rewrite skip_ws_dumps by exact Wx. unfold pystr, pychar in *. rewrite Hf.
    rewrite skip_ws_newline_indent, skip_ws_head by reflexivity.
    cbn [starts_with]. change (125 =? 125)%N with true. cbn iota.
    now rewrite Hk.
  - cbn [map]. rewrite join_cons2, member_text. cbn [app].
    rewrite <- !app_assoc. cbn [app]. rewrite <- !app_assoc.
    set (tail := join _ (_ :: _) ++ _) in *.
    destruct (Hx Wx (S level) (44%N :: newline_indent (S level) ++ tail) eq_refl)
      as [f1 Hf1].
    destruct (IH ltac:(discriminate) Hl Wl (acc ++ [(k, x)])) as [f2 Hf2].
    { now rewrite <- app_assoc. }
    cbn [map] in Hf2. fold tail in Hf2.
    exists (S (Nat.max f1 f2)). rewrite parse_members_S.
    cbn [starts_with]. change (34 =? 34)%N with true. cbn iota.
    rewrite scanstring_escaped. rewrite skip_ws_head by reflexivity.
    cbn [starts_with]. change (58 =? 58)%N with true. cbn iota.
    cbn [skip_ws]. change (is_ws 32%N) with true. cbn iota.
    rewrite skip_ws_dumps by exact Wx. unfold pystr, pychar in *.
    rewrite (scan_once_mono f1 (Nat.max f1 f2) _ _ Hf1) by (discriminate || lia).
    rewrite skip_ws_head by reflexivity.
    cbn [starts_with]. change (44 =? 125)%N with false. change (44 =? 44)%N with true.
    cbn iota. rewrite skip_ws_newline_indent.
    assert (Hs : skip_ws tail = tail).
    { unfold tail. destruct l' as [|z l'']; cbn [map].
      - cbn [join]. rewrite member_text. reflexivity.
      - rewrite join_cons2, member_text. reflexivity. }
    rewrite Hs, Hk. subst tail.
    rewrite (parse_members_mono f2 (Nat.max f1 f2) _ _ _ Hf2) by (discriminate || lia).
    now rewrite <- app_assoc.
Qed.

(** Every well-formed value is read back from its text. *)
Lemma value_reads_back (v : value) : reads_back v.
Proof.
  induction v as [|b|z|r|s|l IH|l IH] using value_nested_ind;
    intros Hwf level rest Hrest.
  - exists 1. reflexivity.
  - exists 1. destruct b; reflexivity.
  - exists 1. cbn [dumps_at].
    rewrite (scan_once_number _ rest false (number_span_str_int z) Hrest).
    now rewrite int_of_text_str_int.
  - exists 1. inversion Hwf; subst. now apply scan_once_float.
  - exists 1. apply scan_once_string.
  - inversion Hwf as [| | | | |l0 Wl|]; subst.
    destruct l as [|x l]; [exists 1; reflexivity|].
    destruct (parse_elements_join level rest (x :: l) ltac:(discriminate) IH Wl [])
      as [f Hf].
    exists (S f).
    change (dumps_at level (JArray (x :: l)))
      with (91%N :: newline_indent (S level)
            ++ join (44%N :: newline_indent (S level))
                 (map (dumps_at (S level)) (x :: l))
            ++ newline_indent level ++ [93%N]).
    cbn [app]. rewrite <- !app_assoc. cbn [app].
    rewrite scan_once_S. change (91 =? 34)%N with false.
    change (91 =? 123)%N with false. change (91 =? 91)%N with true. cbn iota.
    rewrite skip_ws_newline_indent.
    assert (Hh : exists c t,
               join (44%N :: newline_indent (S level))
                 (map (dumps_at (S level)) (x :: l))
               ++ newline_indent level ++ 93%N :: rest = c :: t
               /\ starts_value c = true).
    { inversion Wl as [|? ? Wx _]; subst.
      destruct (dumps_head x (S level) Wx) as (c & t & Hc & Hv).
      destruct l as [|y l']; cbn [map].
      - cbn [join]. rewrite Hc. eexists _, _. split; [reflexivity | exact Hv].
      - rewrite join_cons2, Hc. eexists _, _. split; [reflexivity | exact Hv]. }
    destruct Hh as (c & t & Hc & Hv).
    unfold pystr, pychar in *. rewrite Hc in *.
    apply starts_value_facts in Hv as (Hw & H93 & _).
    rewrite skip_ws_head by exact Hw. cbn [starts_with]. rewrite H93. exact Hf.
  - inversion Hwf as [| | | | | |l0 Hnd Wl]; subst.
    destruct l as [|[k x] l]; [exists 1; reflexivity|].
    destruct (parse_members_join level rest ((k, x) :: l) ltac:(discriminate) IH Wl []
                Hnd) as [f Hf].
    exists (S f).
    change (dumps_at level (JObject ((k, x) :: l)))
      with (123%N :: newline_indent (S level)
            ++ join (44%N :: newline_indent (S level))
                 (map (fun kv : pystr * value =>
                         let (k, x) := kv in
                         encode_basestring k ++ lit ": " ++ dumps_at (S level) x)
                    ((k, x) :: l))
            ++ newline_indent level ++ [125%N]).
    cbn [app]. rewrite <- !app_assoc. cbn [app].
    rewrite scan_once_S. change (123 =? 34)%N with false.
    change (123 =? 123)%N with true. cbn iota.
    rewrite skip_ws_newline_indent.
    assert (Hh : exists t,
               join (44%N :: newline_indent (S level))
                 (map (fun kv : pystr * value =>
                         let (k, x) := kv in
                         encode_basestring k ++ lit ": " ++ dumps_at (S level) x)
                    ((k, x) :: l))
               ++ newline_indent level ++ 125%N :: rest = 34%N :: t).
    { destruct l as [|[k' y] l']; cbn [map].
      - cbn [join]. rewrite member_text. eexists. reflexivity.
      - rewrite join_cons2, member_text. eexists. reflexivity. }
    destruct Hh as (t & Hc).
    unfold pystr, pychar in *. rewrite Hc in *.
    rewrite skip_ws_head by reflexivity. cbn [starts_with].
    change (34 =? 125)%N with false. exact Hf.
Qed.

(** [json.loads(json.dumps(v, ensure_ascii=False, indent=2)) == v] on a
    well-formed value. *)
Lemma loads_dumps (v : value) :
  well_formed v -> json_loads (json_dumps v) = inr v.
Proof.
  intros Hwf. unfold json_loads, json_dumps.
  destruct (dumps_head v 0 Hwf) as (c & t & Hc & Hv).
  pose proof (skip_ws_dumps v 0 [] Hwf) as Hs. rewrite app_nil_r in Hs.
  destruct (value_reads_back v Hwf 0 [] eq_refl) as [f Hf]. rewrite app_nil_r in Hf.
  rewrite Hs.
  assert (Hb : starts_with 65279%N (dumps_at 0 v) = None).
  { rewrite Hc. cbn [starts_with]. apply starts_value_facts in Hv as (_ & _ & _ & ->).
    reflexivity. }
  rewrite Hb.
  set (F := 2 * len (dumps_at 0 v) + 2).
  assert (HF : scan_once F (dumps_at 0 v) = Scanned v []).
  { destruct (Nat.le_gt_cases f F) as [Hle|Hgt].
    - apply (scan_once_mono f F _ _ Hf); [discriminate | exact Hle].
    - assert (Hne : scan_once F (dumps_at 0 v) <> NoFuel).
      { apply scan_once_fuel. unfold F. lia. }
      rewrite <- Hf. symmetry.
      apply (scan_once_mono F f _ _ eq_refl Hne). lia. }
  rewrite HF. reflexivity.
Qed.

End RoundTrip.

(** ** The text the number pattern matched is a number literal *)

Lemma span_digits_digits (s ds r : pystr) :
  span_digits s = (ds, r) -> forallb is_digit ds = true.
Proof.
  revert ds r. induction s as [|c t IH]; intros ds r; cbn [span_digits].
  - now intros [= <- <-].
  - destruct (is_digit c) eqn:E; [|now intros [= <- <-]].
    destruct (span_digits t) as [ds' r'] eqn:Et. intros [= <- <-].
    cbn [forallb]. rewrite E. exact (IH _ _ eq_refl).
Qed.

Lemma span_digits_exact (ds rest : pystr) :
  forallb is_digit ds = true -> no_digit_ahead rest = true ->
  span_digits (ds ++ rest) = (ds, rest).
Proof.
  intros Hd Hr. induction ds as [|c ds IH]; cbn [app].
  - destruct rest as [|x rest']; [reflexivity|]. cbn [span_digits].
    cbn [no_digit_ahead] in Hr. apply negb_true_iff in Hr. now rewrite Hr.
  - cbn [forallb] in Hd. apply andb_prop in Hd as [Hc Hd].
    cbn [span_digits]. rewrite Hc, (IH Hd). reflexivity.
Qed.

Lemma match_int_part_exact (s ip r rest : pystr) :
  match_int_part s = Some (ip, r) -> no_digit_ahead rest = true ->
  match_int_part (ip ++ rest) = Some (ip, rest).
Proof.
  destruct s as [|c t]; [discriminate|]. cbn [match_int_part].
  destruct (c =? 48)%N eqn:E0.
  - intros [= <- <-] _. cbn [app match_int_part]. now rewrite E0.
  - destruct (is_digit c) eqn:Ec; [|discriminate].
    destruct (span_digits t) as [ds r'] eqn:Et. intros [= <- <-] Hr.
    cbn [app match_int_part]. rewrite E0, Ec.
    now rewrite (span_digits_exact _ _ (span_digits_digits _ _ _ Et) Hr).
Qed.

Lemma exponent_ahead_no_digit (s : pystr) :
  exponent_ahead s = true -> no_digit_ahead s = true.
Proof.
  destruct s as [|c t]; [reflexivity|]. cbn [exponent_ahead no_digit_ahead].
  intros H. apply orb_prop in H as [H|H]; apply N.eqb_eq in H; subst; reflexivity.
Qed.

Lemma match_frac_exact (s f r rest : pystr) :
  match_frac s = (f, r) -> exponent_ahead rest = true ->
  match_frac (f ++ rest) = (f, rest)
  /\ (f = [] \/ exists t, f = 46%N :: t).
Proof.
  intros H Hr.
  assert (Hnil : match_frac rest = ([], rest)).
  { destruct rest as [|c [|d t]]; try reflexivity. cbn [match_frac].
    cbn [exponent_ahead] in Hr.
    replace (c =? 46)%N with false; [reflexivity|].
    apply orb_prop in Hr as [Hr|Hr]; apply N.eqb_eq in Hr; subst; reflexivity. }
  destruct s as [|c [|d t]]; try (injection H as <- <-; split; [exact Hnil | now left]).
  cbn [match_frac] in H.
  destruct ((c =? 46)%N && is_digit d) eqn:E;
    [|injection H as <- <-; split; [exact Hnil | now left]].
  destruct (span_digits (d :: t)) as [ds r'] eqn:Et. injection H as <- <-.
  apply andb_prop in E as [E1 E2]. apply N.eqb_eq in E1. subst c.
  split; [|right; eauto].
  pose proof (span_digits_digits _ _ _ Et) as Hd.
  cbn [span_digits] in Et. rewrite E2 in Et.
  destruct (span_digits t) as [ds' r''] eqn:Et'. injection Et as <- <-.
  cbn [app match_frac]. change (46 =? 46)%N with true. rewrite E2. cbn [andb].
  change (d :: ds' ++ rest) with ((d :: ds') ++ rest).
  now rewrite (span_digits_exact _ _ Hd (exponent_ahead_no_digit _ Hr)).
Qed.

Lemma match_exp_exact (s e r : pystr) :
  match_exp s = (e, r) ->
  match_exp e = (e, []) /\ exponent_ahead e = true.
Proof.
  intros H. destruct s as [|c t]; [injection H as <- <-; split; reflexivity|].
  cbn [match_exp] in H.
  destruct ((c =? 101) || (c =? 69))%N eqn:Ec;
    [|injection H as <- <-; split; reflexivity].
  destruct t as [|x t'].
  { cbn [span_digits] in H. injection H as <- <-. split; reflexivity. }
  destruct ((x =? 43) || (x =? 45))%N eqn:Ex.
  - destruct (span_digits t') as [ds r'] eqn:Et.
    pose proof (span_digits_digits _ _ _ Et) as Hd.
    destruct ds as [|d ds]; injection H as <- <-; [split; reflexivity|].
    split; [|cbn [exponent_ahead]; exact Ec].
    cbn [app match_exp]. rewrite Ec, Ex.
    pose proof (span_digits_exact _ [] Hd eq_refl) as Hs. rewrite app_nil_r in Hs.
    now rewrite Hs.
  - destruct (span_digits (x :: t')) as [ds r'] eqn:Et.
    pose proof (span_digits_digits _ _ _ Et) as Hd.
    destruct ds as [|d ds]; injection H as <- <-; [split; reflexivity|].
    split; [|cbn [exponent_ahead]; exact Ec].
    assert (d = x) as ->.
    { cbn [span_digits] in Et. destruct (is_digit x); [|discriminate].
      destruct (span_digits t'). now injection Et. }
    cbn [app match_exp]. rewrite Ec, Ex.
    pose proof (span_digits_exact _ [] Hd eq_refl) as Hs. rewrite app_nil_r in Hs.
    now rewrite Hs.
Qed.

(** The text matched is matched whole when it stands alone. *)
Lemma number_span_exact (s text r : pystr) (b : bool) :
  number_span s = Some (text, b, r) -> number_span text = Some (text, b, []).
Proof.
  unfold number_span.
  destruct (split_sign s) as [sign s1] eqn:Es.
  destruct (match_int_part s1) as [[ip r1]|] eqn:Ei; [|discriminate].
  destruct (match_frac r1) as [frac r2] eqn:Ef.
  destruct (match_exp r2) as [exp r3] eqn:Ee.
  destruct (match_exp_exact _ _ _ Ee) as [He Hea].
  destruct (match_frac_exact _ _ _ exp Ef Hea) as [Hf Hfs].
  assert (Hfe : no_digit_ahead (frac ++ exp) = true).
  { destruct Hfs as [->|(t & ->)]; [|reflexivity].
    now apply exponent_ahead_no_digit. }
  pose proof (match_int_part_exact _ _ _ _ Ei Hfe) as Hi.
  assert (Hsign : split_sign (sign ++ ip ++ frac ++ exp) = (sign, ip ++ frac ++ exp)).
  { unfold split_sign in Es |- *. destruct s as [|c t].
    - injection Es as <- <-. discriminate.
    - destruct (c =? 45)%N eqn:Ec.
      + injection Es as <- <-. cbn [app]. now rewrite Ec.
      + injection Es as <- <-. cbn [app].
        destruct ip as [|d ip'].
        * unfold match_int_part in Ei. destruct (c =? 48)%N; [discriminate|].
          destruct (is_digit c); [|discriminate].
          destruct (span_digits t); discriminate.
        * assert (d = c) as ->.
          { unfold match_int_part in Ei. destruct (c =? 48)%N; [now injection Ei|].
            destruct (is_digit c); [|discriminate].
            destruct (span_digits t). now injection Ei. }
          cbn [app]. now rewrite Ec. }
  intros H.
  assert (Ht : text = sign ++ ip ++ frac ++ exp /\ b = match frac, exp with
                                                       | [], [] => false
                                                       | _, _ => true
                                                       end).
  { destruct frac, exp; injection H as <- <- _; split;
      rewrite ?app_nil_r; reflexivity. }
  destruct Ht as [-> ->].
  rewrite Hsign, Hi, Hf, He.
  destruct frac, exp; rewrite ?app_nil_r; reflexivity.
Qed.

Lemma number_span_float_literal (s text r : pystr) :
  number_span s = Some (text, true, r) -> float_literal text = true.
Proof.
  intros H. unfold float_literal. now rewrite (number_span_exact _ _ _ _ H).
Qed.

(** ** Round trip: what the decoder builds is well formed *)

Lemma dict_setitem_keys (acc : list (pystr * value)) (k : pystr) (x : value) :
  map fst (dict_setitem acc k x)
  = if existsb (pystr_eqb k) (map fst acc) then map fst acc else map fst acc ++ [k].
Proof.
  induction acc as [|[k' x'] acc IH]; [reflexivity|].
  cbn [dict_setitem map fst existsb].
  unfold pystr_eqb at 1 2.
  destruct (list_eq_dec N.eq_dec k' k) as [->|Hne].
  - destruct (list_eq_dec N.eq_dec k k); [reflexivity | contradiction].
  - destruct (list_eq_dec N.eq_dec k k') as [->|_]; [contradiction|].
    cbn [map fst orb]. rewrite IH.
    now destruct (existsb (pystr_eqb k) (map fst acc)).
Qed.

Lemma dict_setitem_nodup (acc : list (pystr * value)) (k : pystr) (x : value) :
  NoDup (map fst acc) -> NoDup (map fst (dict_setitem acc k x)).
Proof.
  intros Hnd. rewrite dict_setitem_keys.
  destruct (existsb (pystr_eqb k) (map fst acc)) eqn:E; [exact Hnd|].
  apply NoDup_app; [exact Hnd | repeat constructor; intros [] |].
  intros a Ha [Hk|[]]. subst a.
  assert (existsb (pystr_eqb k) (map fst acc) = true); [|congruence].
  apply existsb_exists. exists k. split; [exact Ha | apply pystr_eqb_refl].
Qed.

Section DecoderBuilds.
Context {fp : FloatParser}.

Lemma dict_setitem_forall (P : value -> Prop) (acc : list (pystr * value))
  (k : pystr) (x : value) :
  Forall (fun kv => P (snd kv)) acc -> P x ->
  Forall (fun kv => P (snd kv)) (dict_setitem acc k x).
Proof.
  intros Hacc Hx. induction Hacc as [|[k' x'] acc Hk Hrest IH]; cbn [dict_setitem].
  - now repeat constructor.
  - destruct (pystr_eqb k' k); constructor; assumption.
Qed.

Hypothesis float_repr_reads_back :
  forall text, float_literal text = true -> float_ok (parse_float text) = true.

Lemma scan_atom_well_formed (s : pystr) (v : value) (r : pystr) :
  scan_atom s = Scanned v r -> well_formed v.
Proof.
  unfold scan_atom, match_number. intros H.
  repeat match type of H with
         | context [match strip_prefix ?p s with _ => _ end] =>
             destruct (strip_prefix p s);
             [injection H as <- _; now constructor|]
         end.
  destruct (number_span s) as [[[text b] rest]|] eqn:E; [|discriminate].
  injection H as <- _. destruct b; constructor.
  apply float_repr_reads_back. now apply number_span_float_literal in E.
Qed.

Lemma scan_family_well_formed (fuel : nat) :
  (forall s v r, scan_once fuel s = Scanned v r -> well_formed v)
  /\ (forall s acc v r,
        parse_members fuel s acc = Scanned v r ->
        well_formed (JObject acc) -> well_formed v)
  /\ (forall s acc v r,
        parse_elements fuel s acc = Scanned v r ->
        well_formed (JArray acc) -> well_formed v).
Proof.
  induction fuel as [|f (IHo & IHm & IHe)]; [repeat split; discriminate|].
  split; [|split].
  - intros s v r H. rewrite scan_once_S in H.
    destruct s as [|c t]; [now apply scan_atom_well_formed in H|].
    destruct (c =? 34)%N.
    { destruct (scanstring t); try discriminate. injection H as <- _. constructor. }
    destruct (c =? 123)%N.
    { destruct (starts_with 125%N (skip_ws t)).
      - injection H as <- _. constructor; constructor.
      - apply IHm in H; [exact H|]. constructor; constructor. }
    destruct (c =? 91)%N; [|now apply scan_atom_well_formed in H].
    destruct (starts_with 93%N (skip_ws t)).
    + injection H as <- _. constructor. constructor.
    + apply IHe in H; [exact H|]. constructor. constructor.
  - intros s acc v r H Hacc. rewrite parse_members_S in H.
    destruct (starts_with 34%N s) as [r0|]; [|discriminate].
    destruct (scanstring r0) as [key r1| |]; try discriminate.
    destruct (starts_with 58%N (skip_ws r1)) as [r2|]; [|discriminate].
    destruct (scan_once f (skip_ws r2)) as [x r3| |] eqn:E3; try discriminate.
    apply IHo in E3.
    assert (Hacc' : well_formed (JObject (dict_setitem acc key x))).
    { inversion Hacc as [| | | | | |l Hnd Hall]; subst. constructor.
      - now apply dict_setitem_nodup.
      - now apply dict_setitem_forall. }
    destruct (starts_with 125%N (skip_ws r3)); [now injection H as <- _|].
    destruct (starts_with 44%N (skip_ws r3)); [|discriminate].
    now apply IHm in H.
  - intros s acc v r H Hacc. rewrite parse_elements_S in H.
    destruct (scan_once f s) as [x r1| |] eqn:E1; try discriminate.
    apply IHo in E1.
    assert (Hacc' : well_formed (JArray (acc ++ [x]))).
    { inversion Hacc as [| | | | |l Hall|]; subst. constructor.
      apply Forall_app. split; [exact Hall | now constructor]. }
    destruct (starts_with 93%N (skip_ws r1)); [now injection H as <- _|].
    destruct (starts_with 44%N (skip_ws r1)); [|discriminate].
    now apply IHe in H.
Qed.

Lemma json_loads_well_formed (s : pystr) (v : value) :
  json_loads s = inr v -> well_formed v.
Proof.
  unfold json_loads. destruct (starts_with 65279%N s); [discriminate|].
  destruct (scan_once (2 * len s + 2) (skip_ws s)) as [x rest| |] eqn:E;
    try discriminate.
  destruct (skip_ws rest); [|discriminate]. intros [= <-].
  now apply (proj1 (scan_family_well_formed _)) in E.
Qed.


End DecoderBuilds.

Lemma literal_floats_read_back (text : pystr) :
  float_literal text = true ->
  @float_ok literal_floats (@parse_float literal_floats text) = true.
Proof.
  intros H. unfold float_ok. cbn [parse_float literal_floats].
  now rewrite H, pystr_eqb_refl, orb_true_r.
Qed.


(** ** Concrete runs *)

(** C8, at the custom-header text [123]: the text is valid JSON, so
    [json.loads] returns the integer, [headers.update(123)] raises
    TypeError, the handler for JSONDecodeError does not catch it, and the
    error leaves [handle_api_request] and [main]: no warning is shown and no
    request is made. *)
Theorem non_object_custom_headers_raise :
  forall (udb : UnicodeDB) (fp : FloatParser) (url key auth : pystr) (pressed : bool)
         (get : pystr -> headers -> Z -> exn + Response) (t : trace),
    let inp :=
      {| input_method := ulit "API連携で取得";
         uploaded_file := None;
         api_url := url;
         api_key := key;
         auth_header := auth;
         custom_headers := lit "123";
         button := pressed;
         http := get |} in
    json_loads (lit "123") = inr (JInt 123)
    /\ handle_api_request inp t
       = (inl (Raise TypeError (lit "object is not iterable")),
          t ++ [st_header (ulit "🌐 API連携でJSONデータを取得")])
    /\ main inp t
       = (inl (Raise TypeError (lit "object is not iterable")),
          t ++ main_preamble ++ [st_header (ulit "🌐 API連携でJSONデータを取得")]).
Proof.
  intros udb fp url key auth pressed get t inp.
  assert (Hl : json_loads (lit "123") = inr (JInt 123)) by (vm_compute; reflexivity).
  assert (Hb : forall t0, build_headers inp t0
                          = (inl (Raise TypeError (lit "object is not iterable")), t0)).
  { intros t0. unfold build_headers. cbn [custom_headers inp truthy lit bytes_of].
    change (truthy (lit "123")) with true. cbn beta iota.
    unfold try_except, bind. rewrite Hl. reflexivity. }
  assert (Hr : forall t0, handle_api_request inp t0
                 = (inl (Raise TypeError (lit "object is not iterable")),
                    t0 ++ [st_header (ulit "🌐 API連携でJSONデータを取得")])).
  { intros t0. unfold handle_api_request. unfold bind at 1. unfold show at 1.
    cbn beta iota. unfold bind at 1. now rewrite Hb. }
  split; [exact Hl|]. split; [apply Hr|].
  unfold main.
  replace (pystr_eqb (input_method inp) (ulit "JSONファイルをアップロード")) with false
    by (vm_compute; reflexivity).
  unfold bind at 1. unfold show at 1. cbn beta iota.
  unfold bind at 1. unfold show at 1. cbn beta iota.
  unfold bind at 1. unfold show at 1. cbn beta iota.
  unfold bind at 1. rewrite Hr. unfold main_preamble. now rewrite <- !app_assoc.
Qed.

(** ** Malformed documents *)













Section MalformedDocuments.
Context {fp : FloatParser}.






End MalformedDocuments.

Section MalformedUpload.
Context {udb : UnicodeDB} {fp : FloatParser}.


End MalformedUpload.



(** ** The fetch: status, body, outcome *)

Section ValidBodies.
Context {fp : FloatParser}.





(** X16: when [response.json()] raises, as it does for a body that is not
    JSON, its exception is a RequestException, so the first handler reports
    it with the line of a failed request: the handler for
    [json.JSONDecodeError] is not reached. *)
Theorem unparsable_body_is_reported_as_request_failure :
  forall (inp : inputs) (hs : headers) (t t1 : trace) (response : Response)
         (body : pystr),
    button inp = true ->
    truthy (api_url inp) = true ->
    build_headers inp (t ++ [st_header (ulit "🌐 API連携でJSONデータを取得")])
    = (inr hs, t1) ->
    http inp (api_url inp) hs 30%Z = inr response ->
    is_http_error (status_code response) = false ->
    response_json response = requests_json body ->
    (forall v : value, json_loads body <> inr v) ->
    exists e : exn,
      json_loads body = inl e
      /\ handle_api_request inp t
         = (inr JNull,
            t1 ++ [requests_get (api_url inp) hs 30;
                   st_error (ulit "❌ APIリクエストに失敗しました: " ++ exn_msg e)])
      /\ st_error (ulit "❌ APIリクエストに失敗しました: " ++ exn_msg e)
         <> st_error (ulit "❌ レスポンスがJSON形式ではありません").
Proof.
  intros inp hs t t1 response body Hb Hu Hh Hr Hs Hj Hbad.
  destruct (json_loads body) as [e|v] eqn:E; [|now destruct (Hbad v)].
  exists e. split; [reflexivity|]. split.
  - rewrite (proj1 (api_fetch_table inp hs t t1 Hb Hu Hh)), Hr, Hs, Hj.
    unfold requests_json. rewrite E. reflexivity.
  - intros H. injection H as H. discriminate H.
Qed.

End ValidBodies.



Lemma unparsable_body_witness :
  (@is_http_error 200 = false)
  /\ (forall fp : FloatParser,
        let inp :=
          {| input_method := ulit "API連携で取得";
             uploaded_file := None;
             api_url := lit "https://example.com/";
             api_key := [];
             auth_header := [];
             custom_headers := [];
             button := true;
             http := fun _ _ _ =>
                       inr {| status_code := 200;
                              reason := lit "OK";
                              url := lit "https://example.com/";
                              response_json := requests_json (lit "<html></html>") |} |} in
        exists e : exn,
          json_loads (lit "<html></html>") = inl e
          /\ handle_api_request inp []
             = (inr JNull,
                [st_header (ulit "🌐 API連携でJSONデータを取得");
                 requests_get (lit "https://example.com/") [] 30;
                 st_error (ulit "❌ APIリクエストに失敗しました: " ++ exn_msg e)])).
Proof.
  split; [reflexivity|]. intros fp inp.
  destruct (@unparsable_body_is_reported_as_request_failure fp inp [] []
              [st_header (ulit "🌐 API連携でJSONデータを取得")]
              {| status_code := 200;
                 reason := lit "OK";
                 url := lit "https://example.com/";
                 response_json := requests_json (lit "<html></html>") |}
              (lit "<html></html>") eq_refl eq_refl eq_refl eq_refl eq_refl eq_refl)
    as (e & He & Hr & _).
  - intros v H. vm_compute in H. discriminate H.
  - exists e. split; [exact He | exact Hr].
Defined.

Lemma top_level_null_witness :
  utf8_decode (lit "null") = Some (lit "null")
  /\ (forall (udb : UnicodeDB) (fp : FloatParser) (t : trace),
        main {| input_method := ulit "JSONファイルをアップロード";
                uploaded_file := Some {| file_name := lit "null.json";
                                         getvalue := lit "null" |};
                api_url := []; api_key := []; auth_header := [];
                custom_headers := []; button := false;
                http := fun _ _ _ => inl (Raise ConnectionError []) |} t
        = (inr tt,
           t ++ main_preamble
             ++ [st_header (ulit "📁 JSONファイルをアップロード");
                 st_success (ulit "✅ ファイル '" ++ lit "null.json"
                             ++ ulit "' を正常に読み込みました")])).
Proof.
  split; [reflexivity|]. intros udb fp t.
  apply (@top_level_null_is_not_displayed udb fp
           {| input_method := ulit "JSONファイルをアップロード";
              uploaded_file := Some {| file_name := lit "null.json";
                                       getvalue := lit "null" |};
              api_url := []; api_key := []; auth_header := [];
              custom_headers := []; button := false;
              http := fun _ _ _ => inl (Raise ConnectionError []) |}
           {| file_name := lit "null.json"; getvalue := lit "null" |}
           (lit "null") eq_refl eq_refl eq_refl).
  vm_compute. reflexivity.
Defined.

(** * Further properties

    What follows covers the loaders, the page and [main] as well as the
    summary.  As in the model of the decoder, the limits of the interpreter
    (the depth of recursion, the number of digits of an integer) are not
    modelled: a run is a run in which they are not reached. *)

(** ** The summary: what it shows and how much *)

Lemma Forall_combine_snd {A B : Type} (Q : B -> Prop) (s : list A) (l : list B) :
  Forall Q l -> Forall (fun ix : A * B => Q (snd ix)) (combine s l).
Proof.
  intros H. revert s. induction H as [|x r Hx _ IH]; intros s.
  - destruct s; constructor.
  - destruct s as [|a s]; [constructor|]. cbn [combine]. constructor; [exact Hx | apply IH].
Qed.

Lemma write_is_no_request (out : trace) :
  Forall (fun c => is_st_write c = true) out ->
  filter is_request out = [] /\ filter is_download out = [] /\ filter is_code out = [].
Proof.
  induction 1 as [|c r Hc _ (IH1 & IH2 & IH3)]; [now repeat split|].
  destruct c; try discriminate Hc. cbn [filter is_request is_download is_code]. auto.
Qed.

Section SummaryShape.
Context {udb : UnicodeDB}.

(** Every call of a summary is a call of [st.write]. *)
Lemma summary_calls_are_writes (data : value) :
  forall prefix : pystr, Forall (fun c => is_st_write c = true) (summary data prefix).
Proof.
  induction data as [| | | | |l IH|l IH] using value_nested_ind; intros prefix.
  1-5: (rewrite summary_scalar by reflexivity; constructor).
  - destruct l as [|first rest]; [rewrite summary_array_nil; now repeat constructor|].
    rewrite summary_array. constructor; [reflexivity|]. constructor; [reflexivity|].
    destruct (len (first :: rest) <=? 3); [|constructor].
    apply Forall_flat_map. unfold enumerate.
    apply (Forall_impl (P := fun d : nat * value =>
             forall i, Forall (fun c => is_st_write c = true)
                         (snd (array_item prefix i (snd d) []))));
      [intros d Hd; exact (Hd (fst d))|].
    apply (Forall_combine_snd
             (fun x => forall i, Forall (fun c => is_st_write c = true)
                                   (snd (array_item prefix i x [])))).
    eapply Forall_impl; [|exact IH]. intros x Hx i. rewrite array_item_calls.
    destruct (isinstance_dict_list x && (len (py_str x) <? 500)); [apply Hx | constructor].
  - rewrite summary_object. constructor; [reflexivity|].
    apply Forall_flat_map. eapply Forall_impl; [|exact IH].
    intros [k x] Hx. cbn [snd] in Hx. rewrite object_item_calls.
    destruct (isinstance_dict_list x); [|now repeat constructor].
    constructor; [reflexivity|].
    destruct (len (py_str x) <? 1000); [apply Hx | constructor].
Qed.

(** X1: on every value and from every trace, the summary returns normally
    and calls [st.write] and nothing else: it shows no message of success,
    warning or error, offers no download and makes no request. *)
Theorem summary_only_writes :
  forall (data : value) (prefix : pystr) (t : trace),
    exists out : trace,
      analyze_json_structure data prefix t = (inr tt, t ++ out)
      /\ Forall (fun c => is_st_write c = true) out
      /\ filter is_request out = []
      /\ filter is_download out = []
      /\ forall msg, ~ In (st_error msg) out /\ ~ In (st_warning msg) out
                     /\ ~ In (st_success msg) out.
Proof.
  intros data prefix t. exists (summary data prefix).
  pose proof (summary_calls_are_writes data prefix) as Hw.
  split; [unfold summary; exact (analyze_framed data prefix t)|].
  split; [exact Hw|].
  destruct (write_is_no_request _ Hw) as (H1 & H2 & _).
  split; [exact H1|]. split; [exact H2|].
  intros msg. rewrite Forall_forall in Hw.
  split; [|split]; intros Hin; apply Hw in Hin; discriminate Hin.
Qed.

(** A line of the summary that is the header of a container at the path
    [p], and a line that is an item under a header. *)
Lemma child_path_extends (prefix key : pystr) :
  exists suffix, child_path prefix key = prefix ++ suffix.
Proof. destruct prefix; [now exists key | eexists; reflexivity]. Qed.

Lemma item_path_extends (prefix : pystr) (i : nat) :
  exists suffix, item_path prefix i = prefix ++ suffix.
Proof. destruct prefix; eexists; reflexivity. Qed.

Lemma summary_line_weaken (prefix path : pystr) (out : trace) :
  (exists suffix, path = prefix ++ suffix) ->
  Forall (summary_line path) out -> Forall (summary_line prefix) out.
Proof.
  intros [s0 ->] H. eapply Forall_impl; [|exact H].
  intros c [(p & n & Hc & s1 & ->)|Hc]; [left | now right].
  exists ((prefix ++ s0) ++ s1), n. split; [exact Hc|].
  exists (s0 ++ s1). now rewrite app_assoc.
Qed.

(** X3: the paths nest: every header in the summary of a value under the
    path [prefix] is the header of a dict or of a list at a path that
    extends [prefix], and every other line is a line for a key under a
    header or the line for the type of the elements. *)
Theorem nested_headers_extend_the_path :
  forall (data : value) (prefix : pystr),
    Forall (summary_line prefix) (summary data prefix).
Proof.
  induction data as [| | | | |l IH|l IH] using value_nested_ind; intros prefix.
  1-5: (rewrite summary_scalar by reflexivity; constructor).
  - assert (Hh : forall n, summary_line prefix (st_write (list_header prefix n))).
    { intros n. left. exists prefix, n. split; [now right|].
      exists []. now rewrite app_nil_r. }
    destruct l as [|first rest];
      [rewrite summary_array_nil; constructor; [apply Hh | constructor]|].
    rewrite summary_array. constructor; [apply Hh|].
    constructor; [right; right; right; eexists; reflexivity|].
    destruct (len (first :: rest) <=? 3); [|constructor].
    apply Forall_flat_map. unfold enumerate.
    apply (Forall_impl (P := fun d : nat * value =>
             forall i, Forall (summary_line prefix)
                         (snd (array_item prefix i (snd d) []))));
      [intros d Hd; exact (Hd (fst d))|].
    apply (Forall_combine_snd
             (fun x => forall i, Forall (summary_line prefix)
                                   (snd (array_item prefix i x [])))).
    eapply Forall_impl; [|exact IH]. intros x Hx i. rewrite array_item_calls.
    destruct (isinstance_dict_list x && (len (py_str x) <? 500)); [|constructor].
    apply (summary_line_weaken prefix (item_path prefix i));
      [apply item_path_extends | apply Hx].
  - rewrite summary_object. constructor.
    { left. exists prefix, (len l). split; [now left|].
      exists []. now rewrite app_nil_r. }
    apply Forall_flat_map. eapply Forall_impl; [|exact IH].
    intros [k x] Hx. cbn [snd] in Hx. rewrite object_item_calls.
    destruct (isinstance_dict_list x);
      [|constructor; [right; right; left; do 3 eexists; reflexivity | constructor]].
    constructor; [right; left; do 2 eexists; reflexivity|].
    destruct (len (py_str x) <? 1000); [|constructor].
    apply (summary_line_weaken prefix (child_path prefix k));
      [apply child_path_extends | apply Hx].
Qed.

End SummaryShape.

(** ** The size of the summary against the two thresholds *)

Lemma join_length_sum (sep : pystr) (parts : list pystr) :
  1 <= len sep ->
  list_sum (map (fun p : pystr => len p + 1) parts) <= len (join sep parts) + 1.
Proof.
  intros Hsep. induction parts as [|p rest IH]; [simpl; lia|].
  cbn [map]. rewrite list_sum_cons. destruct rest as [|q r].
  - simpl. lia.
  - change (join sep (p :: q :: r)) with (p ++ sep ++ join sep (q :: r)).
    unfold len in *. rewrite !length_app. lia.
Qed.

Lemma list_sum_map_le_Forall {A : Type} (f g : A -> nat) (l : list A) :
  Forall (fun x => f x <= g x) l -> list_sum (map f l) <= list_sum (map g l).
Proof.
  induction 1 as [|x r Hx _ IH]; cbn [map]; [lia|]. rewrite !list_sum_cons. lia.
Qed.

Lemma list_sum_map_const {A : Type} (c : nat) (l : list A) :
  list_sum (map (fun _ => c) l) = c * len l.
Proof.
  unfold len. induction l as [|x r IH]; cbn [map Datatypes.length]; [simpl; lia|].
  rewrite list_sum_cons. lia.
Qed.

Section SummaryThresholds.
Context {udb : UnicodeDB}.

(** A value has at most one node more than its [repr] has characters. *)
Lemma value_size_repr (v : value) : value_size v <= len (py_repr v) + 1.
Proof.
  induction v as [| | | | |l IH|l IH] using value_nested_ind;
    try (cbn [value_size]; lia).
  - cbn [value_size py_repr].
    pose proof (join_length_sum (lit ", ") (map py_repr l)) as Hj.
    rewrite map_map in Hj.
    pose proof (list_sum_map_le_Forall value_size (fun x => len (py_repr x) + 1) l IH) as Hs.
    unfold len in *. rewrite !length_app. simpl Datatypes.length at 1 2 in Hj.
    cbn [lit bytes_of list_ascii_of_string map Datatypes.length] in *. lia.
  - cbn [value_size py_repr].
    pose proof (join_length_sum (lit ", ")
                  (map (fun kv : pystr * value =>
                          let (k, x) := kv in repr_str k ++ lit ": " ++ py_repr x) l)) as Hj.
    rewrite map_map in Hj.
    assert (Hs : list_sum (map (fun kv : pystr * value => value_size (snd kv)) l)
                 <= list_sum (map (fun kv : pystr * value =>
                        len (let (k, x) := kv in repr_str k ++ lit ": " ++ py_repr x) + 1) l)).
    { apply list_sum_map_le_Forall. eapply Forall_impl; [|exact IH].
      intros [k x] Hx. cbn [snd] in *. unfold len in *. rewrite !length_app. lia. }
    unfold len in *. rewrite !length_app.
    cbn [lit bytes_of list_ascii_of_string map Datatypes.length] in *. lia.
Qed.

(** What one guarded recursion can add. *)
Lemma guarded_summary_length (x : value) (prefix : pystr) (bound : nat) :
  isinstance_dict_list x = true ->
  len (py_str x) < bound ->
  len (summary x prefix) + 1 <= 2 * bound.
Proof.
  intros Hc Hlt.
  assert (Hs : py_str x = py_repr x) by (destruct x; try discriminate; reflexivity).
  rewrite Hs in Hlt.
  pose proof (value_size_repr x). pose proof (summary_length x prefix). lia.
Qed.

(** X2: the two thresholds bound the output whatever the size of the
    value: the summary of an array has at most 2999 lines, the summary of
    an object at most 2000 lines for each key and one more. *)
Theorem summary_bounded_by_thresholds :
  forall (elements : list value) (items : list (pystr * value)) (prefix : pystr),
    len (summary (JArray elements) prefix) <= 2999
    /\ len (summary (JObject items) prefix) <= 1 + 2000 * len items.
Proof.
  intros elements items prefix. split.
  - destruct elements as [|first rest]; [rewrite summary_array_nil; simpl; lia|].
    rewrite summary_array.
    destruct (Nat.leb_spec (len (first :: rest)) 3) as [Hn|Hn];
      [|unfold len; cbn [Datatypes.length]; lia].
    assert (Hsum :
      len (flat_map
             (fun ix : nat * value => snd (array_item prefix (fst ix) (snd ix) []))
             (enumerate (first :: rest)))
      <= list_sum (map (fun _ : value => 999) (first :: rest))).
    { apply flat_map_enumerate_length_le. apply Forall_forall. intros x _ i.
      cbn [fst snd]. rewrite array_item_calls.
      destruct (isinstance_dict_list x) eqn:Hc; [|simpl; lia].
      destruct (Nat.ltb_spec (len (py_str x)) 500) as [Hlt|Hge]; [|simpl; lia].
      cbn [andb]. pose proof (guarded_summary_length x (item_path prefix i) 500 Hc Hlt).
      lia. }
    rewrite list_sum_map_const in Hsum.
    unfold len in *. cbn [Datatypes.length] in *. lia.
  - rewrite summary_object.
    assert (Hsum :
      len (flat_map (fun item => snd (object_item prefix item [])) items)
      <= list_sum (map (fun _ : pystr * value => 2000) items)).
    { apply flat_map_length_le. apply Forall_forall. intros [k x] _.
      rewrite object_item_calls.
      destruct (isinstance_dict_list x) eqn:Hc; [|simpl; lia].
      destruct (Nat.ltb_spec (len (py_str x)) 1000) as [Hlt|Hge].
      - pose proof (guarded_summary_length x (child_path prefix k) 1000 Hc Hlt).
        unfold len in *. cbn [Datatypes.length]. lia.
      - simpl. lia. }
    rewrite list_sum_map_const in Hsum.
    unfold len in *. cbn [Datatypes.length] in *. lia.
Qed.

End SummaryThresholds.

(** ** Runs of the application, step by step *)

Lemma show_then {A : Type} (c : call) (k : unit -> St A) (t : trace) :
  bind (show c) k t = k tt (t ++ [c]).
Proof. reflexivity. Qed.

Lemma ret_then {A B : Type} (a : A) (k : A -> St B) (t : trace) :
  bind (ret a) k t = k a t.
Proof. reflexivity. Qed.

Lemma raise_for_status_pure (r : Response) (t : trace) :
  raise_for_status r t = (fst (raise_for_status r []), t).
Proof.
  unfold raise_for_status.
  destruct ((400 <=? status_code r) && (status_code r <? 500))%Z; [reflexivity|].
  destruct ((500 <=? status_code r) && (status_code r <? 600))%Z; reflexivity.
Qed.

Lemma failure_line_is_error (e : exn) : exists msg, failure_line e = st_error msg.
Proof. unfold failure_line. destruct (classify e); eexists; reflexivity. Qed.

Lemma update_from_pairs_error (items : list value) :
  forall (d : headers) (e : exn),
    update_from_pairs d items = inl e -> exn_cls e = TypeError \/ exn_cls e = ValueError.
Proof.
  induction items as [|item rest IH]; intros d e H; [discriminate H|].
  cbn [update_from_pairs] in H.
  destruct (as_sequence item) as [[|k [|v [|x l]]]|];
    try (injection H as <-; cbn; auto; fail).
  destruct (isinstance_dict_list k); [injection H as <-; cbn; auto|].
  now apply IH in H.
Qed.

Lemma dict_update_error (d : headers) (v : value) (e : exn) :
  dict_update d v = inl e -> exn_cls e = TypeError \/ exn_cls e = ValueError.
Proof.
  unfold dict_update.
  destruct v as [| | | | |l|l]; cbn [as_sequence]; intros H;
    try (injection H as <-; cbn; auto; fail);
    try discriminate H;
    now apply update_from_pairs_error in H.
Qed.

Section Runs.
Context {udb : UnicodeDB} {fp : FloatParser}.

Lemma display_run (v : value) (t : trace) :
  display_json_data v t = (inr tt, t ++ display_head v ++ summary v []).
Proof.
  unfold display_json_data. cbv zeta.
  destruct v; rewrite ?show_then, ?ret_then; rewrite ?show_then;
    match goal with
    | |- analyze_json_structure ?v ?p ?t0 = _ => rewrite (analyze_framed v p t0)
    end;
    unfold display_head, summary; rewrite <- !app_assoc; reflexivity.
Qed.

Lemma display_quiet (v : value) :
  filter is_request (display_head v ++ summary v []) = []
  /\ filter is_download (display_head v ++ summary v [])
     = [st_download_button (json_dumps v) (lit "data.json") (lit "application/json")]
  /\ filter is_code (display_head v ++ summary v []) = [st_code (json_dumps v)].
Proof.
  destruct (write_is_no_request (summary v [])) as (H1 & H2 & H3).
  { apply summary_calls_are_writes. }
  rewrite !filter_app, H1, H2, H3, !app_nil_r.
  unfold display_head. rewrite !filter_app.
  split; [|split]; destruct v; reflexivity.
Qed.

End Runs.

(** ** The upload path *)

Section UploadRuns.
Context {udb : UnicodeDB} {fp : FloatParser}.

Lemma main_run (inp : inputs) (t : trace) :
  main inp t
  = match (if pystr_eqb (input_method inp) (ulit "JSONファイルをアップロード")
           then handle_file_upload inp
           else handle_api_request inp) (t ++ main_preamble) with
    | (inr v, t1) => if is_not_None v then display_json_data v t1 else (inr tt, t1)
    | (inl e, t1) => (inl e, t1)
    end.
Proof.
  unfold main. rewrite !show_then. unfold bind at 1.
  replace (((t ++ [st_title (ulit "📄 JSON可視化アプリ")]) ++
            [st_markdown (ulit "JSONファイルやAPI から取得したデータをインタラクティブに表示します")]) ++
           [st_sidebar_title (ulit "データ入力方法")])
    with (t ++ main_preamble)
    by (unfold main_preamble; now rewrite <- !app_assoc).
  destruct ((if pystr_eqb (input_method inp) (ulit "JSONファイルをアップロード")
             then handle_file_upload inp
             else handle_api_request inp) (t ++ main_preamble)) as [[e|v] t1];
    [reflexivity|].
  now destruct (is_not_None v).
Qed.

Lemma handle_file_upload_none (inp : inputs) (t : trace) :
  uploaded_file inp = None ->
  handle_file_upload inp t = (inr JNull, t ++ [upload_header]).
Proof. intros H. unfold handle_file_upload. now rewrite H. Qed.

Lemma handle_file_upload_undecodable (inp : inputs) (f : UploadedFile) (t : trace) :
  uploaded_file inp = Some f ->
  utf8_decode (getvalue f) = None ->
  handle_file_upload inp t
  = (inr JNull,
     t ++ [upload_header;
           st_error (ulit "❌ ファイルの読み込みに失敗しました: "
                     ++ lit "'utf-8' codec can't decode bytes")]).
Proof.
  intros Hf Hd. unfold handle_file_upload. rewrite Hf, show_then.
  unfold bind at 1, try_except. rewrite Hd.
  unfold bind at 1. unfold raise at 1. cbn [is_JSONDecodeError exn_cls exn_msg].
  rewrite show_then. unfold ret, upload_header. now rewrite <- app_assoc.
Qed.

(** The first character of a text whose bytes start with EF BB BF. *)
Lemma utf8_decode_bom (rest : list N) :
  utf8_decode (239 :: 187 :: 191 :: rest)%N
  = option_map (cons 65279%N) (utf8_decode rest).
Proof. reflexivity. Qed.

Lemma json_loads_bom (text : pystr) :
  json_loads (65279%N :: text)
  = inl (Raise JSONDecodeError (lit "Unexpected UTF-8 BOM (decode using utf-8-sig)")).
Proof. reflexivity. Qed.

(** X4: [handle_file_upload] never raises.  With no file it shows its
    header and returns [None].  With a file it shows one line after the
    header: the success line, when the bytes are UTF-8 and the text parses,
    the value returned being the value parsed; an error line otherwise, and
    it returns [None]. *)
Theorem handle_file_upload_outcomes :
  forall (inp : inputs) (t : trace),
    exists (v : value) (out : trace),
      handle_file_upload inp t = (inr v, t ++ upload_header :: out)
      /\ match uploaded_file inp with
         | None => v = JNull /\ out = []
         | Some f =>
             (exists text,
                 utf8_decode (getvalue f) = Some text
                 /\ json_loads text = inr v
                 /\ out = [upload_success f])
             \/ (v = JNull
                 /\ (exists msg, out = [st_error msg])
                 /\ (utf8_decode (getvalue f) = None
                     \/ exists text e,
                          utf8_decode (getvalue f) = Some text
                          /\ json_loads text = inl e))
         end.
Proof.
  intros inp t. destruct (uploaded_file inp) as [f|] eqn:Hf.
  - destruct (utf8_decode (getvalue f)) as [text|] eqn:Hd.
    + pose proof (handle_file_upload_decoded inp f text t Hf Hd) as Hr.
      destruct (json_loads text) as [e|v] eqn:El.
      * exists JNull. eexists. split; [exact Hr|]. right.
        split; [reflexivity|]. split; [eexists; reflexivity|].
        right. exists text, e. auto.
      * exists v. eexists. split; [exact Hr|]. left. exists text. auto.
    + exists JNull. eexists.
      split; [exact (handle_file_upload_undecodable inp f t Hf Hd)|].
      right. split; [reflexivity|]. split; [eexists; reflexivity|]. now left.
  - exists JNull, []. split; [now apply handle_file_upload_none|]. auto.
Qed.

(** X5: a file that is not UTF-8 is reported with the message of the
    last handler, not with the message for malformed JSON; nothing is
    displayed. *)
Theorem undecodable_upload_is_reported :
  forall (inp : inputs) (f : UploadedFile),
    input_method inp = ulit "JSONファイルをアップロード" ->
    uploaded_file inp = Some f ->
    utf8_decode (getvalue f) = None ->
    exists msg : pystr,
      forall t : trace,
        main inp t
        = (inr tt,
           t ++ main_preamble
             ++ [upload_header;
                 st_error (ulit "❌ ファイルの読み込みに失敗しました: " ++ msg)]).
Proof.
  intros inp f Hm Hf Hd. eexists. intros t.
  rewrite main_run, Hm, pystr_eqb_refl.
  rewrite (handle_file_upload_undecodable inp f _ Hf Hd).
  cbn [is_not_None]. now rewrite <- app_assoc.
Qed.

(** X6: a file that starts with the byte order mark EF BB BF is rejected
    as malformed JSON, whatever follows the mark, a valid document
    included: the mark is decoded to U+FEFF and [json.load] refuses it. *)
Theorem bom_upload_is_rejected :
  forall (inp : inputs) (f : UploadedFile) (rest : list N) (text : pystr),
    input_method inp = ulit "JSONファイルをアップロード" ->
    uploaded_file inp = Some f ->
    getvalue f = (239 :: 187 :: 191 :: rest)%N ->
    utf8_decode rest = Some text ->
    exists e : exn,
      json_loads (65279%N :: text) = inl e
      /\ exn_cls e = JSONDecodeError
      /\ forall t : trace,
           main inp t
           = (inr tt,
              t ++ main_preamble
                ++ [upload_header;
                    st_error (ulit "❌ JSON形式が正しくありません: " ++ exn_msg e)]).
Proof.
  intros inp f rest text Hm Hf Hb Hd. eexists.
  split; [apply json_loads_bom|]. split; [reflexivity|]. intros t.
  assert (Hd' : utf8_decode (getvalue f) = Some (65279%N :: text)).
  { rewrite Hb, utf8_decode_bom, Hd. reflexivity. }
  rewrite main_run, Hm, pystr_eqb_refl.
  rewrite (handle_file_upload_decoded inp f _ _ Hf Hd'), json_loads_bom.
  cbn [is_not_None exn_msg]. now rewrite <- app_assoc.
Qed.

(** X7: when the file is UTF-8 and its text parses to a value other than
    [None], [main] shows the success line and then the page for that very
    value: its type, its size when it is a container, the tree, the
    canonical text, the download and the summary from the root. *)
Theorem upload_displays_parsed_value :
  forall (inp : inputs) (f : UploadedFile) (text : pystr) (v : value),
    input_method inp = ulit "JSONファイルをアップロード" ->
    uploaded_file inp = Some f ->
    utf8_decode (getvalue f) = Some text ->
    json_loads text = inr v ->
    v <> JNull ->
    forall t : trace,
      main inp t
      = (inr tt,
         t ++ main_preamble ++ [upload_header; upload_success f]
           ++ display_head v ++ summary v []).
Proof.
  intros inp f text v Hm Hf Hd Hl Hv t.
  rewrite main_run, Hm, pystr_eqb_refl.
  rewrite (handle_file_upload_decoded inp f _ _ Hf Hd), Hl.
  replace (is_not_None v) with true by (destruct v; try reflexivity; now destruct Hv).
  rewrite display_run. now rewrite <- !app_assoc.
Qed.

End UploadRuns.

Section Download.
Context {udb : UnicodeDB} {fp : FloatParser}.
Hypothesis float_repr_reads_back :
  forall text, float_literal text = true -> float_ok (parse_float text) = true.

(** X8: for a value the decoder built, the page offers one download,
    named [data.json], whose text is the text of the raw view, and loading
    that text gives back the value displayed (when the [repr] of a float
    reads back as the float). *)
Theorem download_reloads_to_displayed_value :
  forall (s : pystr) (v : value) (t : trace),
    json_loads s = inr v ->
    exists out : trace,
      display_json_data v t = (inr tt, t ++ out)
      /\ In (st_json v) out
      /\ (exists d : pystr,
            filter is_download out
            = [st_download_button d (lit "data.json") (lit "application/json")]
            /\ filter is_code out = [st_code d]
            /\ json_loads d = inr v).
Proof.
  intros s v t Hl. exists (display_head v ++ summary v []).
  destruct (display_quiet v) as (_ & Hd & Hc).
  split; [apply display_run|]. split.
  - apply in_or_app. left. unfold display_head. apply in_or_app. right.
    apply in_or_app. right. cbn. auto.
  - exists (json_dumps v). split; [exact Hd|]. split; [exact Hc|].
    apply loads_dumps. now apply (json_loads_well_formed float_repr_reads_back s).
Qed.

End Download.

(** ** The headers of the request *)

Lemma key_eqb_string (k0 : value) (k : pystr) :
  key_eqb k0 (JString k) = true -> k0 = JString k.
Proof.
  destruct k0 as [| [|] | | |s| |]; cbn; try discriminate.
  intros H. now apply pystr_eqb_eq in H as ->.
Qed.

Lemma pystr_eqb_neq (a b : pystr) : a <> b -> pystr_eqb a b = false.
Proof. intros H. unfold pystr_eqb. now destruct (list_eq_dec N.eq_dec a b). Qed.

Lemma headers_get_setitem (d : headers) (k k' : pystr) (x : value) :
  headers_get (headers_setitem d (JString k) x) (JString k')
  = if pystr_eqb k k' then Some x else headers_get d (JString k').
Proof.
  induction d as [|[k1 x1] rest IH]; cbn [headers_setitem headers_get].
  - cbn [key_eqb]. now destruct (pystr_eqb k k').
  - destruct (key_eqb k1 (JString k)) eqn:E.
    + apply key_eqb_string in E as ->. cbn [headers_get key_eqb].
      now destruct (pystr_eqb k k').
    + cbn [headers_get]. rewrite IH.
      destruct (key_eqb k1 (JString k')) eqn:E'; [|reflexivity].
      apply key_eqb_string in E' as ->. cbn [key_eqb] in E.
      destruct (pystr_eqb k k') eqn:Ek; [|reflexivity].
      apply pystr_eqb_eq in Ek as ->. now rewrite pystr_eqb_refl in E.
Qed.

Lemma merge_items_other (items : list (pystr * value)) :
  forall (d : headers) (k : pystr),
    ~ In k (map fst items) ->
    headers_get (merge_items items d) (JString k) = headers_get d (JString k).
Proof.
  induction items as [|[k1 x1] rest IH]; intros d k Hnot; [reflexivity|].
  cbn [merge_items fold_left fst snd]. fold (merge_items rest).
  rewrite IH by (intros H; apply Hnot; now right).
  rewrite headers_get_setitem, pystr_eqb_neq; [reflexivity|].
  intros ->. apply Hnot. now left.
Qed.

Lemma merge_items_sets (items : list (pystr * value)) :
  forall (d : headers) (k : pystr),
    In k (map fst items) ->
    exists x, In (k, x) items /\ headers_get (merge_items items d) (JString k) = Some x.
Proof.
  induction items as [|[k1 x1] rest IH]; intros d k Hin; [destruct Hin|].
  cbn [merge_items fold_left fst snd]. fold (merge_items rest).
  destruct (in_dec (list_eq_dec N.eq_dec) k (map fst rest)) as [Hr|Hr].
  - destruct (IH (headers_setitem d (JString k1) x1) k Hr) as (x & Hx & Hs).
    exists x. split; [now right | exact Hs].
  - destruct Hin as [Heq|Hin]; [|contradiction]. cbn [fst] in Heq. subst k1.
    exists x1. split; [now left|].
    now rewrite merge_items_other, headers_get_setitem, pystr_eqb_refl.
Qed.

(** ** The API path, step by step *)

Section ApiRuns.
Context {fp : FloatParser}.

Lemma build_headers_run (inp : inputs) (t : trace) :
  build_headers inp t
  = if truthy (custom_headers inp) then
      match json_loads (custom_headers inp) with
      | inl e => (inr (credential_headers inp), t ++ [headers_warning])
      | inr v =>
          match dict_update (credential_headers inp) v with
          | inr hs => (inr hs, t)
          | inl e => (inl e, t)
          end
      end
    else (inr (credential_headers inp), t).
Proof.
  assert (E : build_headers inp
              = if truthy (custom_headers inp) then
                  try_except
                    (custom_headers_dict <- lift (json_loads (custom_headers inp)) ;;
                     lift (dict_update (credential_headers inp) custom_headers_dict))
                    (fun e =>
                       if is_JSONDecodeError e then
                         Some (show headers_warning ;; ret (credential_headers inp))
                       else None)
                else ret (credential_headers inp)) by reflexivity.
  rewrite E. destruct (truthy (custom_headers inp)); [|reflexivity].
  unfold try_except, bind at 1.
  destruct (json_loads (custom_headers inp)) as [e|v] eqn:El.
  - rewrite lift_inl. apply json_loads_error in El.
    unfold is_JSONDecodeError. now rewrite El.
  - rewrite lift_inr.
    destruct (dict_update (credential_headers inp) v) as [e|hs] eqn:Eu.
    + rewrite lift_inl. unfold is_JSONDecodeError.
      now destruct (dict_update_error _ _ _ Eu) as [-> | ->].
    + now rewrite lift_inr.
Qed.

Lemma handler_line (e : exn) (t0 : trace) :
  match
    (if is_RequestException e
     then Some (show (st_error (ulit "❌ APIリクエストに失敗しました: " ++ exn_msg e)) ;;
                ret None)
     else if is_JSONDecodeError e
          then Some (show (st_error (ulit "❌ レスポンスがJSON形式ではありません")) ;;
                     ret None)
          else Some (show (st_error (ulit "❌ 予期しないエラーが発生しました: "
                                     ++ exn_msg e)) ;;
                     ret (@None value)))
  with
  | Some k => k t0
  | None => (inl e, t0)
  end = (inr None, t0 ++ [failure_line e]).
Proof.
  unfold failure_line, classify.
  destruct (is_RequestException e); [reflexivity|].
  destruct (is_JSONDecodeError e); reflexivity.
Qed.

Lemma api_run (inp : inputs) (t : trace) :
  handle_api_request inp t
  = match build_headers inp (t ++ [api_header]) with
    | (inl e, t1) => (inl e, t1)
    | (inr hs, t1) =>
        if button inp && truthy (api_url inp) then
          (inr (fst (fetch_outcome inp hs)),
           t1 ++ [requests_get (api_url inp) hs 30; snd (fetch_outcome inp hs)])
        else (inr JNull, t1)
    end.
Proof.
  unfold handle_api_request. rewrite show_then. unfold bind at 1.
  change (st_header (ulit "🌐 API連携でJSONデータを取得")) with api_header.
  destruct (build_headers inp (t ++ [api_header])) as [[e|hs] t1]; [reflexivity|].
  destruct (button inp); [|reflexivity].
  destruct (truthy (api_url inp)); [|reflexivity]. cbn [andb].
  unfold bind at 1. unfold try_except. rewrite show_then.
  unfold bind at 1. unfold fetch_outcome.
  destruct (http inp (api_url inp) hs 30%Z) as [e|response].
  - rewrite lift_inl, handler_line. unfold ret. cbn [fst snd]. now rewrite <- app_assoc.
  - rewrite lift_inr. unfold bind at 1. rewrite raise_for_status_pure.
    destruct (fst (raise_for_status response [])) as [e|[]].
    + rewrite handler_line. unfold ret. cbn [fst snd]. now rewrite <- app_assoc.
    + unfold bind at 1.
      destruct (response_json response) as [e|v].
      * rewrite lift_inl, handler_line. unfold ret. cbn [fst snd].
        now rewrite <- app_assoc.
      * rewrite lift_inr, show_then. unfold ret. cbn [fst snd].
        now rewrite <- !app_assoc.
Qed.

Lemma fetch_line_is_no_request (inp : inputs) (hs : headers) :
  is_request (snd (fetch_outcome inp hs)) = false.
Proof.
  unfold fetch_outcome.
  destruct (http inp (api_url inp) hs 30%Z) as [e|response].
  - destruct (failure_line_is_error e) as [msg E]. cbn [snd]. now rewrite E.
  - destruct (fst (raise_for_status response [])) as [e|[]].
    + destruct (failure_line_is_error e) as [msg E]. cbn [snd]. now rewrite E.
    + destruct (response_json response) as [e|v]; [|reflexivity].
      destruct (failure_line_is_error e) as [msg E]. cbn [snd]. now rewrite E.
Qed.

Lemma fetch_value_source (inp : inputs) (hs : headers) (v : value) :
  fst (fetch_outcome inp hs) = v ->
  v <> JNull ->
  exists response,
    http inp (api_url inp) hs 30%Z = inr response
    /\ is_http_error (status_code response) = false
    /\ response_json response = inr v
    /\ snd (fetch_outcome inp hs)
       = st_success (ulit "✅ APIからデータを正常に取得しました (ステータス: "
                     ++ str_int (status_code response) ++ lit ")").
Proof.
  unfold fetch_outcome. intros Hv Hn.
  destruct (http inp (api_url inp) hs 30%Z) as [e|response];
    [cbn [fst] in Hv; congruence|].
  exists response.
  destruct (is_http_error (status_code response)) eqn:Es.
  - destruct (raise_for_status_error response [] Es) as [msg Em].
    rewrite Em in Hv. cbn [fst] in Hv. congruence.
  - rewrite (raise_for_status_ok response [] Es) in *. cbn [fst] in *.
    destruct (response_json response) as [e|x]; cbn [fst snd] in *; [congruence|].
    subst x. auto.
Qed.

End ApiRuns.

(** ** The API path: custom headers, the request, what comes back *)

Section ApiProperties.
Context {fp : FloatParser}.

(** X9: custom headers that are not JSON give the warning and are
    ignored: the headers are the credential alone, and when the button is
    pressed on a URL the request goes out with them, after the warning. *)
Theorem malformed_custom_headers_are_ignored :
  forall inp : inputs,
    truthy (custom_headers inp) = true ->
    (forall v : value, json_loads (custom_headers inp) <> inr v) ->
    forall t : trace,
      build_headers inp t = (inr (credential_headers inp), t ++ [headers_warning])
      /\ handle_api_request inp t
         = if button inp && truthy (api_url inp)
           then (inr (fst (fetch_outcome inp (credential_headers inp))),
                 t ++ [api_header; headers_warning;
                       requests_get (api_url inp) (credential_headers inp) 30;
                       snd (fetch_outcome inp (credential_headers inp))])
           else (inr JNull, t ++ [api_header; headers_warning]).
Proof.
  intros inp Hc Hbad t.
  assert (Hb : forall t0, build_headers inp t0
                          = (inr (credential_headers inp), t0 ++ [headers_warning])).
  { intros t0. rewrite build_headers_run, Hc.
    destruct (json_loads (custom_headers inp)) as [e|v] eqn:El; [reflexivity|].
    now destruct (Hbad v). }
  split; [apply Hb|].
  rewrite api_run, Hb.
  destruct (button inp && truthy (api_url inp)); now rewrite <- !app_assoc.
Qed.

(** X10: custom headers that are a JSON object are merged into the
    headers without any warning: every name of the object is sent with a
    value the object gives it, also when the credential has the same name,
    and a name the object does not have keeps what the credential gives it.
    The request, when made, carries these headers. *)
Theorem object_custom_headers_are_merged :
  forall (inp : inputs) (items : list (pystr * value)),
    truthy (custom_headers inp) = true ->
    json_loads (custom_headers inp) = inr (JObject items) ->
    exists hs : headers,
      (forall t : trace, build_headers inp t = (inr hs, t))
      /\ (forall k : pystr,
            In k (map fst items) ->
            exists x, In (k, x) items /\ headers_get hs (JString k) = Some x)
      /\ (forall k : pystr,
            ~ In k (map fst items) ->
            headers_get hs (JString k)
            = headers_get (credential_headers inp) (JString k))
      /\ (forall t : trace,
            handle_api_request inp t
            = if button inp && truthy (api_url inp)
              then (inr (fst (fetch_outcome inp hs)),
                    t ++ [api_header; requests_get (api_url inp) hs 30;
                          snd (fetch_outcome inp hs)])
              else (inr JNull, t ++ [api_header])).
Proof.
  intros inp items Hc Hl.
  exists (merge_items items (credential_headers inp)).
  assert (Hb : forall t0, build_headers inp t0
                          = (inr (merge_items items (credential_headers inp)), t0)).
  { intros t0. rewrite build_headers_run, Hc, Hl. reflexivity. }
  split; [exact Hb|]. split; [intros k; apply merge_items_sets|].
  split; [intros k; apply merge_items_other|].
  intros t. rewrite api_run, Hb.
  destruct (button inp && truthy (api_url inp)); now rewrite <- ?app_assoc.
Qed.

(** X11: [handle_api_request] returns a value other than [None] only
    when the button was pressed on a URL, the request was made, the answer
    had a status outside 400 to 599, and [response.json()] returned that
    value. *)
Theorem api_value_comes_from_the_response :
  forall (inp : inputs) (t t' : trace) (v : value),
    handle_api_request inp t = (inr v, t') ->
    v <> JNull ->
    button inp = true
    /\ truthy (api_url inp) = true
    /\ exists (hs : headers) (response : Response),
         In (requests_get (api_url inp) hs 30) t'
         /\ http inp (api_url inp) hs 30%Z = inr response
         /\ is_http_error (status_code response) = false
         /\ response_json response = inr v.
Proof.
  intros inp t t' v Hr Hv. rewrite api_run in Hr.
  destruct (build_headers inp (t ++ [api_header])) as [[e|hs] t1]; [discriminate Hr|].
  destruct (button inp); [|cbn [andb] in Hr; congruence].
  destruct (truthy (api_url inp)); [|cbn [andb] in Hr; congruence].
  cbn [andb] in Hr. injection Hr as Hf Ht.
  destruct (fetch_value_source inp hs v Hf Hv) as (response & Hh & Hs & Hj & _).
  split; [reflexivity|]. split; [reflexivity|]. exists hs, response.
  split; [|auto]. subst t'. apply in_or_app. right. now left.
Qed.

End ApiProperties.

(** ** The whole run *)

Section MainProperties.
Context {udb : UnicodeDB} {fp : FloatParser}.

Lemma handle_file_upload_quiet (inp : inputs) (t : trace) :
  exists (v : value) (out : trace),
    handle_file_upload inp t = (inr v, t ++ out) /\ filter is_request out = [].
Proof.
  destruct (uploaded_file inp) as [f|] eqn:Hf.
  - destruct (utf8_decode (getvalue f)) as [text|] eqn:Hd.
    + rewrite (handle_file_upload_decoded inp f text t Hf Hd).
      destruct (json_loads text) as [e|v]; eexists; eexists; split; reflexivity.
    + rewrite (handle_file_upload_undecodable inp f t Hf Hd).
      eexists; eexists; split; reflexivity.
  - rewrite (handle_file_upload_none inp t Hf). eexists; eexists; split; reflexivity.
Qed.

Lemma build_headers_quiet (inp : inputs) (t : trace) :
  exists (r : exn + headers) (out : trace),
    build_headers inp t = (r, t ++ out) /\ filter is_request out = [].
Proof.
  rewrite build_headers_run.
  destruct (truthy (custom_headers inp)).
  - destruct (json_loads (custom_headers inp)) as [e|v].
    + eexists; eexists; split; reflexivity.
    + destruct (dict_update (credential_headers inp) v);
        eexists; exists []; (split; [now rewrite app_nil_r | reflexivity]).
  - eexists; exists []; split; [now rewrite app_nil_r | reflexivity].
Qed.

(** What [display_json_data] adds after a loader, when it is called. *)
Lemma display_after (v : value) (t1 : trace) :
  exists out : trace,
    (if is_not_None v then display_json_data v t1 else (inr tt, t1)) = (inr tt, t1 ++ out)
    /\ filter is_request out = [].
Proof.
  destruct (is_not_None v).
  - exists (display_head v ++ summary v []). split; [apply display_run|].
    apply display_quiet.
  - exists []. now rewrite app_nil_r.
Qed.

(** X12: a run of [main] calls [requests.get] at most once, and only on
    the API path, when the button is pressed on a non-empty URL: the call
    is for that URL with the timeout 30.  The upload path and the page for
    the value make no request. *)
Theorem at_most_one_request :
  forall (inp : inputs) (t : trace),
    exists out : trace,
      snd (main inp t) = t ++ out
      /\ (filter is_request out = []
          \/ exists hs : headers,
               filter is_request out = [requests_get (api_url inp) hs 30]
               /\ input_method inp <> ulit "JSONファイルをアップロード"
               /\ button inp = true
               /\ truthy (api_url inp) = true).
Proof.
  intros inp t. rewrite main_run.
  destruct (pystr_eqb (input_method inp) (ulit "JSONファイルをアップロード")) eqn:Em.
  - destruct (handle_file_upload_quiet inp (t ++ main_preamble)) as (v & out & Hu & Hq).
    rewrite Hu. destruct (display_after v ((t ++ main_preamble) ++ out)) as (out' & Hd & Hq').
    rewrite Hd. exists (main_preamble ++ out ++ out'). cbn [snd].
    split; [now rewrite <- !app_assoc|]. left.
    rewrite !filter_app, Hq, Hq'. reflexivity.
  - assert (Hne : input_method inp <> ulit "JSONファイルをアップロード").
    { intros H. rewrite H, pystr_eqb_refl in Em. discriminate Em. }
    rewrite api_run.
    destruct (build_headers_quiet inp ((t ++ main_preamble) ++ [api_header]))
      as (r & out & Hb & Hq).
    rewrite Hb. destruct r as [e|hs].
    + exists (main_preamble ++ [api_header] ++ out). cbn [snd].
      split; [now rewrite <- !app_assoc|]. left.
      rewrite !filter_app, Hq. reflexivity.
    + destruct (button inp) eqn:Eb; [destruct (truthy (api_url inp)) eqn:Eu|]; cbn [andb].
      * match goal with
        | |- context [if is_not_None ?v then display_json_data ?v ?t1 else _] =>
            destruct (display_after v t1) as (out' & Hd & Hq')
        end.
        rewrite Hd.
        exists (main_preamble ++ [api_header] ++ out
                ++ [requests_get (api_url inp) hs 30; snd (fetch_outcome inp hs)] ++ out').
        cbn [snd]. split; [now rewrite <- !app_assoc|]. right. exists hs.
        split; [|auto]. rewrite !filter_app, Hq, Hq'.
        cbn [filter is_request]. rewrite fetch_line_is_no_request. reflexivity.
      * destruct (display_after JNull (((t ++ main_preamble) ++ [api_header]) ++ out))
          as (out' & Hd & Hq').
        rewrite Hd. exists (main_preamble ++ [api_header] ++ out ++ out'). cbn [snd].
        split; [now rewrite <- !app_assoc|]. left.
        rewrite !filter_app, Hq, Hq'. reflexivity.
      * destruct (display_after JNull (((t ++ main_preamble) ++ [api_header]) ++ out))
          as (out' & Hd & Hq').
        rewrite Hd. exists (main_preamble ++ [api_header] ++ out ++ out'). cbn [snd].
        split; [now rewrite <- !app_assoc|]. left.
        rewrite !filter_app, Hq, Hq'. reflexivity.
Qed.

(** X13: [main] returns normally on the upload path whatever the file,
    and on the API path whatever the server does, when the custom headers
    are empty, are not JSON, or are a JSON object. *)
Theorem main_returns_normally :
  forall inp : inputs,
    input_method inp = ulit "JSONファイルをアップロード"
    \/ truthy (custom_headers inp) = false
    \/ (forall v : value, json_loads (custom_headers inp) <> inr v)
    \/ (exists items, json_loads (custom_headers inp) = inr (JObject items)) ->
    forall t : trace, exists out : trace, main inp t = (inr tt, t ++ out).
Proof.
  intros inp H t. rewrite main_run.
  destruct (pystr_eqb (input_method inp) (ulit "JSONファイルをアップロード")) eqn:Em.
  - destruct (handle_file_upload_quiet inp (t ++ main_preamble)) as (v & out & Hu & _).
    rewrite Hu. destruct (display_after v ((t ++ main_preamble) ++ out)) as (out' & Hd & _).
    rewrite Hd. exists (main_preamble ++ out ++ out'). now rewrite <- !app_assoc.
  - destruct H as [H|H]; [rewrite H, pystr_eqb_refl in Em; discriminate Em|].
    assert (Hb : exists hs out,
               build_headers inp ((t ++ main_preamble) ++ [api_header])
               = (inr hs, ((t ++ main_preamble) ++ [api_header]) ++ out)).
    { rewrite build_headers_run. destruct H as [H|[H|[items H]]].
      - rewrite H. eexists; exists []; now rewrite app_nil_r.
      - destruct (truthy (custom_headers inp));
          [|eexists; exists []; now rewrite app_nil_r].
        destruct (json_loads (custom_headers inp)) as [e|v] eqn:El;
          [eexists; eexists; reflexivity | now destruct (H v)].
      - destruct (truthy (custom_headers inp));
          [|eexists; exists []; now rewrite app_nil_r].
        rewrite H. eexists; exists []; now rewrite app_nil_r. }
    destruct Hb as (hs & out & Hb). rewrite api_run, Hb.
    destruct (button inp && truthy (api_url inp)).
    + match goal with
      | |- context [if is_not_None ?v then display_json_data ?v ?t1 else _] =>
          destruct (display_after v t1) as (out' & Hd & _)
      end.
      rewrite Hd. eexists. now rewrite <- !app_assoc.
    + cbn [is_not_None]. eexists. now rewrite <- !app_assoc.
Qed.

(** X14: the one exception that leaves [main] is the TypeError or
    ValueError of [headers.update] on custom headers that are valid JSON
    but not an object, on the API path; it leaves before anything but the
    header of the form is shown, and before any request. *)
Theorem main_raises_only_from_header_update :
  forall (inp : inputs) (t t' : trace) (e : exn),
    main inp t = (inl e, t') ->
    input_method inp <> ulit "JSONファイルをアップロード"
    /\ truthy (custom_headers inp) = true
    /\ (exn_cls e = TypeError \/ exn_cls e = ValueError)
    /\ t' = t ++ main_preamble ++ [api_header]
    /\ exists v : value,
         json_loads (custom_headers inp) = inr v
         /\ (forall items, v <> JObject items)
         /\ dict_update (credential_headers inp) v = inl e.
Proof.
  intros inp t t' e Hr. rewrite main_run in Hr.
  destruct (pystr_eqb (input_method inp) (ulit "JSONファイルをアップロード")) eqn:Em.
  - destruct (handle_file_upload_quiet inp (t ++ main_preamble)) as (v & out & Hu & _).
    rewrite Hu in Hr.
    destruct (display_after v ((t ++ main_preamble) ++ out)) as (out' & Hd & _).
    rewrite Hd in Hr. discriminate Hr.
  - split; [intros H; rewrite H, pystr_eqb_refl in Em; discriminate Em|].
    rewrite api_run, build_headers_run in Hr.
    assert (Hidle : forall (hs : headers) (t1 : trace),
      match
        (if button inp && truthy (api_url inp)
         then (inr (fst (fetch_outcome inp hs)),
               t1 ++ [requests_get (api_url inp) hs 30; snd (fetch_outcome inp hs)])
         else (inr JNull, t1))
      with
      | (inr v, t2) => if is_not_None v then display_json_data v t2 else (inr tt, t2)
      | (inl e0, t2) => (inl e0, t2)
      end <> (inl e, t')).
    { intros hs t1. destruct (button inp && truthy (api_url inp)); cbv beta iota.
      - destruct (is_not_None (fst (fetch_outcome inp hs)));
          [rewrite display_run|]; discriminate.
      - cbn [is_not_None]. discriminate. }
    destruct (truthy (custom_headers inp)); [|now apply Hidle in Hr].
    destruct (json_loads (custom_headers inp)) as [e0|v] eqn:El; [now apply Hidle in Hr|].
    destruct (dict_update (credential_headers inp) v) as [e0|hs] eqn:Eu;
      [|now apply Hidle in Hr].
    injection Hr as -> <-.
    split; [reflexivity|]. split; [exact (dict_update_error _ _ _ Eu)|].
    split; [now rewrite <- !app_assoc|].
    exists v. split; [reflexivity|]. split; [|exact Eu].
    intros items ->. discriminate Eu.
Qed.

(** X15: on the API path with no custom headers, when the button is
    pressed on a URL: [main] shows the header of the form, makes the request
    with the credential alone, shows the line of the outcome, and then the
    page for the value returned, unless that value is [None] (a failure, or
    the body [null]), in which case nothing more is shown. *)
Theorem api_run_displays_the_value :
  forall (inp : inputs) (t : trace),
    input_method inp <> ulit "JSONファイルをアップロード" ->
    truthy (custom_headers inp) = false ->
    button inp = true ->
    truthy (api_url inp) = true ->
    main inp t
    = (inr tt,
       t ++ main_preamble
         ++ [api_header;
             requests_get (api_url inp) (credential_headers inp) 30;
             snd (fetch_outcome inp (credential_headers inp))]
         ++ (if is_not_None (fst (fetch_outcome inp (credential_headers inp)))
             then display_head (fst (fetch_outcome inp (credential_headers inp)))
                  ++ summary (fst (fetch_outcome inp (credential_headers inp))) []
             else [])).
Proof.
  intros inp t Hm Hc Hb Hu.
  rewrite main_run, (pystr_eqb_neq _ _ Hm), api_run, build_headers_run, Hc, Hb, Hu.
  cbn [andb].
  destruct (is_not_None (fst (fetch_outcome inp (credential_headers inp)))).
  - rewrite display_run. now rewrite <- !app_assoc.
  - now rewrite <- !app_assoc, app_nil_r.
Qed.

End MainProperties.

(** ** Concrete runs of the further properties *)

Lemma undecodable_upload_witness :
  utf8_decode [34; 233; 34]%N = None
  /\ (forall (udb : UnicodeDB) (fp : FloatParser),
        exists msg : pystr,
          forall t : trace,
            main (upload_inputs (lit "latin1.json") [34; 233; 34]%N) t
            = (inr tt,
               t ++ main_preamble
                 ++ [upload_header;
                     st_error (ulit "❌ ファイルの読み込みに失敗しました: " ++ msg)])).
Proof.
  split; [reflexivity|]. intros udb fp.
  exact (undecodable_upload_is_reported
           (upload_inputs (lit "latin1.json") [34; 233; 34]%N)
           {| file_name := lit "latin1.json"; getvalue := [34; 233; 34]%N |}
           eq_refl eq_refl eq_refl).
Defined.

Lemma bom_upload_witness :
  utf8_decode (lit "{}") = Some (lit "{}")
  /\ (forall (udb : UnicodeDB) (fp : FloatParser),
        json_loads (lit "{}") = inr (JObject [])
        /\ exists e : exn,
             json_loads (65279%N :: lit "{}") = inl e
             /\ exn_cls e = JSONDecodeError
             /\ forall t : trace,
                  main (upload_inputs (lit "bom.json")
                          (239 :: 187 :: 191 :: lit "{}")%N) t
                  = (inr tt,
                     t ++ main_preamble
                       ++ [upload_header;
                           st_error (ulit "❌ JSON形式が正しくありません: "
                                     ++ exn_msg e)])).
Proof.
  split; [reflexivity|]. intros udb fp. split; [vm_compute; reflexivity|].
  exact (bom_upload_is_rejected
           (upload_inputs (lit "bom.json") (239 :: 187 :: 191 :: lit "{}")%N)
           {| file_name := lit "bom.json";
              getvalue := (239 :: 187 :: 191 :: lit "{}")%N |}
           (lit "{}") (lit "{}") eq_refl eq_refl eq_refl eq_refl).
Defined.

Lemma upload_displays_parsed_value_witness :
  utf8_decode (lit "[1, [true, null]]") = Some (lit "[1, [true, null]]")
  /\ (forall (udb : UnicodeDB) (fp : FloatParser) (t : trace),
        main (upload_inputs (lit "data.json") (lit "[1, [true, null]]")) t
        = (inr tt,
           t ++ main_preamble
             ++ [upload_header;
                 upload_success {| file_name := lit "data.json";
                                   getvalue := lit "[1, [true, null]]" |}]
             ++ display_head (JArray [JInt 1; JArray [JBool true; JNull]])
             ++ summary (JArray [JInt 1; JArray [JBool true; JNull]]) [])).
Proof.
  split; [reflexivity|]. intros udb fp t.
  apply (upload_displays_parsed_value
           (upload_inputs (lit "data.json") (lit "[1, [true, null]]"))
           {| file_name := lit "data.json"; getvalue := lit "[1, [true, null]]" |}
           (lit "[1, [true, null]]") (JArray [JInt 1; JArray [JBool true; JNull]])
           eq_refl eq_refl eq_refl).
  - vm_compute. reflexivity.
  - discriminate.
Defined.

Lemma download_reloads_witness :
  @json_loads literal_floats (lit "[1, 2.5]") = inr (JArray [JInt 1; JFloat (lit "2.5")])
  /\ (forall (udb : UnicodeDB) (t : trace),
        exists out : trace,
          display_json_data (JArray [JInt 1; JFloat (lit "2.5")]) t = (inr tt, t ++ out)
          /\ In (st_json (JArray [JInt 1; JFloat (lit "2.5")])) out
          /\ (exists d : pystr,
                filter is_download out
                = [st_download_button d (lit "data.json") (lit "application/json")]
                /\ filter is_code out = [st_code d]
                /\ @json_loads literal_floats d
                   = inr (JArray [JInt 1; JFloat (lit "2.5")]))).
Proof.
  split; [vm_compute; reflexivity|]. intros udb t.
  apply (@download_reloads_to_displayed_value udb literal_floats
           literal_floats_read_back (lit "[1, 2.5]")).
  vm_compute. reflexivity.
Defined.

Lemma malformed_custom_headers_witness :
  truthy (lit "{'X': 1}") = true
  /\ (forall (fp : FloatParser) (t : trace),
        handle_api_request
          (api_inputs (lit "https://api.example.com/data") (lit "secret")
             (lit "X-API-Key") (lit "{'X': 1}") true
             (fun _ _ _ => inl (Raise ReadTimeout (lit "timed out")))) t
        = (inr JNull,
           t ++ [api_header; headers_warning;
                 requests_get (lit "https://api.example.com/data")
                   [(JString (lit "X-API-Key"), JString (lit "secret"))] 30;
                 st_error (ulit "❌ APIリクエストに失敗しました: " ++ lit "timed out")])).
Proof.
  split; [reflexivity|]. intros fp t.
  refine (proj2 (malformed_custom_headers_are_ignored
                   (api_inputs (lit "https://api.example.com/data") (lit "secret")
                      (lit "X-API-Key") (lit "{'X': 1}") true
                      (fun _ _ _ => inl (Raise ReadTimeout (lit "timed out"))))
                   eq_refl _ t)).
  intros v H. vm_compute in H. discriminate H.
Defined.

Lemma object_custom_headers_witness :
  truthy (lit "{" ++ quoted (lit "Authorization") ++ lit ": "
          ++ quoted (lit "Basic abc") ++ lit "}") = true
  /\ (forall fp : FloatParser,
        exists hs : headers,
          (forall t : trace,
              build_headers
                (api_inputs (lit "https://api.example.com/data") (lit "secret")
                   (lit "Authorization: Bearer")
                   (lit "{" ++ quoted (lit "Authorization") ++ lit ": "
                    ++ quoted (lit "Basic abc") ++ lit "}")
                   false (fun _ _ _ => inl (Raise ConnectionError []))) t
              = (inr hs, t))
          /\ headers_get hs (JString (lit "Authorization"))
             = Some (JString (lit "Basic abc"))
          /\ headers_get hs (JString (lit "Accept")) = None).
Proof.
  split; [reflexivity|]. intros fp.
  destruct (object_custom_headers_are_merged
              (api_inputs (lit "https://api.example.com/data") (lit "secret")
                 (lit "Authorization: Bearer")
                 (lit "{" ++ quoted (lit "Authorization") ++ lit ": "
                  ++ quoted (lit "Basic abc") ++ lit "}")
                 false (fun _ _ _ => inl (Raise ConnectionError [])))
              [(lit "Authorization", JString (lit "Basic abc"))] eq_refl)
    as (hs & Hb & Hin & Hout & _).
  - vm_compute. reflexivity.
  - exists hs. split; [exact Hb|]. split.
    + destruct (Hin (lit "Authorization") (or_introl eq_refl)) as (x & [Hx|[]] & Hg).
      injection Hx as <-. exact Hg.
    + rewrite (Hout (lit "Accept")); [reflexivity|].
      intros [H|[]]. vm_compute in H. discriminate H.
Defined.

Lemma api_value_witness :
  is_2xx 301 = false
  /\ (forall fp : FloatParser,
        let inp :=
          api_inputs (lit "https://api.example.com/old") [] [] [] true
            (fun _ _ _ =>
               inr {| status_code := 301;
                      reason := lit "Moved Permanently";
                      url := lit "https://api.example.com/old";
                      response_json := inr (JArray [JInt 1]) |}) in
        button inp = true
        /\ truthy (api_url inp) = true
        /\ exists (hs : headers) (response : Response),
             In (requests_get (api_url inp) hs 30)
                [api_header;
                 requests_get (lit "https://api.example.com/old") [] 30;
                 st_success (ulit "✅ APIからデータを正常に取得しました (ステータス: 301)")]
             /\ http inp (api_url inp) hs 30%Z = inr response
             /\ is_http_error (status_code response) = false
             /\ response_json response = inr (JArray [JInt 1])).
Proof.
  split; [reflexivity|]. intros fp inp.
  apply (api_value_comes_from_the_response inp []
           [api_header;
            requests_get (lit "https://api.example.com/old") [] 30;
            st_success (ulit "✅ APIからデータを正常に取得しました (ステータス: 301)")]
           (JArray [JInt 1])).
  - vm_compute. reflexivity.
  - discriminate.
Defined.

Lemma main_returns_normally_witness :
  truthy (lit "{}") = true
  /\ (forall (udb : UnicodeDB) (fp : FloatParser) (t : trace),
        exists out : trace,
          main (api_inputs (lit "https://api.example.com/data") [] [] (lit "{}") true
                  (fun _ _ _ =>
                     inr {| status_code := 500;
                            reason := lit "Internal Server Error";
                            url := lit "https://api.example.com/data";
                            response_json := inl (Raise RequestsJSONDecodeError []) |})) t
          = (inr tt, t ++ out)).
Proof.
  split; [reflexivity|]. intros udb fp t.
  apply (main_returns_normally
           (api_inputs (lit "https://api.example.com/data") [] [] (lit "{}") true
              (fun _ _ _ =>
                 inr {| status_code := 500;
                        reason := lit "Internal Server Error";
                        url := lit "https://api.example.com/data";
                        response_json := inl (Raise RequestsJSONDecodeError []) |}))).
  right. right. right. exists []. vm_compute. reflexivity.
Defined.

Lemma main_raises_witness :
  dict_update [] (JArray [JInt 1])
  = inl (Raise TypeError
           (lit "cannot convert dictionary update sequence element to a sequence"))
  /\ (forall (udb : UnicodeDB) (fp : FloatParser),
        let inp :=
          api_inputs (lit "https://api.example.com/data") [] [] (lit "[1]") true
            (fun _ _ _ => inl (Raise ConnectionError [])) in
        let e :=
          Raise TypeError
            (lit "cannot convert dictionary update sequence element to a sequence") in
        input_method inp <> ulit "JSONファイルをアップロード"
        /\ truthy (custom_headers inp) = true
        /\ (exn_cls e = TypeError \/ exn_cls e = ValueError)
        /\ main_preamble ++ [api_header] = [] ++ main_preamble ++ [api_header]
        /\ exists v : value,
             json_loads (custom_headers inp) = inr v
             /\ (forall items, v <> JObject items)
             /\ dict_update (credential_headers inp) v = inl e).
Proof.
  split; [reflexivity|]. intros udb fp inp e.
  apply (@main_raises_only_from_header_update udb fp inp []
           (main_preamble ++ [api_header]) e).
  vm_compute. reflexivity.
Defined.

Lemma api_run_displays_witness :
  truthy (lit "https://api.example.com/data") = true
  /\ (forall (udb : UnicodeDB) (fp : FloatParser) (t : trace),
        main (api_inputs (lit "https://api.example.com/data") (lit "secret")
                (lit "Authorization: Bearer") [] true
                (fun _ _ _ =>
                   inr {| status_code := 200;
                          reason := lit "OK";
                          url := lit "https://api.example.com/data";
                          response_json := inr (JArray [JInt 1; JInt 2]) |})) t
        = (inr tt,
           t ++ main_preamble
             ++ [api_header;
                 requests_get (lit "https://api.example.com/data")
                   [(JString (lit "Authorization"), JString (lit "Bearer secret"))] 30;
                 st_success (ulit "✅ APIからデータを正常に取得しました (ステータス: 200)")]
             ++ display_head (JArray [JInt 1; JInt 2])
             ++ summary (JArray [JInt 1; JInt 2]) [])).
Proof.
  split; [reflexivity|]. intros udb fp t.
  refine (api_run_displays_the_value
            (api_inputs (lit "https://api.example.com/data") (lit "secret")
               (lit "Authorization: Bearer") [] true
               (fun _ _ _ =>
                  inr {| status_code := 200;
                         reason := lit "OK";
                         url := lit "https://api.example.com/data";
                         response_json := inr (JArray [JInt 1; JInt 2]) |}))
            t _ eq_refl eq_refl eq_refl).
  intros H. vm_compute in H. discriminate H.
Defined.
